(** * How It Lands: the analysis server, embedded and verified

    A shallow embedding of the backend of the "How It Lands" application
    (server/index.js, lib/agentBuilder.js, lib/reviewerAgent.js and
    lib/elasticsearch.js) together with the proofs of the properties its
    specification states about it.

    Conventions of the embedding.
    - A JavaScript string is a [string] of Latin-1 characters: the code units
      below 256.  Lower-casing and the white-space class are JavaScript's on
      that range.
    - A value received from the network is a [json] tree.  A number is
      modelled by an integer: the code only tests numbers for truthiness and
      copies them.
    - An expression that may raise is a [completion]: [Ret v] or [Throw].
    - [JSON.parse], [JSON.stringify] and [Date] belong to the JavaScript
      runtime, not to the repository; they are the fields of the class
      [JsRuntime] and every definition and theorem is parametric in them.
    - What [fetch] brought back is an [httpResult]; a response body is
      represented by what it decodes to. *)

From Stdlib Require Import Bool Arith NArith ZArith List Ascii String Lia Permutation Sorted.
From Stdlib Require Import Numbers.DecimalString Numbers.DecimalNat Numbers.DecimalN.
Import ListNotations.
Open Scope list_scope.
Open Scope string_scope.

Set Implicit Arguments.
Set Warnings "-register-all".

(* ================================================================== *)
(** ** JavaScript strings *)

Module JsString.

(** White space as [String.prototype.trim] and the regular-expression class
    [\s] see it, below code unit 256: TAB, LF, VT, FF, CR, SPACE, NBSP. *)
Definition is_space (c : ascii) : bool :=
  let n := nat_of_ascii c in
  (((9 <=? n) && (n <=? 13)) || (n =? 32) || (n =? 160))%nat.

(** [String.prototype.toLowerCase] on one Latin-1 character: A-Z and the
    accented capitals 192-222 (the multiplication sign 215 apart) move up
    by 32. *)
Definition toLowerChar (c : ascii) : ascii :=
  let n := nat_of_ascii c in
  if (((65 <=? n) && (n <=? 90)) ||
      ((192 <=? n) && (n <=? 222) && negb (n =? 215)))%nat
  then ascii_of_nat (n + 32) else c.

Fixpoint toLowerCase (s : string) : string :=
  match s with
  | EmptyString => EmptyString
  | String c s' => String (toLowerChar c) (toLowerCase s')
  end.

(** [s.replace(/\./g, '')] *)
Fixpoint removeDots (s : string) : string :=
  match s with
  | EmptyString => EmptyString
  | String c s' =>
      if Ascii.eqb c "." then removeDots s' else String c (removeDots s')
  end.

(** [s.includes(t)] *)
Fixpoint includes (t s : string) : bool :=
  prefix t s ||
  match s with
  | EmptyString => false
  | String _ s' => includes t s'
  end.

(** [s.endsWith(t)] *)
Fixpoint endsWith (t s : string) : bool :=
  String.eqb t s ||
  match s with
  | EmptyString => false
  | String _ s' => endsWith t s'
  end.

Fixpoint trimStart (s : string) : string :=
  match s with
  | EmptyString => EmptyString
  | String c s' => if is_space c then trimStart s' else s
  end.

Fixpoint trimEnd (s : string) : string :=
  match s with
  | EmptyString => EmptyString
  | String c s' =>
      match trimEnd s' with
      | EmptyString => if is_space c then EmptyString else String c EmptyString
      | r => String c r
      end
  end.

(** [s.trim()] *)
Definition trim (s : string) : string := trimEnd (trimStart s).

(** [s.split(sep)] for a non-empty separator: the separator is looked for
    from the left, occurrences do not overlap.  [skip] counts the
    characters of a separator that was just recognised and is still being
    stepped over; the head of the result is the piece under construction. *)
Fixpoint split_go (sep : string) (skip : nat) (s : string) : list string :=
  match s with
  | EmptyString => [EmptyString]
  | String c s' =>
      match skip with
      | S k => split_go sep k s'
      | O =>
          if prefix sep s
          then EmptyString :: split_go sep (String.length sep - 1) s'
          else match split_go sep 0 s' with
               | p :: ps => String c p :: ps
               | [] => [String c EmptyString]
               end
      end
  end.

Definition split (sep s : string) : list string := split_go sep 0 s.

(** [parts.join(sep)] *)
Fixpoint join (sep : string) (parts : list string) : string :=
  match parts with
  | [] => EmptyString
  | [p] => p
  | p :: ps => p ++ sep ++ join sep ps
  end.

(** [parts.sort()] with the default comparator: code-unit order on the
    elements, themselves strings.  The sort is stable; on strings, equal
    keys are equal elements, so the result is the one sorted arrangement. *)
Fixpoint insert (x : string) (l : list string) : list string :=
  match l with
  | [] => [x]
  | y :: l' => if String.leb x y then x :: l else y :: insert x l'
  end.

Fixpoint sort (l : list string) : list string :=
  match l with
  | [] => []
  | x :: l' => insert x (sort l')
  end.

(** [s.replace(/ /g, '_')] *)
Fixpoint underscoreSpaces (s : string) : string :=
  match s with
  | EmptyString => EmptyString
  | String c s' =>
      String (if Ascii.eqb c " " then "_"%char else c) (underscoreSpaces s')
  end.

(** The remainder of [s] after the prefix [t], when [s] starts with [t]. *)
Fixpoint dropPrefix (t s : string) : option string :=
  match t, s with
  | EmptyString, _ => Some s
  | String a t', String b s' =>
      if Ascii.eqb a b then dropPrefix t' s' else None
  | String _ _, EmptyString => None
  end.

(** [s.replace(/^MARK\s*/, '')]: a leading [mark] goes, with the white
    space that follows it. *)
Definition stripLeading (mark s : string) : string :=
  match dropPrefix mark s with
  | Some rest => trimStart rest
  | None => s
  end.

(** What is left of [s] without its last three characters, when these are
    the closing fence. *)
Fixpoint dropClosingFence (s : string) : option string :=
  match s with
  | EmptyString => None
  | String c s' =>
      if String.eqb s "```" then Some EmptyString
      else option_map (String c) (dropClosingFence s')
  end.

(** [s.replace(/\s*```$/, '')]: a closing fence at the very end goes, with
    the white space that precedes it. *)
Definition stripTrailing (s : string) : string :=
  match dropClosingFence s with
  | Some rest => trimEnd rest
  | None => s
  end.

(** The chain
    [.replace(/^```json\s*/, '').replace(/^```\s*/, '').replace(/\s*```$/, '').trim()]
    both parsers apply before [JSON.parse]. *)
Definition stripFences (s : string) : string :=
  trim (stripTrailing (stripLeading "```" (stripLeading "```json" s))).

(** The longest prefix of [s] that ends with a closing brace. *)
Fixpoint uptoLastBrace (s : string) : option string :=
  match s with
  | EmptyString => None
  | String c s' =>
      match uptoLastBrace s' with
      | Some r => Some (String c r)
      | None => if Ascii.eqb c "}" then Some (String c EmptyString) else None
      end
  end.

(** [s.match(/\{[\s\S]*\}/)]: the span from the first opening brace to the
    last closing brace after it; [None] when there is no match. *)
Fixpoint matchBraces (s : string) : option string :=
  match s with
  | EmptyString => None
  | String c s' =>
      if Ascii.eqb c "{" then option_map (String c) (uptoLastBrace s')
      else matchBraces s'
  end.

(** Predicates used to state facts about these functions. *)

(** Characters that lower-casing and period removal leave alone. *)
Definition settled (c : ascii) : bool :=
  Ascii.eqb (toLowerChar c) c && negb (Ascii.eqb c ".").

Fixpoint allChars (p : ascii -> bool) (s : string) : bool :=
  match s with
  | EmptyString => true
  | String c s' => p c && allChars p s'
  end.

(** A string that does not begin with white space. *)
Definition cleanStart (s : string) : bool :=
  match s with
  | EmptyString => true
  | String c _ => negb (is_space c)
  end.

(** An operand in which the letters v and s never follow each other. *)
Definition noVs (operand : string) : bool := negb (includes "vs" operand).

(** A canonical operand: already lower-cased, period-free, trimmed, and
    free of "vs". *)
Definition canonicalOperand (x : string) : Prop :=
  allChars settled x = true /\ trim x = x /\ noVs x = true.

(** The template literal [`${n}`] of a non-negative integer. *)
Definition ofNat (n : nat) : string := NilEmpty.string_of_uint (Nat.to_uint n).

(** The same for a time in milliseconds, as [Date.now()] returns it. *)
Definition ofTime (t : N) : string := NilEmpty.string_of_uint (N.to_uint t).

End JsString.

(* ================================================================== *)
(** ** JSON values and the JavaScript operations the code applies to them *)

Inductive json : Type :=
| JNull
| JBool (b : bool)
| JNum (n : Z)
| JStr (s : string)
| JArr (items : list json)
| JObj (fields : list (string * json)).

(** Outcome of an expression that may raise. *)
Inductive completion (A : Type) : Type :=
| Ret (v : A)
| Throw.
Arguments Throw {A}.

Definition bind {A B} (m : completion A) (k : A -> completion B) : completion B :=
  match m with
  | Ret v => k v
  | Throw => Throw
  end.

Notation "x <- m ;; k" := (bind m (fun x => k))
  (at level 61, m at next level, right associativity).

(** The runtime services the code calls.  [JSON_parse s] is [None] when
    [JSON.parse(s)] raises a SyntaxError. *)
Class JsRuntime : Type := {
  JSON_parse : string -> option json;
  JSON_stringify : json -> string;
  (** [new Date(v).getTime()]; [None] is NaN, the time of an invalid date. *)
  Date_getTime : json -> option Z
}.

Module Js.

Fixpoint lookup (k : string) (fields : list (string * json)) : option json :=
  match fields with
  | [] => None
  | (k', v) :: rest => if String.eqb k k' then Some v else lookup k rest
  end.

(** [obj[k] = v] on an object. *)
Fixpoint set (k : string) (v : json) (fields : list (string * json))
  : list (string * json) :=
  match fields with
  | [] => [(k, v)]
  | (k', v') :: rest =>
      if String.eqb k k' then (k, v) :: rest else (k', v') :: set k v rest
  end.

(** [v.k] for one of the field names the code reads; [None] is
    [undefined].  Reading a property of [null] raises a TypeError; strings,
    numbers, booleans and arrays have none of these names. *)
Definition get (v : json) (k : string) : completion (option json) :=
  match v with
  | JNull => Throw
  | JObj fields => Ret (lookup k fields)
  | _ => Ret None
  end.

(** [v?.k] where [v] itself may be [undefined]. *)
Definition getOpt (v : option json) (k : string) : option json :=
  match v with
  | Some (JObj fields) => lookup k fields
  | _ => None
  end.

(** ToBoolean *)
Definition truthy (v : json) : bool :=
  match v with
  | JNull => false
  | JBool b => b
  | JNum n => negb (Z.eqb n 0)
  | JStr s => negb (String.eqb s "")
  | JArr _ | JObj _ => true
  end.

Definition truthyOpt (v : option json) : bool :=
  match v with
  | Some v => truthy v
  | None => false
  end.

(** [a || b] on possibly undefined values. *)
Definition orElse (a b : option json) : option json :=
  if truthyOpt a then a else b.

Definition isArray (v : option json) : bool :=
  match v with
  | Some (JArr _) => true
  | _ => false
  end.

Definition ofOption (v : option string) : json :=
  match v with
  | Some s => JStr s
  | None => JNull
  end.

(** [v === 'text'] *)
Definition isStr (v : option json) (text : string) : bool :=
  match v with
  | Some (JStr s) => String.eqb s text
  | _ => false
  end.

(** [agentResponse.steps] when it is an array, no steps otherwise. *)
Definition stepsOf (agentResponse : json) : list json :=
  match getOpt (Some agentResponse) "steps" with
  | Some (JArr steps) => steps
  | _ => []
  end.

(** A record with a reaction or a first rating: an object whose
    [feedback_text] or [relatability] is truthy. *)
Definition isRecord (v : json) : bool :=
  match v with
  | JObj fields =>
      truthyOpt (lookup "feedback_text" fields) ||
      truthyOpt (lookup "relatability" fields)
  | _ => false
  end.

(** [null], or such a record. *)
Definition recordOrNull (result : option json) : Prop :=
  match result with
  | Some v => isRecord v = true
  | None => True
  end.

End Js.


(** [try { m } catch { h }] *)
Definition tryCatch {A} (m : completion A) (h : completion A) : completion A :=
  match m with
  | Ret v => Ret v
  | Throw => h
  end.

Definition ofParse (r : option json) : completion json :=
  match r with
  | Some v => Ret v
  | None => Throw
  end.

(* ================================================================== *)
(** ** What the network answers *)

(** The body of an HTTP response, by what its text decodes to. *)
Inductive httpBody : Type :=
| EmptyBody
| TextBody (raw : string)   (* text that is not JSON *)
| JsonBody (data : json).

(** What [await fetch(...)] produced: a rejection, or a response. *)
Inductive httpResult : Type :=
| NetworkError
| HttpResponse (status : nat) (body : httpBody).

Module Http.

(** [response.ok] *)
Definition ok (status : nat) : bool := (200 <=? status)%nat && (status <=? 299)%nat.

(** [await response.json()] *)
Definition json_of (body : httpBody) : completion json :=
  match body with
  | JsonBody data => Ret data
  | _ => Throw
  end.

(** The shape shared by [callAgentBuilderConverse] and [callReviewerAgent]
    after the request is built: [fetch], then [if (!response.ok) throw],
    then [return await response.json()]. *)
Definition converse (r : httpResult) : completion json :=
  match r with
  | NetworkError => Throw
  | HttpResponse status body => if ok status then json_of body else Throw
  end.

End Http.

(* ================================================================== *)
(** ** lib/agentBuilder.js *)

Module AgentBuilder.

Definition callAgentBuilderConverse (r : httpResult) : completion json :=
  Http.converse r.

End AgentBuilder.

(* ================================================================== *)
(** ** lib/reviewerAgent.js *)

Module Reviewer.
Import JsString.

Definition vs : string := " vs ".

(** [conflict.toLowerCase().replace(/\./g, '')] *)
Definition normalized (conflict : string) : string := removeDots (toLowerCase conflict).

(** [normalizeConflict(conflict)]; [None] is the [null] it returns. *)
Definition normalizeConflict (conflict : json) : option string :=
  match conflict with
  | JStr s =>
      if String.eqb s "" then None
      else
        let normalized := normalized s in
        if includes vs normalized
        then Some (join vs (sort (map trim (split vs normalized))))
        else Some normalized
  | _ => None
  end.

(** The canonicalisation seen as an operation on labels. *)
Definition canon (s : string) : option string := normalizeConflict (JStr s).

(** [canon(canon(s))]: the second call receives whatever the first one
    returned, [null] included. *)
Definition canon2 (s : string) : option string :=
  normalizeConflict (Js.ofOption (canon s)).

(** The record [parseReviewerResponse] starts from. *)
Definition defaultReview : list (string * json) :=
  [ ("reasoning", JStr "Analysis pending...");
    ("divergence_score", JNum 0);
    ("risk_level", JStr "unknown");
    ("primary_conflict", JStr "None detected");
    ("conflict_summary", JStr "Insufficient data for analysis");
    ("recommendation", JStr "No recommendation available") ].

(** The record [getReview] answers with when there is too little to review. *)
Definition insufficientReview : json :=
  JObj [ ("divergence_score", JNum 0);
         ("risk_level", JStr "low");
         ("primary_conflict", JStr "N/A");
         ("conflict_summary", JStr "Insufficient data for analysis");
         ("recommendation", JStr "Need more reactions to provide meaningful review") ].

(** The own enumerable properties [{...v}] copies: the fields of an object,
    the indices of an array or of a string, nothing for the other values. *)
Fixpoint indexed {A} (f : A -> json) (i : nat) (l : list A) : list (string * json) :=
  match l with
  | [] => []
  | x :: l' => (ofNat i, f x) :: indexed f (S i) l'
  end.

Definition spreadFields (v : json) : list (string * json) :=
  match v with
  | JObj fields => fields
  | JArr items => indexed (fun x => x) 0 items
  | JStr s => indexed (fun c => JStr (String c EmptyString)) 0 (list_ascii_of_string s)
  | _ => []
  end.

(** [{ ...result, ...v }]: the fields of [v] are assigned one after the other.
    (The place an integer-like key takes among the properties only shows in
    a serialisation, which is not modelled.) *)
Definition merge (result : list (string * json)) (v : json) : list (string * json) :=
  fold_left (fun acc kv => Js.set (fst kv) (snd kv) acc) (spreadFields v) result.

(** What one step of [agentResponse.steps] contributes: the [data] of a
    [tool_call] step when it carries a [divergence_score].  Reading the type
    of a [null] step raises. *)
Definition contribution (step : json) : completion (option json) :=
  ty <- Js.get step "type" ;;
  let data :=
    if Js.isStr ty "tool_call"
    then Js.getOpt (Js.getOpt (Some step) "params") "data"
    else None in
  if Js.truthyOpt data
  then match Js.getOpt data "divergence_score" with
       | Some _ => Ret data
       | None => Ret None
       end
  else Ret None.

(** The loop over [agentResponse.steps].  The second component tells
    whether the loop ran to its end ([Ret]) or raised on a step ([Throw]);
    the first is [result] as it stands at that point. *)
Fixpoint mergeSteps (steps : list json) (result : list (string * json))
  : list (string * json) * completion unit :=
  match steps with
  | [] => (result, Ret tt)
  | step :: rest =>
      match contribution step with
      | Throw => (result, Throw)
      | Ret (Some data) => mergeSteps rest (merge result data)
      | Ret None => mergeSteps rest result
      end
  end.

(** The default record once its conflict label went through
    [normalizeConflict]. *)
Definition canonicalDefault : list (string * json) :=
  [ ("reasoning", JStr "Analysis pending...");
    ("divergence_score", JNum 0);
    ("risk_level", JStr "unknown");
    ("primary_conflict", JStr "none detected");
    ("conflict_summary", JStr "Insufficient data for analysis");
    ("recommendation", JStr "No recommendation available") ].

Section WithRuntime.
Context {R : JsRuntime}.

(** The text the fallback works on:
    [output || message || response?.message || (string ? itself : JSON.stringify(...))]. *)
Definition jsonContent (agentResponse : json) : json :=
  let output := Js.getOpt (Some agentResponse) "output" in
  let message := Js.getOpt (Some agentResponse) "message" in
  let nested := Js.getOpt (Js.getOpt (Some agentResponse) "response") "message" in
  match Js.orElse (Js.orElse output message) nested with
  | Some v => if Js.truthy v then v
              else match agentResponse with
                   | JStr s => agentResponse
                   | _ => JStr (JSON_stringify agentResponse)
                   end
  | None => match agentResponse with
            | JStr s => agentResponse
            | _ => JStr (JSON_stringify agentResponse)
            end
  end.

(** The fallback block guarded by [result.risk_level === 'unknown']. *)
Definition fallback (agentResponse : json) (result : list (string * json))
  : list (string * json) :=
  match jsonContent agentResponse with
  | JStr text =>
      let cleaned := stripFences text in
      match JSON_parse cleaned with
      | Some parsed => merge result parsed
      | None =>
          match matchBraces cleaned with
          | Some span =>
              match JSON_parse span with
              | Some parsed => merge result parsed
              | None => result
              end
          | None => result
          end
      end
  | JObj fields =>
      match Js.lookup "divergence_score" fields with
      | Some _ => merge result (JObj fields)
      | None => result
      end
  | _ => result
  end.

(** Text from which neither the strict parse nor the parse of the brace span
    gets anything. *)
Definition unparseable (text : string) : Prop :=
  JSON_parse (stripFences text) = None /\
  match matchBraces (stripFences text) with
  | Some span => JSON_parse span = None
  | None => True
  end.

(** The last statement of the [try] block: the conflict label is
    replaced by its canonical form, unless that form is empty or null. *)
Definition normalizeResult (result : list (string * json)) : list (string * json) :=
  match Js.lookup "primary_conflict" result with
  | Some pc =>
      if Js.truthy pc
      then let canonical := Js.ofOption (normalizeConflict pc) in
           Js.set "primary_conflict" (if Js.truthy canonical then canonical else pc) result
      else result
  | None => result
  end.

(** [parseReviewerResponse(agentResponse)].  The first statement,
    [Object.keys(agentResponse)], is outside the [try] and raises on
    [null].  Inside the [try], only a [null] entry of [steps] raises; the
    [catch] then logs and the function returns [result] as it stands. *)
Definition parseReviewerResponse (agentResponse : json) : completion json :=
  match agentResponse with
  | JNull => Throw
  | _ =>
      let steps :=
        match Js.getOpt (Some agentResponse) "steps" with
        | Some (JArr steps) => steps
        | _ => []
        end in
      match mergeSteps steps defaultReview with
      | (result, Throw) => Ret (JObj result)
      | (result, Ret _) =>
          let result :=
            if Js.isStr (Js.lookup "risk_level" result) "unknown"
            then fallback agentResponse result
            else result in
          Ret (JObj (normalizeResult result))
      end
  end.

(** A reaction the prompt can be written for: [r.agent_mode.toUpperCase()]
    needs a string, [(r.reason_codes || []).join(', ')] an array or a falsy
    value.  The prompt text itself is not modelled. *)
Definition promptable (r : json) : bool :=
  match Js.get r "agent_mode" with
  | Ret (Some (JStr _)) =>
      let codes := Js.getOpt (Some r) "reason_codes" in
      negb (Js.truthyOpt codes) || Js.isArray codes
  | _ => false
  end.

(** [callReviewerAgent]: the number of requests sent to the reviewer
    agent, and the outcome. *)
Definition callReviewerAgent (agent : httpResult) (stage1 : list json)
  : nat * completion json :=
  if forallb promptable stage1
  then (1, Http.converse agent)
  else (0, Throw).

(** [getReview({ set_id, line_text, stage1 })] with [stage1] an array. *)
Definition getReview (agent : httpResult) (stage1 : list json)
  : nat * completion json :=
  if (List.length stage1 <? 2)%nat
  then (0, Ret insufficientReview)
  else
    let (calls, response) := callReviewerAgent agent stage1 in
    (calls, bind response parseReviewerResponse).

End WithRuntime.

End Reviewer.

(* ================================================================== *)
(** ** lib/elasticsearch.js *)

Module Elasticsearch.

(** The three searches the module sends, by what distinguishes them.
    [must_not] is the [set_id] of the [must_not] term when the query has
    one; the [size] of a similarity search is the [limit] it was given. *)
Inductive esQuery : Type :=
| CompositeSetIds (size : nat)
| SimilarSemantic (text : string) (size : Z) (must_not : option string)
| SimilarMoreLikeThis (text : string) (size : Z) (must_not : option string).

(** The document store, as the answers it gives. *)
Definition store : Type := esQuery -> httpResult.

(** [esRequest(method, path, body)] for a method other than HEAD: the pair
    [{ status, data }], or an exception when the request failed with
    anything but a 404. *)
Definition esRequest (r : httpResult) : completion (nat * json) :=
  match r with
  | NetworkError => Throw
  | HttpResponse status body =>
      let data :=
        match body with
        | EmptyBody => JNull
        | TextBody raw => JObj [("raw", JStr raw)]
        | JsonBody data => data
        end in
      if negb (Http.ok status) && negb (status =? 404)%nat then Throw
      else Ret (status, data)
  end.

(** A stage 2 record as the analysis builds it. *)
Record concept : Type := {
  concept_id : string;
  parent_feedback_id : string;
  concept_set_id : string;
  angle_name : option json;
  explanation : option json;
  exploration_direction : option json
}.

Definition isNull (v : json) : bool :=
  match v with
  | JNull => true
  | _ => false
  end.

(** The end of [storeDocsToES], once the bulk response is decoded: the
    reads of [result.errors] and [result.items] that may raise. *)
Definition bulkAccepted (result : json) : completion unit :=
  errors <- Js.get result "errors" ;;
  let items := Js.getOpt (Some result) "items" in
  if Js.truthyOpt errors
  then match items with
       | Some (JArr entries) => if existsb isNull entries then Throw else Ret tt
       | _ => Throw
       end
  else match items with
       | None | Some JNull => Throw
       | _ => Ret tt
       end.

(** The bulk request went through: a 2xx response whose body decodes and
    reads well. *)
Definition bulkSucceeds (bulk : httpResult) : bool :=
  match bulk with
  | HttpResponse status (JsonBody result) =>
      Http.ok status &&
      match bulkAccepted result with
      | Ret _ => true
      | Throw => false
      end
  | _ => false
  end.

(** [storeDocsToES({ ..., stage1, stage2, stage3 })]: whether a bulk request
    was sent, and the outcome.  With nothing to store the function returns
    before any request. *)
Definition storeDocsToES (bulk : httpResult)
           (stage1 : list json) (stage2 : list concept) (stage3 : option json)
  : bool * completion unit :=
  if existsb isNull stage1 then (false, Throw)
  else
    let docs := (List.length stage1 + List.length stage2 +
                 (if Js.truthyOpt stage3 then 1 else 0))%nat in
    if (docs =? 0)%nat then (false, Ret tt)
    else (true,
          match bulk with
          | NetworkError => Throw
          | HttpResponse status body =>
              if Http.ok status
              then result <- Http.json_of body ;; bulkAccepted result
              else Throw
          end).

(** [v?.[0]] *)
Definition first (v : option json) : option json :=
  match v with
  | Some (JArr (x :: _)) => Some x
  | Some (JStr (String c _)) => Some (JStr (String c EmptyString))
  | Some (JObj fields) => Js.lookup "0" fields
  | _ => None
  end.

(** [bucket.sample?.hits?.hits?.[0]] on a bucket that is not [null]. *)
Definition topHit (bucket : json) : option json :=
  first (Js.getOpt (Js.getOpt (Js.getOpt (Some bucket) "sample") "hits") "hits").

(** The buckets of the aggregation [name] in a response, when they form an
    array. *)
Definition bucketsOf (name : string) (data : json) : list json :=
  match Js.getOpt (Js.getOpt (Js.getOpt (Some data) "aggregations") name) "buckets" with
  | Some (JArr buckets) => buckets
  | _ => []
  end.

(** [arr.slice(start, stop)] *)
Definition clamp (len i : Z) : Z :=
  if (i <? 0)%Z then Z.max (len + i) 0 else Z.min i len.

Definition slice {A} (start stop : Z) (l : list A) : list A :=
  let len := Z.of_nat (List.length l) in
  let k := clamp len start in
  let e := clamp len stop in
  firstn (Z.to_nat (e - k)) (skipn (Z.to_nat k) l).

(** The items [fetchHistory(limit, k * limit)] returns out of [l]: the page
    of index [k] when pages hold [limit] entries. *)
Definition page {A} (limit : nat) (l : list A) (k : nat) : list A :=
  slice (Z.of_nat (k * limit)) (Z.of_nat (k * limit) + Z.of_nat limit) l.

(** One entry of the history. *)
Record historyItem : Type := {
  h_set_id : option json;
  h_line_text : json;
  h_created_at : json
}.

(** The callback of [buckets.map] in [fetchHistory]. *)
Definition historyItemOf (bucket : json) : completion historyItem :=
  _ <- Js.get bucket "sample" ;;
  let source := Js.getOpt (topHit bucket) "_source" in
  let hit := if Js.truthyOpt source then source else Some (JObj []) in
  key <- Js.get bucket "key" ;;
  match key with
  | None | Some JNull => Throw
  | Some key =>
      Ret {| h_set_id := Js.getOpt (Some key) "set_id";
             h_line_text :=
               match Js.getOpt hit "line_text" with
               | Some v => if Js.truthy v then v else JStr "Unknown"
               | None => JStr "Unknown"
               end;
             h_created_at :=
               match Js.getOpt hit "created_at" with
               | Some v => if Js.truthy v then v else JNull
               | None => JNull
               end |}
  end.

(** [arr.map(f)] for a callback that may raise. *)
Fixpoint mapM {A B} (f : A -> completion B) (l : list A) : completion (list B) :=
  match l with
  | [] => Ret []
  | x :: l' => y <- f x ;; ys <- mapM f l' ;; Ret (y :: ys)
  end.

Section WithRuntime.
Context {R : JsRuntime}.

(** The comparator [(a, b) => new Date(b.created_at) - new Date(a.created_at)];
    [None] is NaN. *)
Definition byRecency (a b : historyItem) : option Z :=
  match Date_getTime (h_created_at b), Date_getTime (h_created_at a) with
  | Some tb, Some ta => Some (tb - ta)%Z
  | _, _ => None
  end.

(** [a] may stay in front of [b]: the comparator is not positive (a NaN
    counts as zero). *)
Definition staysBefore (a b : historyItem) : bool :=
  match byRecency a b with
  | Some d => (d <=? 0)%Z
  | None => true
  end.

(** [arr.sort(byRecency)].  The sort is stable: when the comparator is
    consistent, which it is when every date is valid, the result is the
    arrangement below.  With an invalid date the engine's arrangement is
    implementation-defined and this definition says nothing about it. *)
Fixpoint insertByRecency (x : historyItem) (l : list historyItem) : list historyItem :=
  match l with
  | [] => [x]
  | y :: l' => if staysBefore x y then x :: l else y :: insertByRecency x l'
  end.

Fixpoint sortByRecency (l : list historyItem) : list historyItem :=
  match l with
  | [] => []
  | x :: l' => insertByRecency x (sortByRecency l')
  end.

(** [allItems] of [fetchHistory]: [None] is the early return taken when
    the response carries no buckets. *)
Definition allItems (data : json) : completion (option (list historyItem)) :=
  aggs <- Js.get data "aggregations" ;;
  let buckets := Js.getOpt (Js.getOpt aggs "unique_sets") "buckets" in
  if Js.truthyOpt buckets
  then match buckets with
       | Some (JArr buckets) =>
           items <- mapM historyItemOf buckets ;; Ret (Some (sortByRecency items))
       | _ => Throw
       end
  else Ret None.

(** [fetchHistory(limit, offset)]: the pair [{ items, total }]. *)
Definition fetchHistory (es : store) (limit offset : Z)
  : completion (list historyItem * nat) :=
  response <- esRequest (es (CompositeSetIds 1000)) ;;
  all <- allItems (snd response) ;;
  match all with
  | None => Ret ([], 0%nat)
  | Some all => Ret (slice offset (offset + limit) all, List.length all)
  end.

(** The entry has a valid date, and the instant of that date. *)
Definition validDate (item : historyItem) : Prop :=
  Date_getTime (h_created_at item) <> None.

Definition timeOf (item : historyItem) : Z :=
  match Date_getTime (h_created_at item) with
  | Some t => t
  | None => 0%Z
  end.

(** [a] is at least as recent as [b]. *)
Definition newerFirst (a b : historyItem) : Prop := (timeOf b <= timeOf a)%Z.

End WithRuntime.

(** One entry of a similarity answer; the metrics that vary between the two
    searches are kept as the list of fields they contribute. *)
Record similarJoke : Type := {
  s_set_id : option json;
  s_line_text : json;
  s_score : option json;
  s_metrics : list (string * option json)
}.

Definition lineTextOf (hit : option json) : json :=
  match Js.getOpt (Js.getOpt hit "_source") "line_text" with
  | Some v => if Js.truthy v then v else JStr "Unknown"
  | None => JStr "Unknown"
  end.

(** The callback of [buckets.map] in [findSimilarJokes]. *)
Definition semanticJokeOf (bucket : json) : completion similarJoke :=
  _ <- Js.get bucket "sample" ;;
  let hit := topHit bucket in
  let source := Js.getOpt hit "_source" in
  Ret {| s_set_id := Js.getOpt (Some bucket) "key";
         s_line_text := lineTextOf hit;
         s_score :=
           match Js.getOpt (Js.getOpt (Some bucket) "max_score") "value" with
           | Some v => Some (if Js.truthy v then v else JNum 0)
           | None => Some (JNum 0)
           end;
         s_metrics :=
           [ ("divergence_score", Js.getOpt source "divergence_score");
             ("risk_level", Js.getOpt source "risk_level");
             ("crowd_energy", Js.getOpt source "crowd_energy");
             ("created_at", Js.getOpt source "created_at") ] |}.

(** The callback of [buckets.map] in [findSimilarJokesFallback]. *)
Definition lexicalJokeOf (bucket : json) : completion similarJoke :=
  _ <- Js.get bucket "sample" ;;
  let hit := topHit bucket in
  let source := Js.getOpt hit "_source" in
  Ret {| s_set_id := Js.getOpt (Some bucket) "key";
         s_line_text := lineTextOf hit;
         s_score := Js.getOpt (Some bucket) "doc_count";
         s_metrics :=
           [ ("crowd_energy", Js.getOpt source "crowd_energy");
             ("created_at", Js.getOpt source "created_at") ] |}.

(** [data.aggregations?.unique_jokes?.buckets || []], then [.map(callback)]. *)
Definition jokesOf (callback : json -> completion similarJoke) (aggs : option json)
  : completion (list similarJoke) :=
  let buckets := Js.getOpt (Js.getOpt aggs "unique_jokes") "buckets" in
  if Js.truthyOpt buckets
  then match buckets with
       | Some (JArr buckets) => mapM callback buckets
       | _ => Throw
       end
  else Ret [].

(** [excludeSetId ? [{ term: { set_id: excludeSetId } }] : []] *)
Definition mustNot (excludeSetId : option string) : option string :=
  match excludeSetId with
  | Some x => if String.eqb x "" then None else Some x
  | None => None
  end.

(** [findSimilarJokesFallback(line_text, limit, excludeSetId)] *)
Definition findSimilarJokesFallback (es : store) (line_text : string) (limit : Z)
           (excludeSetId : option string) : completion (list similarJoke) :=
  response <- esRequest (es (SimilarMoreLikeThis line_text limit (mustNot excludeSetId))) ;;
  aggs <- Js.get (snd response) "aggregations" ;;
  jokesOf lexicalJokeOf aggs.

(** [findSimilarJokes(line_text, limit, excludeSetId)]: the whole body is a
    [try] whose [catch] goes to the fallback, as does a response without
    status 200 or without aggregations.  The store being a function, a
    fallback that raised inside the [try] raises again when the [catch]
    calls it. *)
Definition findSimilarJokes (es : store) (line_text : string) (limit : Z)
           (excludeSetId : option string) : completion (list similarJoke) :=
  let fallback := findSimilarJokesFallback es line_text limit excludeSetId in
  match esRequest (es (SimilarSemantic line_text limit (mustNot excludeSetId))) with
  | Throw => fallback
  | Ret (status, data) =>
      if negb (status =? 200)%nat then fallback
      else match Js.get data "aggregations" with
           | Throw => fallback
           | Ret aggs =>
               if negb (Js.truthyOpt aggs) then fallback
               else tryCatch (jokesOf semanticJokeOf aggs) fallback
           end
  end.

(** *** What the module relies on from the store *)

Definition mustNotOf (q : esQuery) : option string :=
  match q with
  | CompositeSetIds _ => None
  | SimilarSemantic _ _ must_not => must_not
  | SimilarMoreLikeThis _ _ must_not => must_not
  end.

(** A store honours [must_not]: no bucket of its answer to a similarity
    search has the excluded [set_id] for key. *)
Definition honoursMustNot (es : store) : Prop :=
  forall (q : esQuery) (x : string) (status : nat) (data : json),
    mustNotOf q = Some x ->
    esRequest (es q) = Ret (status, data) ->
    Forall (fun bucket => Js.getOpt (Some bucket) "key" <> Some (JStr x))
           (bucketsOf "unique_jokes" data).

(** A store honours the [size] of a composite aggregation: it answers with
    at most that many buckets. *)
Definition honoursCompositeSize (es : store) : Prop :=
  forall (size status : nat) (data : json),
    esRequest (es (CompositeSetIds size)) = Ret (status, data) ->
    List.length (bucketsOf "unique_sets" data) <= size.

End Elasticsearch.

(* ================================================================== *)
(** ** server/index.js: POST /api/analyze *)

Module Server.
Import JsString Elasticsearch.

Definition perspectives : list string :=
  [ "Literal"; "Inferred"; "Ambiguity Spotter"; "The Skeptic"; "The Fan";
    "The Surrealist" ].

(** [role.toLowerCase().replace(/ /g, '_')] *)
Definition roleId (role : string) : string := underscoreSpaces (toLowerCase role).

Inductive errorMessage : Type :=
| ReviewFailed      (* 'Review generation failed, but perspectives are available.' *)
| Caught.           (* [error.message || 'Analysis failed'] of the outer catch *)

(** The server-sent events, by tag and payload. *)
Inductive event : Type :=
| EStart (set_id line_id : string)
| EProgress (message : string)
| EResultStage1 (stage1 : list json) (stage2 : list concept)
| EResultStage3 (stage3 : json)
| EError (message : errorMessage)
| EPing (timestamp : N)
| EDone (set_id : string).

Definition isDone (e : event) : bool :=
  match e with
  | EDone _ => true
  | _ => false
  end.

(** What the handler did with the response object: a 400 answer, or the
    event stream it wrote before [res.end()]. *)
Inductive response : Type :=
| BadRequest
| Stream (events : list event).

(** The variables the workers share, and the events written so far. *)
Record session : Type := {
  stage1Results : list json;
  stage2Results : list concept;
  completedCount : nat;
  sent : list event
}.

Definition sendEvent (e : event) (st : session) : session :=
  {| stage1Results := stage1Results st;
     stage2Results := stage2Results st;
     completedCount := completedCount st;
     sent := sent st ++ [e] |}.

(** The heartbeats the interval timer wrote while the handler was waiting. *)
Definition heartbeats (timestamps : list N) (st : session) : session :=
  {| stage1Results := stage1Results st;
     stage2Results := stage2Results st;
     completedCount := completedCount st;
     sent := sent st ++ map EPing timestamps |}.

(** *** The handler, as a computation over the session that may raise *)

Definition M (A : Type) : Type := session -> session * completion A.

Definition unit_ {A} (v : A) : M A := fun st => (st, Ret v).
Definition raise {A} : M A := fun st => (st, Throw).
Definition lift {A} (c : completion A) : M A := fun st => (st, c).
Definition update (f : session -> session) : M unit := fun st => (f st, Ret tt).
Definition emit (e : event) : M unit := update (sendEvent e).

Definition andThen {A B} (m : M A) (k : A -> M B) : M B :=
  fun st =>
    match m st with
    | (st', Ret v) => k v st'
    | (st', Throw) => (st', Throw)
    end.

(** [try { m } catch { h }]: the handler starts from the session as
    the exception left it. *)
Definition attempt {A} (m : M A) (h : M A) : M A :=
  fun st =>
    match m st with
    | (st', Throw) => h st'
    | done => done
    end.

Notation "x <~ m ;; k" := (andThen m (fun x => k))
  (at level 61, m at next level, right associativity).
Notation "m ;;; k" := (andThen m (fun _ => k))
  (at level 61, right associativity).

(** Three ways to describe a computation, used to state facts about the
    handler: it leaves an observation [f] of the session unchanged; it never
    raises; the [done] events a session has sent. *)
Definition frames {A X} (f : session -> X) (m : M A) : Prop :=
  forall st, f (fst (m st)) = f st.

Definition total {A} (m : M A) : Prop :=
  forall st, exists v, snd (m st) = Ret v.

Definition doneEvents (st : session) : list event := filter isDone (sent st).

Section WithRuntime.
Context {R : JsRuntime}.

(** The test [if (parsed.feedback_text || parsed.relatability) return parsed]. *)
Definition expected (parsed : json) : completion (option json) :=
  feedback_text <- Js.get parsed "feedback_text" ;;
  relatability <- Js.get parsed "relatability" ;;
  if Js.truthyOpt (Js.orElse feedback_text relatability)
  then Ret (Some parsed) else Ret None.

(** [parseCandidate(text)].  On a value that is not a string,
    [text.replace] and then [text.match] raise a TypeError, each inside
    its own [try]. *)
Definition parseCandidate (text : json) : completion (option json) :=
  tryCatch
    (match text with
     | JStr t => parsed <- ofParse (JSON_parse (stripFences t)) ;; expected parsed
     | _ => Throw
     end)
    (tryCatch
       (match text with
        | JStr t =>
            match matchBraces t with
            | Some span =>
                parsed <- ofParse (JSON_parse span) ;; expected parsed
            | None => Ret None
            end
        | _ => Throw
        end)
       (Ret None)).

(** [if (!result && v) result = parseCandidate(v)] for one of the
    top-level or nested fields. *)
Definition tryField (result : option json) (v : option json)
  : completion (option json) :=
  if negb (Js.truthyOpt result) && Js.truthyOpt v
  then match v with
       | Some v => parseCandidate v
       | None => Ret result
       end
  else Ret result.

(** The loop of strategy 3 over [agentResponse.steps]; [result] is falsy
    on entry and is overwritten by each attempt. *)
Fixpoint searchSteps (steps : list json) (result : option json)
  : completion (option json) :=
  match steps with
  | [] => Ret result
  | step :: rest =>
      ty <- Js.get step "type" ;;
      let content := Js.getOpt (Some step) "content" in
      if Js.isStr ty "message_creation" && Js.truthyOpt content
      then result <- parseCandidate (match content with Some c => c | None => JNull end) ;;
           if Js.truthyOpt result then Ret result else searchSteps rest result
      else searchSteps rest result
  end.

(** The strategy chain of [analyzePerspective], lines 155-184: from the
    decoded answer of the agent to [result]. *)
Definition strategyChain (agentResponse : json) : completion (option json) :=
  (* Strategy 1: top level fields *)
  output <- Js.get agentResponse "output" ;;
  result <- tryField None output ;;
  result <- tryField result (Js.getOpt (Some agentResponse) "message") ;;
  (* Strategy 2: nested response object *)
  let nested := Js.getOpt (Some agentResponse) "response" in
  result <- tryField result (Js.getOpt nested "message") ;;
  result <- tryField result (Js.getOpt nested "output") ;;
  (* Strategy 3: search in steps *)
  result <-
    (if negb (Js.truthyOpt result)
     then searchSteps (Js.stepsOf agentResponse) result
     else Ret result) ;;
  (* Strategy 4: the whole response as a string *)
  result <-
    (if negb (Js.truthyOpt result)
     then parseCandidate (JStr (JSON_stringify agentResponse))
     else Ret result) ;;
  (* Final cleanup *)
  match result with
  | Some (JStr s) =>
      if Js.truthy (JStr s)
      then reParsed <- parseCandidate (JStr s) ;;
           if Js.truthyOpt reParsed then Ret reParsed else Ret result
      else Ret result
  | _ => Ret result
  end.

(** Notions used to state what the extraction returns. *)









(** What the environment decides for one [callAgentBuilderConverse]:
    the answer, how long it took, the value of [Date.now()] when the
    worker resumes, and the heartbeats written while it was awaited. *)
Record reply : Type := {
  r_http : httpResult;
  r_latency : nat;
  r_now : N;
  r_pings : list N
}.

(** Everything the handler obtains from outside during one request. *)
Record world : Type := {
  w_set_id : string;                 (* uuidv4() *)
  w_converse : string -> reply;      (* the listening agent, by role *)
  w_bulk1 : httpResult;              (* the bulk request after stage 1 *)
  w_bulk1_pings : list N;
  w_reviewerEnabled : bool;          (* the module variable set at start-up *)
  w_reviewer : httpResult;           (* the reviewer agent *)
  w_reviewer_pings : list N;
  w_bulk2 : httpResult;              (* the bulk request after stage 3 *)
  w_bulk2_pings : list N
}.

Definition pushStage1 (record : json) (st : session) : session :=
  {| stage1Results := stage1Results st ++ [record];
     stage2Results := stage2Results st;
     completedCount := completedCount st;
     sent := sent st |}.

Definition pushStage2 (c : concept) (st : session) : session :=
  {| stage1Results := stage1Results st;
     stage2Results := stage2Results st ++ [c];
     completedCount := completedCount st;
     sent := sent st |}.

Definition countCompleted (st : session) : session :=
  {| stage1Results := stage1Results st;
     stage2Results := stage2Results st;
     completedCount := S (completedCount st);
     sent := sent st |}.

Definition feedbackIdOf (role : string) (now : N) : string :=
  "f_" ++ roleId role ++ "_" ++ ofTime now.

Definition conceptIdOf (feedbackId : string) (idx : nat) : string :=
  "c_" ++ feedbackId ++ "_" ++ ofNat idx.

(** The object literal pushed for the concept at index [idx]; reading a
    field of a [null] concept raises. *)
Definition conceptOf (set_id feedbackId : string) (idx : nat) (c : json)
  : completion concept :=
  angle <- Js.get c "angle_name" ;;
  Ret {| concept_id := conceptIdOf feedbackId idx;
         parent_feedback_id := feedbackId;
         concept_set_id := set_id;
         angle_name := angle;
         explanation := Js.getOpt (Some c) "explanation";
         exploration_direction := Js.getOpt (Some c) "exploration_direction" |}.

(** The callback of [result.concepts.forEach], from index [idx] on. *)
Fixpoint pushConcepts (set_id feedbackId : string) (idx : nat) (concepts : list json)
  : M unit :=
  match concepts with
  | [] => unit_ tt
  | c :: rest =>
      secondary <~ lift (conceptOf set_id feedbackId idx c) ;;
      update (pushStage2 secondary) ;;;
      pushConcepts set_id feedbackId (S idx) rest
  end.

(** [result.concepts] when it is an array, nothing otherwise. *)
Definition conceptsOf (record : list (string * json)) : list json :=
  match Js.lookup "concepts" record with
  | Some (JArr concepts) => concepts
  | _ => []
  end.


(** The record a worker stores: the extracted fields with [feedback_id]
    and [agent_mode] assigned. *)
Definition tagged (role : string) (now : N) (fields : list (string * json))
  : list (string * json) :=
  Js.set "agent_mode" (JStr (roleId role))
         (Js.set "feedback_id" (JStr (feedbackIdOf role now)) fields).

(** The [if (result) { ... }] block of a worker.  A truthy [result] is
    an object (lemma [strategyChain_object]); on any other truthy value
    the first assignment would raise, the module being in strict mode. *)
Definition accept (set_id role : string) (now : N) (result : option json) : M unit :=
  if Js.truthyOpt result
  then match result with
       | Some (JObj fields) =>
           let record := tagged role now fields in
           update (pushStage1 (JObj record)) ;;;
           pushConcepts set_id (feedbackIdOf role now) 0 (conceptsOf record) ;;;
           update countCompleted ;;;
           (fun st =>
              emit (EResultStage1 (stage1Results st) (stage2Results st)) st) ;;;
           (fun st =>
              emit (EProgress ("Received " ++ role ++ " perspective (" ++
                               ofNat (completedCount st) ++ "/6)...")) st)
       | _ => raise
       end
  else unit_ tt.

(** What a worker extracts from the answer to its call. *)
Definition extraction (r : reply) : completion (option json) :=
  agentResponse <- AgentBuilder.callAgentBuilderConverse (r_http r) ;;
  strategyChain agentResponse.

(** The [try] block of [analyzePerspective(role)], from the point where the
    awaited call settles. *)
Definition analyzePerspectiveTry (set_id role : string) (r : reply) : M unit :=
  result <~ lift (extraction r) ;;
  accept set_id role (r_now r) result.

(** [analyzePerspective(role)]: the [try] block and its [catch], which only
    logs. *)
Definition analyzePerspective (set_id role : string) (r : reply) : M unit :=
  attempt (analyzePerspectiveTry set_id role r) (unit_ tt).

(** A worker fails when its call raises or when nothing is extracted from
    the answer. *)
Definition workerFails (r : reply) : bool :=
  match extraction r with
  | Ret result => negb (Js.truthyOpt result)
  | Throw => true
  end.

(** The record a worker that does not fail adds to [stage1Results]. *)
Definition primaryOf (role : string) (r : reply) : list json :=
  match extraction r with
  | Ret (Some (JObj fields)) => [JObj (tagged role (r_now r) fields)]
  | _ => []
  end.

(** The order in which the six calls settle: by latency, calls of equal
    latency in the order they were launched. *)
Fixpoint insertByLatency (latency : string -> nat) (x : string) (l : list string)
  : list string :=
  match l with
  | [] => [x]
  | y :: l' =>
      if (latency x <=? latency y)%nat then x :: l
      else y :: insertByLatency latency x l'
  end.

Fixpoint sortByLatency (latency : string -> nat) (l : list string) : list string :=
  match l with
  | [] => []
  | x :: l' => insertByLatency latency x (sortByLatency latency l')
  end.

Definition completionOrder (w : world) : list string :=
  sortByLatency (fun role => r_latency (w_converse w role)) perspectives.

(** The workers resume one after the other, each running to its end: the
    code after the [await] of a worker has no further suspension point. *)
Fixpoint settle (w : world) (roles : list string) : M unit :=
  match roles with
  | [] => unit_ tt
  | role :: rest =>
      update (heartbeats (r_pings (w_converse w role))) ;;;
      analyzePerspective (w_set_id w) role (w_converse w role) ;;;
      settle w rest
  end.

(** [await Promise.all(perspectives.map(p => analyzePerspective(p)))] *)
Definition fanOut (w : world) : M unit := settle w (completionOrder w).

(** [await storeDocsToES(...)]: heartbeats can only be written when a
    request was really awaited. *)
Definition awaitStore (bulk : httpResult) (pings : list N)
           (stage1 : list json) (stage2 : list concept) (stage3 : option json)
  : M unit :=
  let (requested, outcome) := storeDocsToES bulk stage1 stage2 stage3 in
  (if requested then update (heartbeats pings) else unit_ tt) ;;;
  lift outcome.

(** The [try] block nested in stage 3. *)
Definition review (w : world) : M unit :=
  fun st =>
    (let (calls, outcome) := Reviewer.getReview (w_reviewer w) (stage1Results st) in
     (if (0 <? calls)%nat then update (heartbeats (w_reviewer_pings w)) else unit_ tt) ;;;
     stage3 <~ lift outcome ;;
     awaitStore (w_bulk2 w) (w_bulk2_pings w) [] [] (Some stage3) ;;;
     emit (EResultStage3 stage3)) st.

Definition idle : session :=
  {| stage1Results := []; stage2Results := []; completedCount := 0; sent := [] |}.

(** The stage 3 block of the handler, guard included: the review and its
    own [catch]. *)
Definition synthesis (w : world) : M unit :=
  fun st =>
    (if w_reviewerEnabled w && (0 <? List.length (stage1Results st))%nat
     then emit (EProgress "Synthesizing reviews...") ;;;
          attempt (review w) (emit (EError ReviewFailed))
     else unit_ tt) st.

(** [await storeDocsToES({ ..., stage1: stage1Results, stage2: stage2Results,
    stage3: null })] *)
Definition persist (w : world) : M unit :=
  fun st => awaitStore (w_bulk1 w) (w_bulk1_pings w)
                  (stage1Results st) (stage2Results st) None st.

(** The outer [try] block of the handler. *)
Definition analyzeTry (w : world) : M unit :=
  emit (EStart (w_set_id w) "l1") ;;;
  emit (EProgress "Consulting the council of comedy (6 perspectives)...") ;;;
  fanOut w ;;;
  persist w ;;;
  synthesis w ;;;
  emit (EDone (w_set_id w)).

(** The number of workers that fail, among the six. *)
Definition failures (w : world) : nat :=
  List.length (filter (fun role => workerFails (w_converse w role)) perspectives).

(** The session when the fan-out begins. *)
Definition started (w : world) : session :=
  sendEvent (EProgress "Consulting the council of comedy (6 perspectives)...")
            (sendEvent (EStart (w_set_id w) "l1") idle).

(** A submission the handler accepts: a string that is not blank. *)
Definition accepted (text : string) : bool :=
  negb (String.eqb text "" || (String.length (trim text) =? 0)%nat).

(** The handler of POST /api/analyze: validation, then the [try], its
    [catch], and the [finally] that ends the response. *)
Definition analyze (w : world) (line_text : option json) : response :=
  match line_text with
  | Some (JStr text) =>
      if String.eqb text "" || (String.length (trim text) =? 0)%nat
      then BadRequest
      else Stream (sent (fst (attempt (analyzeTry w) (emit (EError Caught)) idle)))
  | _ => BadRequest
  end.

End WithRuntime.

End Server.

(* ================================================================== *)
(** ** Concrete inputs for the examples *)

Module Demo.
Import JsString Elasticsearch Server.

(** [s] between double quotes. *)
Definition quoted (s : string) : string :=
  String "034"%char (s ++ String "034"%char EmptyString).

(** The text [{"feedback_text":"ha","agent_mode":"critic","concepts":[{"angle_name":"pun"}]}]
    and the value it denotes. *)
Definition reactionText : string :=
  "{" ++ quoted "feedback_text" ++ ":" ++ quoted "ha" ++ "," ++
  quoted "agent_mode" ++ ":" ++ quoted "critic" ++ "," ++
  quoted "concepts" ++ ":[{" ++ quoted "angle_name" ++ ":" ++ quoted "pun" ++ "}]}".

Definition reaction : json :=
  JObj [ ("feedback_text", JStr "ha");
         ("agent_mode", JStr "critic");
         ("concepts", JArr [JObj [("angle_name", JStr "pun")]]) ].

(** The instants of five ISO dates, in milliseconds. *)
Definition instants : list (string * Z) :=
  [ ("2026-01-01T00:00:00.000Z", 1767225600000%Z);
    ("2026-01-02T00:00:00.000Z", 1767312000000%Z);
    ("2026-01-03T00:00:00.000Z", 1767398400000%Z);
    ("2026-01-04T00:00:00.000Z", 1767484800000%Z);
    ("2026-01-05T00:00:00.000Z", 1767571200000%Z) ].

Fixpoint instantOf (s : string) (table : list (string * Z)) : option Z :=
  match table with
  | [] => None
  | (k, t) :: rest => if String.eqb s k then Some t else instantOf s rest
  end.

(** The value [{"output":"I would rather not say."}] and its text. *)
Definition prose : json := JObj [("output", JStr "I would rather not say.")].

Definition proseText : string :=
  "{" ++ quoted "output" ++ ":" ++ quoted "I would rather not say." ++ "}".

(** A runtime that knows what the examples need: the two JSON texts above,
    and the five dates.  Every other text is taken not to be JSON, which
    is right for the texts the examples submit; [JSON_stringify] is only
    reached on [prose]. *)
Definition runtime : JsRuntime :=
  {| JSON_parse := fun s =>
       if String.eqb s reactionText then Some reaction
       else if String.eqb s proseText then Some prose
       else None;
     JSON_stringify := fun v =>
       match v with
       | JObj [("output", JStr "I would rather not say.")] => proseText
       | _ => EmptyString
       end;
     Date_getTime := fun v =>
       match v with
       | JNull => Some 0%Z
       | JNum n => Some n
       | JStr s => instantOf s instants
       | _ => None
       end |}.

(** An answer of the listening agent that carries the reaction in its
    [output] field, fenced as a code block. *)
Definition goodAnswer : httpResult :=
  HttpResponse 200
    (JsonBody (JObj [("output", JStr ("```json" ++ String "010"%char reactionText ++
                                      String "010"%char "```"))])).

(** An answer whose text is prose. *)
Definition proseAnswer : httpResult := HttpResponse 200 (JsonBody prose).

(** The body [null]. *)
Definition nullAnswer : httpResult := HttpResponse 200 (JsonBody JNull).

Definition bulkOk : httpResult :=
  HttpResponse 200 (JsonBody (JObj [("errors", JBool false); ("items", JArr [])])).

Definition reply_of (answer : httpResult) (latency : nat) : reply :=
  {| r_http := answer; r_latency := latency;
     r_now := (1700000000000 + N.of_nat latency)%N;
     r_pings := [] |}.

(** A request in which "The Skeptic" gets a 500 and answers first, "The
    Fan" gets prose, and the four other roles succeed. *)
Definition converse (role : string) : reply :=
  if String.eqb role "The Skeptic" then reply_of (HttpResponse 500 EmptyBody) 10
  else if String.eqb role "The Fan" then reply_of proseAnswer 20
  else if String.eqb role "Literal" then reply_of goodAnswer 50
  else if String.eqb role "Inferred" then reply_of goodAnswer 40
  else reply_of goodAnswer 30.

Definition world_with (bulk1 : httpResult) : world :=
  {| w_set_id := "set-1";
     w_converse := converse;
     w_bulk1 := bulk1;
     w_bulk1_pings := [1700000015000%N];
     w_reviewerEnabled := true;
     w_reviewer := proseAnswer;
     w_reviewer_pings := [];
     w_bulk2 := bulkOk;
     w_bulk2_pings := [] |}.

Definition line : option json :=
  Some (JStr "My favorite party trick is not attending parties.").

(** Five analyses, as the store holds them. *)
Definition analyses : list (string * string * string) :=
  [ ("set-a", "Line A", "2026-01-03T00:00:00.000Z");
    ("set-b", "Line B", "2026-01-05T00:00:00.000Z");
    ("set-c", "Line C", "2026-01-01T00:00:00.000Z");
    ("set-d", "Line D", "2026-01-04T00:00:00.000Z");
    ("set-e", "Line E", "2026-01-02T00:00:00.000Z") ].

Definition sampleOf (line created : string) : json :=
  JObj [("hits", JObj [("hits", JArr [JObj [("_source",
          JObj [("line_text", JStr line); ("created_at", JStr created)])]])])].

(** A bucket of the composite aggregation: the key is an object. *)
Definition compositeBucket (a : string * string * string) : json :=
  let '(set_id, line, created) := a in
  JObj [("key", JObj [("set_id", JStr set_id)]); ("doc_count", JNum 6);
        ("sample", sampleOf line created)].

(** A bucket of the terms aggregation: the key is the [set_id] itself. *)
Definition termsBucket (a : string * string * string) : json :=
  let '(set_id, line, created) := a in
  JObj [("key", JStr set_id); ("doc_count", JNum 6);
        ("sample", sampleOf line created);
        ("max_score", JObj [("value", JNum 12)])].

Definition kept (must_not : option string) (a : string * string * string) : bool :=
  match must_not with
  | Some x => negb (String.eqb (fst (fst a)) x)
  | None => true
  end.

Definition aggregation (name : string) (buckets : list json) : httpResult :=
  HttpResponse 200
    (JsonBody (JObj [("aggregations", JObj [(name, JObj [("buckets", JArr buckets)])])])).

(** A store in which the five analyses all match every similarity search.
    [semantic] tells whether the inference endpoint is available; without
    it the semantic search is answered by a 400. *)
Definition es (semantic : bool) : store :=
  fun q =>
    match q with
    | CompositeSetIds size =>
        aggregation "unique_sets" (firstn size (map compositeBucket analyses))
    | SimilarSemantic _ size must_not =>
        if semantic
        then aggregation "unique_jokes"
               (firstn (Z.to_nat size) (map termsBucket (filter (kept must_not) analyses)))
        else HttpResponse 400 (JsonBody (JObj [("error", JStr "unknown inference_id")]))
    | SimilarMoreLikeThis _ size must_not =>
        aggregation "unique_jokes"
          (firstn (Z.to_nat size) (map termsBucket (filter (kept must_not) analyses)))
    end.

(** What the store answers to the history aggregation, and the listing
    [fetchHistory] makes of it: most recent first. *)
Definition historyData : json :=
  JObj [("aggregations",
         JObj [("unique_sets", JObj [("buckets", JArr (map compositeBucket analyses))])])].

Definition entry (a : string * string * string) : historyItem :=
  let '(set_id, line, created) := a in
  {| h_set_id := Some (JStr set_id); h_line_text := JStr line;
     h_created_at := JStr created |}.

Definition history : list historyItem :=
  map entry
    [ ("set-b", "Line B", "2026-01-05T00:00:00.000Z");
      ("set-d", "Line D", "2026-01-04T00:00:00.000Z");
      ("set-a", "Line A", "2026-01-03T00:00:00.000Z");
      ("set-e", "Line E", "2026-01-02T00:00:00.000Z");
      ("set-c", "Line C", "2026-01-01T00:00:00.000Z") ].

End Demo.

(* ================================================================== *)
(** ** What a reader of the event stream observes *)

Module Stream.
Import JsString Elasticsearch Server.

Definition isStage1 (e : event) : bool :=
  match e with
  | EResultStage1 _ _ => true
  | _ => false
  end.

(** The [stage1] payloads of the [result_stage1] events, in the order sent. *)
Definition stage1Payloads (events : list event) : list (list json) :=
  flat_map (fun e => match e with
                     | EResultStage1 stage1 _ => [stage1]
                     | _ => []
                     end) events.

(** [l] begins with [p]. *)
Definition startsWith {A} (p l : list A) : Prop := exists rest, l = (p ++ rest)%list.

(** [a.parent_feedback_id === feedback.feedback_id], the test by which the
    page attaches a stage 2 record to a card. *)
Definition refersTo (feedback : json) (a : concept) : bool :=
  Js.isStr (Js.getOpt (Some feedback) "feedback_id") (parent_feedback_id a).

(** Every stage 2 record is attached to some record of [stage1]. *)
Definition anchored (stage1 : list json) (stage2 : list concept) : bool :=
  forallb (fun a => existsb (fun feedback => refersTo feedback a) stage1) stage2.

(** The template literal [`f_${roleId}_`] with which a [feedback_id] begins. *)
Definition feedbackPrefix (role : string) : string := "f_" ++ roleId role ++ "_".

(** Two strings differ at a position both have. *)
Fixpoint mismatch (a b : string) : bool :=
  match a, b with
  | String c a', String d b' => if Ascii.eqb c d then mismatch a' b' else true
  | _, _ => false
  end.

(** The lists only grow; every [result_stage1] event carries them as they
    stood when it was sent; every stage 2 record is attached to a record
    that is already there. *)
Record consistent (set_id : string) (st : session) : Prop := {
  snapshots :
    Forall (fun e => match e with
                     | EResultStage1 stage1 stage2 =>
                         startsWith stage1 (stage1Results st) /\
                         startsWith stage2 (stage2Results st) /\
                         anchored stage1 stage2 = true
                     | _ => True
                     end) (sent st);
  growing :
    StronglySorted (fun a b => List.length a < List.length b) (stage1Payloads (sent st));
  bounded :
    Forall (fun p => 1 <= List.length p <= List.length (stage1Results st))
           (stage1Payloads (sent st));
  attached : anchored (stage1Results st) (stage2Results st) = true;
  owned : Forall (fun a => concept_set_id a = set_id) (stage2Results st)
}.

(** The events of one kind among those a session has sent. *)
Definition kind (p : event -> bool) (st : session) : list event := filter p (sent st).

(** The events that close the review: its result, or an [error]. *)
Definition isVerdict (e : event) : bool :=
  match e with
  | EResultStage3 _ | EError _ => true
  | _ => false
  end.

Section WithRuntime.
Context {R : JsRuntime}.

(** How the stage 3 block ends on the records [stage1]: with the review,
    when [getReview] returned it and [storeDocsToES] stored it, with the
    [error] event of its [catch] otherwise. *)
Definition verdict (w : world) (stage1 : list json) : event :=
  match snd (Reviewer.getReview (w_reviewer w) stage1) with
  | Ret stage3 =>
      match snd (storeDocsToES (w_bulk2 w) [] [] (Some stage3)) with
      | Ret _ => EResultStage3 stage3
      | Throw => EError ReviewFailed
      end
  | Throw => EError ReviewFailed
  end.

End WithRuntime.

End Stream.

(** ** More concrete inputs *)

Module Examples.
Import JsString Elasticsearch Server.

(** A request in which the listening agent cannot be reached: every call is
    rejected, the call of "Literal" after a heartbeat. *)
Definition unreachable : world :=
  {| w_set_id := "set-0";
     w_converse := fun role =>
       {| r_http := NetworkError;
          r_latency := if String.eqb role "Literal" then 90 else 20;
          r_now := 1700000016000%N;
          r_pings := if String.eqb role "Literal" then [1700000015000%N] else [] |};
     w_bulk1 := NetworkError;
     w_bulk1_pings := [];
     w_reviewerEnabled := true;
     w_reviewer := NetworkError;
     w_reviewer_pings := [];
     w_bulk2 := NetworkError;
     w_bulk2_pings := [] |}.

(** A request in which only "The Fan" gets an answer from which a record
    is extracted; [bulk2] is the answer to the second bulk request. *)
Definition lone (bulk2 : httpResult) : world :=
  {| w_set_id := "set-2";
     w_converse := fun role =>
       if String.eqb role "The Fan" then Demo.reply_of Demo.goodAnswer 30
       else Demo.reply_of (HttpResponse 502 EmptyBody) 10;
     w_bulk1 := Demo.bulkOk;
     w_bulk1_pings := [];
     w_reviewerEnabled := true;
     w_reviewer := NetworkError;
     w_reviewer_pings := [];
     w_bulk2 := bulk2;
     w_bulk2_pings := [] |}.

(** The tabulation character, as a string. *)
Definition TAB : string := String "009"%char EmptyString.


End Examples.

(** ** An answer with a [null] concept *)

Module Dropped.
Import JsString Elasticsearch Server.

(** The text
    [{"feedback_text":"ha","concepts":[{"angle_name":"pun"},null,{"angle_name":"irony"}]}]
    and the value it denotes: the second of the three concepts is [null]. *)
Definition reactionText : string :=
  "{" ++ Demo.quoted "feedback_text" ++ ":" ++ Demo.quoted "ha" ++ "," ++
  Demo.quoted "concepts" ++ ":[{" ++ Demo.quoted "angle_name" ++ ":" ++ Demo.quoted "pun" ++
  "},null,{" ++ Demo.quoted "angle_name" ++ ":" ++ Demo.quoted "irony" ++ "}]}".

Definition reaction : json :=
  JObj [ ("feedback_text", JStr "ha");
         ("concepts", JArr [ JObj [("angle_name", JStr "pun")]; JNull;
                             JObj [("angle_name", JStr "irony")] ]) ].

Definition runtime : JsRuntime :=
  {| JSON_parse := fun s => if String.eqb s reactionText then Some reaction else None;
     JSON_stringify := fun _ => EmptyString;
     Date_getTime := fun _ => None |}.

(** The answer of the listening agent that carries this reaction. *)
Definition answer : reply :=
  Demo.reply_of (HttpResponse 200 (JsonBody (JObj [("output", JStr reactionText)]))) 30.

End Dropped.

(* ================================================================== *)
(** ** An answer of the reviewer agent, for the examples *)

Module ReviewExample.
Import JsString.

(** The text
    [{"divergence_score":70,"risk_level":"high","primary_conflict":"The Fan vs. Literal"}]
    and the value it denotes. *)
Definition reviewText : string :=
  "{" ++ Demo.quoted "divergence_score" ++ ":70," ++
  Demo.quoted "risk_level" ++ ":" ++ Demo.quoted "high" ++ "," ++
  Demo.quoted "primary_conflict" ++ ":" ++ Demo.quoted "The Fan vs. Literal" ++ "}".

Definition reviewFields : list (string * json) :=
  [ ("divergence_score", JNum 70);
    ("risk_level", JStr "high");
    ("primary_conflict", JStr "The Fan vs. Literal") ].

(** A runtime that knows this text; [JSON_stringify] is not reached. *)
Definition runtime : JsRuntime :=
  {| JSON_parse := fun s =>
       if String.eqb s reviewText then Some (JObj reviewFields) else None;
     JSON_stringify := fun _ => EmptyString;
     Date_getTime := fun _ => None |}.

(** The answer that carries the text in its [output] field, fenced. *)
Definition answer : json :=
  JObj [("output", JStr ("```json" ++ String "010"%char reviewText ++
                         String "010"%char "```"))].

(** An answer of the reviewer agent whose second step is [null]. *)
Definition interrupted : json :=
  JObj [("steps", JArr [JObj [("type", JStr "reasoning")]; JNull])].

End ReviewExample.

(* ================================================================== *)
(** ** lib/elasticsearch.js: the index and its documents *)

Module Documents.
Import JsString Elasticsearch.

(** The requests the module sends to the cluster, the three searches of
    [esQuery] among them. *)
Inductive esCall : Type :=
| HeadIndex                               (* HEAD /how-it-lands *)
| PutIndex                                (* PUT /how-it-lands, the mapping as body *)
| PutMapping                              (* PUT /how-it-lands/_mapping *)
| SearchDocs (set_id line_id : string)    (* the search of [fetchDocsFromES] *)
| DeleteByQuery (set_id : string)         (* POST /how-it-lands/_delete_by_query *)
| Search (q : esQuery).

(** The cluster, as the answers it gives. *)
Definition cluster : Type := esCall -> httpResult.

Definition searches (c : cluster) : store := fun q => c (Search q).

(** [esRequest('HEAD', path)]: no body is read; the status comes back,
    unless the request failed with anything but a 404. *)
Definition esHead (r : httpResult) : completion nat :=
  match r with
  | NetworkError => Throw
  | HttpResponse status _ =>
      if negb (Http.ok status) && negb (status =? 404)%nat then Throw
      else Ret status
  end.

(** [ensureIndex()]: the requests sent, in order, and the outcome. *)
Definition ensureIndex (c : cluster) : list esCall * completion unit :=
  match esHead (c HeadIndex) with
  | Throw => ([HeadIndex], Throw)
  | Ret status =>
      let put := if (status =? 404)%nat then PutIndex else PutMapping in
      ([HeadIndex; put], _ <- esRequest (c put) ;; Ret tt)
  end.

(** A document, as the fields of its JSON text. *)
Definition document : Type := list (string * json).

(** One property of an object literal in the text [JSON.stringify] makes of
    it: a property whose value is [undefined] is left out. *)
Definition property (k : string) (v : option json) : document :=
  match v with
  | Some v => [(k, v)]
  | None => []
  end.

(** The properties every document begins with. *)
Definition common (set_id line_id line_text : string) (stage : Z) : document :=
  [ ("set_id", JStr set_id); ("line_id", JStr line_id);
    ("line_text", JStr line_text); ("stage", JNum stage) ].

(** The document [storeDocsToES] builds for an item of [stage1]; reading a
    property of a [null] item raises. *)
Definition stage1Doc (set_id line_id line_text now : string) (item : json)
  : completion document :=
  feedback_id <- Js.get item "feedback_id" ;;
  let read := Js.getOpt (Some item) in
  Ret (common set_id line_id line_text 1 ++
       property "feedback_id" feedback_id ++
       property "agent_mode" (read "agent_mode") ++
       property "feedback_text" (read "feedback_text") ++
       property "reason_codes" (Js.orElse (read "reason_codes") (Some (JArr []))) ++
       property "relatability" (read "relatability") ++
       property "laugh_potential" (read "laugh_potential") ++
       property "crowd_energy" (read "crowd_energy") ++
       property "confidence" (read "confidence") ++
       [ ("hypothesis", JBool true); ("created_at", JStr now) ])%list.

(** The document built for a stage 2 record of the analysis.  Such a record
    has none of the fields [angle_id], [path_id], [exploration_type],
    [direction] and [direction_summary] the function reads: they are
    [undefined]. *)
Definition stage2Doc (set_id line_id line_text now : string) (item : concept)
  : document :=
  (common set_id line_id line_text 2 ++
   property "angle_id" (Js.orElse None None) ++
   [ ("parent_feedback_id", JStr (parent_feedback_id item)) ] ++
   property "angle_name" (Js.orElse (angle_name item) None) ++
   property "direction" (Js.orElse None None) ++
   [ ("hypothesis", JBool true); ("created_at", JStr now) ])%list.

(** The document built for a truthy [stage3]. *)
Definition stage3Doc (set_id line_id line_text now : string) (stage3 : json)
  : document :=
  let read := Js.getOpt (Some stage3) in
  (common set_id line_id line_text 3 ++
   property "divergence_score" (read "divergence_score") ++
   property "risk_level" (read "risk_level") ++
   property "primary_conflict" (read "primary_conflict") ++
   property "conflict_summary" (read "conflict_summary") ++
   property "recommendation" (read "recommendation") ++
   [ ("hypothesis", JBool true); ("created_at", JStr now) ])%list.

(** The array [docs] of [storeDocsToES], [now] being the time stamp taken
    on entry. *)
Definition bulkDocs (set_id line_id line_text now : string)
           (stage1 : list json) (stage2 : list concept) (stage3 : option json)
  : completion (list document) :=
  docs1 <- mapM (stage1Doc set_id line_id line_text now) stage1 ;;
  Ret (docs1 ++
       map (stage2Doc set_id line_id line_text now) stage2 ++
       match stage3 with
       | Some v => if Js.truthy v then [stage3Doc set_id line_id line_text now v] else []
       | None => []
       end)%list.

(** [data.hits?.hits || []], as the array [.map] is then called on. *)
Definition hitsOf (data : json) : completion (list json) :=
  outer <- Js.get data "hits" ;;
  let hits := Js.getOpt outer "hits" in
  if Js.truthyOpt hits
  then match hits with
       | Some (JArr hits) => Ret hits
       | _ => Throw
       end
  else Ret [].

(** [{ id: hit._id, ...hit._source }] *)
Definition docOf (hit : json) : completion document :=
  _id <- Js.get hit "_id" ;;
  Ret (Reviewer.merge (property "id" _id)
         (match Js.getOpt (Some hit) "_source" with
          | Some source => source
          | None => JNull
          end)).

(** [d.stage === n] *)
Definition stageIs (n : Z) (doc : document) : bool :=
  match Js.lookup "stage" doc with
  | Some (JNum k) => (k =? n)%Z
  | _ => false
  end.

Record documents : Type := {
  d_stage1 : list document;
  d_stage2 : list document;
  d_stage3 : option document       (* [None] is [null] *)
}.

(** [fetchDocsFromES({ set_id, line_id })] *)
Definition fetchDocsFromES (c : cluster) (set_id line_id : string)
  : completion documents :=
  response <- esRequest (c (SearchDocs set_id line_id)) ;;
  hits <- hitsOf (snd response) ;;
  docs <- mapM docOf hits ;;
  Ret {| d_stage1 := filter (stageIs 1) docs;
         d_stage2 := filter (stageIs 2) docs;
         d_stage3 := hd_error (filter (stageIs 3) docs) |}.

(** [deleteBySetId(set_id)]: the value of [deleted]. *)
Definition deleteBySetId (c : cluster) (set_id : string) : completion json :=
  response <- esRequest (c (DeleteByQuery set_id)) ;;
  deleted <- Js.get (snd response) "deleted" ;;
  Ret (match deleted with
       | Some v => if Js.truthy v then v else JNum 0
       | None => JNum 0
       end).

(** *** What the cluster answers with *)

(** A hit of a search: a stored document under the identifier the cluster
    gave it. *)
Definition asHit (stored : string * document) : json :=
  JObj [ ("_index", JStr "how-it-lands"); ("_id", JStr (fst stored));
         ("_source", JObj (snd stored)) ].

(** The body of the answer to a search that found [hits]. *)
Definition found (hits : list json) : json :=
  JObj [ ("hits", JObj [ ("hits", JArr hits) ]) ].

(** What [fetchDocsFromES] makes of a stored document. *)
Definition restored (stored : string * document) : document :=
  Reviewer.merge [("id", JStr (fst stored))] (JObj (snd stored)).

(** The index does not exist: every request is answered by a 404 whose body
    is a JSON object that describes the error. *)
Definition indexMissing (c : cluster) : Prop :=
  forall call, exists error,
    c call = HttpResponse 404 (JsonBody (JObj error)) /\
    Js.lookup "hits" error = None /\
    Js.lookup "aggregations" error = None /\
    Js.lookup "deleted" error = None.

(** A store honours the [size] of a terms aggregation: it answers a
    similarity search with at most that many buckets. *)
Definition honoursTermsSize (es : store) : Prop :=
  forall (q : esQuery) (text : string) (size : Z) (must_not : option string)
         (status : nat) (data : json),
    q = SimilarSemantic text size must_not \/ q = SimilarMoreLikeThis text size must_not ->
    esRequest (es q) = Ret (status, data) ->
    List.length (bucketsOf "unique_jokes" data) <= Z.to_nat size.

End Documents.

(* ================================================================== *)
(** ** server/index.js: the other routes, and the start-up *)

Module Routes.
Import JsString Elasticsearch Documents.

(** What a handler did with the response object. *)
Inductive answer (A : Type) : Type :=
| Ok (payload : A)      (* [res.json(payload)] *)
| Invalid               (* [res.status(400).json(...)] *)
| Failed.               (* [res.status(500).json(...)], from the [catch] *)
Arguments Invalid {A}.
Arguments Failed {A}.

(** [parseInt(v) || fallback]; [parsed] is what [parseInt(v)] returned,
    [None] being NaN. *)
Definition numberOr (parsed : option Z) (fallback : Z) : Z :=
  match parsed with
  | Some n => if (n =? 0)%Z then fallback else n
  | None => fallback
  end.

(** [!v] for a query parameter given at most once: absent, or a string. *)
Definition missing (v : option string) : bool :=
  match v with
  | Some s => String.eqb s ""
  | None => true
  end.

(** [v || fallback] *)
Definition stringOr (v : option string) (fallback : string) : string :=
  match v with
  | Some s => if String.eqb s "" then fallback else s
  | None => fallback
  end.

(** [v || null] *)
Definition orNull (v : option string) : option string :=
  if missing v then None else v.

Record historyPage : Type := {
  p_items : list historyItem;
  p_total : nat;
  p_limit : Z;
  p_offset : Z;
  p_hasMore : bool
}.

Section WithRuntime.
Context {R : JsRuntime}.

(** GET /api/history; [limit] and [offset] are what [parseInt] made of the
    query parameters. *)
Definition history (es : store) (limit offset : option Z) : answer historyPage :=
  let limit := numberOr limit 20 in
  let offset := numberOr offset 0 in
  match fetchHistory es limit offset with
  | Ret (items, total) =>
      Ok {| p_items := items;
            p_total := total;
            p_limit := limit;
            p_offset := offset;
            p_hasMore := (offset + Z.of_nat (List.length items) <? Z.of_nat total)%Z |}
  | Throw => Failed
  end.

End WithRuntime.

(** GET /api/similar: the pair [{ similar, count }]. *)
Definition similar (es : store) (line_text : option string) (limit : option Z)
           (exclude_set_id : option string) : answer (list similarJoke * nat) :=
  match line_text with
  | Some text =>
      if String.eqb text "" then Invalid
      else
        let maxLimit := Z.min (numberOr limit 5) 10 in
        match findSimilarJokes es text maxLimit (orNull exclude_set_id) with
        | Ret similarJokes => Ok (similarJokes, List.length similarJokes)
        | Throw => Failed
        end
  | None => Invalid
  end.

(** GET /api/results: [{ set_id, line_id, stage1, stage2, stage3 }]. *)
Definition results (c : cluster) (set_id line_id : option string)
  : answer (string * string * documents) :=
  match set_id with
  | Some id =>
      if String.eqb id "" then Invalid
      else
        match fetchDocsFromES c id (stringOr line_id "l1") with
        | Ret found => Ok (id, stringOr line_id "l1", found)
        | Throw => Failed
        end
  | None => Invalid
  end.

(** DELETE /api/history/:set_id: the value of [deleted]. *)
Definition delete (c : cluster) (set_id : string) : answer json :=
  if String.eqb set_id "" then Invalid
  else
    match deleteBySetId c set_id with
    | Ret deleted => Ok deleted
    | Throw => Failed
    end.

End Routes.

Module Startup.
Import Documents.

(** The environment variables the three modules read when they are loaded. *)
Record env : Type := {
  ES_URL : option string;
  ES_API_KEY : option string;
  KIBANA_URL : option string;
  KIBANA_API_KEY : option string
}.

(** A variable that is set, and not to the empty string. *)
Definition isSet (v : option string) : bool :=
  match v with
  | Some s => negb (String.eqb s "")
  | None => false
  end.

Definition validateESConfig (e : env) : completion unit :=
  if negb (isSet (ES_URL e)) then Throw
  else if negb (isSet (ES_API_KEY e)) then Throw
  else Ret tt.

Definition validateAgentConfig (e : env) : completion unit :=
  if negb (isSet (KIBANA_URL e)) then Throw
  else if negb (isSet (KIBANA_API_KEY e)) then Throw
  else Ret tt.

Definition validateReviewerConfig (e : env) : bool :=
  if negb (isSet (KIBANA_URL e)) then false
  else if negb (isSet (KIBANA_API_KEY e)) then false
  else true.

(** How [start()] ends: the server listens, [reviewerEnabled] having the
    given value, or the process exits with status 1. *)
Inductive outcome : Type :=
| Listening (reviewerEnabled : bool)
| Exited.

Definition start (e : env) (c : cluster) : outcome :=
  match
    (_ <- validateESConfig e ;;
     _ <- validateAgentConfig e ;;
     let reviewerEnabled := validateReviewerConfig e in
     _ <- snd (ensureIndex c) ;;
     Ret reviewerEnabled)
  with
  | Ret reviewerEnabled => Listening reviewerEnabled
  | Throw => Exited
  end.

End Startup.

(** ** Concrete inputs for these *)

Module Stored.
Import Elasticsearch Documents.

(** A cluster without the index. *)
Definition nowhere : cluster :=
  fun _ =>
    HttpResponse 404
      (JsonBody (JObj [ ("error", JStr "index_not_found_exception");
                        ("status", JNum 404) ])).

Definition item : json :=
  JObj [ ("feedback_text", JStr "ha"); ("relatability", JStr "High");
         ("feedback_id", JStr "f_literal_1700000000050");
         ("agent_mode", JStr "literal") ].

Definition angle : concept :=
  {| concept_id := "c_f_literal_1700000000050_0";
     parent_feedback_id := "f_literal_1700000000050";
     concept_set_id := "set-1";
     angle_name := Some (JStr "pun");
     explanation := Some (JStr "It plays on two meanings.");
     exploration_direction := None |}.

Definition sentBy (docs : completion (list document)) : list document :=
  match docs with
  | Ret docs => docs
  | Throw => []
  end.

(** What the two calls of [storeDocsToES] in a request send. *)
Definition firstBulk : list document :=
  sentBy (bulkDocs "set-1" "l1" "A line." "2026-01-01T00:00:00.000Z" [item] [angle] None).

Definition secondBulk : list document :=
  sentBy (bulkDocs "set-1" "l1" "A line." "2026-01-01T00:00:09.000Z" [] []
                   (Some Reviewer.insufficientReview)).

(** The index once it holds them. *)
Definition kept : list (string * document) :=
  combine ["d1"; "d2"; "d3"] (firstBulk ++ secondBulk)%list.

(** A cluster that answers the search for the set with these documents,
    the most recent first. *)
Definition holding : cluster :=
  fun call =>
    match call with
    | SearchDocs _ _ => HttpResponse 200 (JsonBody (found (rev (map asHit kept))))
    | _ => NetworkError
    end.

(** A complete configuration. *)
Definition configured : Startup.env :=
  {| Startup.ES_URL := Some "https://es.example:9243";
     Startup.ES_API_KEY := Some "key-1";
     Startup.KIBANA_URL := Some "kb.example";
     Startup.KIBANA_API_KEY := Some "key-2" |}.

(** A cluster in which the index exists. *)
Definition ready : cluster :=
  fun call =>
    match call with
    | HeadIndex => HttpResponse 200 EmptyBody
    | PutMapping => HttpResponse 200 (JsonBody (JObj [("acknowledged", JBool true)]))
    | _ => NetworkError
    end.

End Stored.

(* ================================================================== *)
(** ** The event stream on the wire, and the page that reads it
       (server/index.js [sendEvent], web/src/App.jsx [handleGenerate]) *)

Module Wire.
Import JsString.

Definition LF : ascii := "010"%char.
Definition CR : ascii := "013"%char.

(** ['\n'] and ['\n\n'] *)
Definition newline : string := String LF EmptyString.
Definition blank : string := String LF (String LF EmptyString).

Section WithRuntime.
Context {R : JsRuntime}.

(** The lines of one event, without the blank line that ends it. *)
Definition body (type : string) (data : json) : string :=
  "event: " ++ type ++ newline ++ "data: " ++ JSON_stringify data.

(** What [sendEvent(type, data)] writes:
    [`event: ${type}\ndata: ${JSON.stringify(data)}\n\n`]. *)
Definition frame (type : string) (data : json) : string :=
  body type data ++ blank.

(** What the response carries when these events were sent, in order. *)
Fixpoint written (events : list (string * json)) : string :=
  match events with
  | [] => EmptyString
  | (type, data) :: rest => frame type data ++ written rest
  end.

End WithRuntime.

(** The characters the pattern [.] does not match, below code unit 256. *)
Definition isLineTerminator (c : ascii) : bool := Ascii.eqb c LF || Ascii.eqb c CR.

Definition singleLine (s : string) : bool :=
  allChars (fun c => negb (isLineTerminator c)) s.

(** An event type that reads back as itself: on one line, without white
    space around it, and such that "data: " first occurs at the start of
    the data line. *)
Definition plainType (type : string) : bool :=
  singleLine type && String.eqb (trim type) type &&
  negb (includes "data: " ("event: " ++ type ++ newline ++ "data:")).

End Wire.

Module Client.
Import JsString Wire.

(** The runtime's comparison [v > 0] for a value it has to convert to a
    number first: a string, an array or an object. *)
Class JsCompare : Type := {
  positive : json -> bool
}.

(** [handleGenerate] returns at once on a blank text; otherwise the body of
    its request is [{ line_text: lineText.trim() }]. *)
Definition submission (lineText : string) : option string :=
  if (String.length (trim lineText) =? 0)%nat then None else Some (trim lineText).

(** *** Reading the stream *)

(** The longest run of [.] at the start of [s], and what follows it. *)
Fixpoint lineRun (s : string) : string * string :=
  match s with
  | EmptyString => (EmptyString, EmptyString)
  | String c s' =>
      if isLineTerminator c then (EmptyString, s)
      else let (run, rest) := lineRun s' in (String c run, rest)
  end.

(** [group.match(eventPattern)], the pattern being "event: ", a captured
    run of [.] as long as can be, and a line feed: the capture of the
    leftmost match.  At a given occurrence of "event: " the pattern matches
    when the longest run of [.] is followed by a line feed; a shorter run is
    followed by a character of the run. *)
Fixpoint matchEvent (s : string) : option string :=
  match s with
  | EmptyString => None
  | String _ s' =>
      match dropPrefix "event: " s with
      | Some after =>
          let (run, rest) := lineRun after in
          if prefix newline rest then Some run else matchEvent s'
      | None => matchEvent s'
      end
  end.

(** [group.match(dataPattern)], the pattern being "data: " and a captured
    run of [.] as long as can be: the capture of the leftmost match. *)
Fixpoint matchData (s : string) : option string :=
  match s with
  | EmptyString => None
  | String _ s' =>
      match dropPrefix "data: " s with
      | Some after => Some (fst (lineRun after))
      | None => matchData s'
      end
  end.

(** *** The state of the page *)

(** The object [currentResults]; a field that is [None] is [undefined]. *)
Record results : Type := {
  r_set_id : option json;
  r_line_text : option string;
  r_stage1 : option json;
  r_stage2 : option json;
  r_stage3 : option json
}.

(** [{}] *)
Definition noResults : results :=
  {| r_set_id := None; r_line_text := None; r_stage1 := None; r_stage2 := None;
     r_stage3 := None |}.

Record page : Type := {
  currentResults : results;               (* the accumulator of [handleGenerate] *)
  shown : option results;                 (* the state [results]; [None] is [null] *)
  selected : option (option json);        (* the state [selectedFeedbackId]:
                                             [None] is [null], [Some None] is [undefined] *)
  notifications : list (option json)      (* the messages given to [showNotification] *)
}.

(** The page when the reading starts. *)
Definition connecting : page :=
  {| currentResults := noResults;
     shown := None;
     selected := None;
     notifications := [Some (JStr "Connecting to comedy cortex...")] |}.

(** What was thrown: the [Error] made from an [error] event, or the
    TypeError of a property read on [null] or [undefined]. *)
Inductive thrown : Type :=
| Reported (message : option json)
| TypeError.

Inductive outcome : Type :=
| Continue (p : page)
| Stop (p : page) (cause : thrown).

(** [setResults(currentResults)] after an assignment to [currentResults]. *)
Definition show (r : results) (p : page) : page :=
  {| currentResults := r; shown := Some r; selected := selected p;
     notifications := notifications p |}.

Definition select (v : option json) (p : page) : page :=
  {| currentResults := currentResults p; shown := shown p; selected := Some v;
     notifications := notifications p |}.

Definition showNotification (message : option json) (p : page) : page :=
  {| currentResults := currentResults p; shown := shown p; selected := selected p;
     notifications := notifications p ++ [message] |}.

Section WithRuntime.
Context {R : JsRuntime} {C : JsCompare}.

(** [stage1?.length > 0] *)
Definition notEmpty (stage1 : option json) : bool :=
  match stage1 with
  | Some (JArr items) => (0 <? List.length items)%nat
  | Some (JStr s) => (0 <? String.length s)%nat
  | Some (JObj fields) =>
      match Js.lookup "length" fields with
      | Some (JNum n) => (0 <? n)%Z
      | Some (JBool b) => b
      | Some JNull | None => false
      | Some v => positive v
      end
  | _ => false
  end.

(** The [switch] on the type of an event. *)
Definition handleEvent (lineText eventType : string) (eventData : json) (p : page)
  : outcome :=
  if String.eqb eventType "start" then
    match Js.get eventData "set_id" with
    | Ret set_id =>
        Continue (show {| r_set_id := set_id;
                          r_line_text := Some lineText;
                          r_stage1 := r_stage1 (currentResults p);
                          r_stage2 := r_stage2 (currentResults p);
                          r_stage3 := r_stage3 (currentResults p) |} p)
    | Throw => Stop p TypeError
    end
  else if String.eqb eventType "progress" then
    match Js.get eventData "message" with
    | Ret message => Continue (showNotification message p)
    | Throw => Stop p TypeError
    end
  else if String.eqb eventType "result_stage1" then
    match Js.get eventData "stage1" with
    | Ret stage1 =>
        let p' := show {| r_set_id := r_set_id (currentResults p);
                          r_line_text := r_line_text (currentResults p);
                          r_stage1 := stage1;
                          r_stage2 := Js.getOpt (Some eventData) "stage2";
                          r_stage3 := r_stage3 (currentResults p) |} p in
        if notEmpty stage1
        then match Elasticsearch.first stage1 with
             | Some head =>
                 match Js.get head "feedback_id" with
                 | Ret feedback_id => Continue (select feedback_id p')
                 | Throw => Stop p' TypeError
                 end
             | None => Stop p' TypeError
             end
        else Continue p'
    | Throw => Stop p TypeError
    end
  else if String.eqb eventType "result_stage3" then
    match Js.get eventData "stage3" with
    | Ret stage3 =>
        Continue (show {| r_set_id := r_set_id (currentResults p);
                          r_line_text := r_line_text (currentResults p);
                          r_stage1 := r_stage1 (currentResults p);
                          r_stage2 := r_stage2 (currentResults p);
                          r_stage3 := stage3 |} p)
    | Throw => Stop p TypeError
    end
  else if String.eqb eventType "ping" then Continue p
  else if String.eqb eventType "error" then
    match Js.get eventData "message" with
    | Ret message => Stop p (Reported message)
    | Throw => Stop p TypeError
    end
  else if String.eqb eventType "done" then
    Continue (showNotification (Some (JStr "Analysis complete!")) p)
  else Continue p.

(** The body of the loop over the groups of a chunk. *)
Definition handleGroup (lineText group : string) (p : page) : outcome :=
  match matchEvent group, matchData group with
  | Some eventType, Some rawData =>
      match JSON_parse rawData with
      | Some eventData => handleEvent lineText (trim eventType) eventData p
      | None => Continue p
      end
  | _, _ => Continue p
  end.

Fixpoint handleGroups (lineText : string) (groups : list string) (p : page) : outcome :=
  match groups with
  | [] => Continue p
  | group :: rest =>
      match handleGroup lineText group p with
      | Continue p' => handleGroups lineText rest p'
      | stop => stop
      end
  end.

(** The [while] loop: [chunks] are the pieces in which the response
    arrives, decoded; the stream ends after the last one. *)
Fixpoint readLoop (lineText : string) (chunks : list string) (buffer : string) (p : page)
  : outcome :=
  match chunks with
  | [] => Continue p
  | chunk :: rest =>
      let lines := split blank (buffer ++ chunk) in
      match handleGroups lineText (removelast lines) p with
      | Continue p' => readLoop lineText rest (last lines EmptyString) p'
      | stop => stop
      end
  end.

(** The events the page would handle, given as types and decoded data. *)
Fixpoint dispatch (lineText : string) (events : list (string * json)) (p : page)
  : outcome :=
  match events with
  | [] => Continue p
  | (eventType, eventData) :: rest =>
      match handleEvent lineText eventType eventData p with
      | Continue p' => dispatch lineText rest p'
      | stop => stop
      end
  end.

(** An event that survives the wire: its type is plain, and the text
    [JSON.stringify] makes of its data is on one line and parses back. *)
Definition faithful (e : string * json) : Prop :=
  plainType (fst e) = true /\
  singleLine (JSON_stringify (snd e)) = true /\
  JSON_parse (JSON_stringify (snd e)) = Some (snd e).

End WithRuntime.

(** The text received, from the chunks in which it arrived. *)
Definition received (chunks : list string) : string :=
  fold_right append EmptyString chunks.

(** A runtime for the examples: the comparison is never reached. *)
Definition compare : JsCompare := {| positive := fun _ => false |}.

End Client.

(** ** A stream for the examples *)

Module Broadcast.
Import JsString Wire Client.

(** The text [{"k":"v"}]. *)
Definition textOf (k v : string) : string :=
  "{" ++ Demo.quoted k ++ ":" ++ Demo.quoted v ++ "}".

Definition progressData : json := JObj [("message", JStr "Synthesizing reviews...")].

Definition errorData : json :=
  JObj [("message", JStr "Review generation failed, but perspectives are available.")].

Definition doneData : json := JObj [("set_id", JStr "set-1")].

(** A runtime that knows the three payloads and their texts. *)
Definition runtime : JsRuntime :=
  {| JSON_parse := fun s =>
       if String.eqb s (textOf "message" "Synthesizing reviews...")
       then Some progressData
       else if String.eqb s
                 (textOf "message"
                    "Review generation failed, but perspectives are available.")
       then Some errorData
       else if String.eqb s (textOf "set_id" "set-1") then Some doneData
       else None;
     JSON_stringify := fun v =>
       match v with
       | JObj [(k, JStr text)] => textOf k text
       | _ => "null"
       end;
     Date_getTime := fun _ => None |}.

(** The end of the stream of a request whose review failed. *)
Definition events : list (string * json) :=
  [ ("progress", progressData); ("error", errorData); ("done", doneData) ].

(** The same text, as it may arrive: cut inside a type, inside the data
    and between the two line feeds that end an event. *)
Definition chunks : list string :=
  let text := written (R := runtime) events in
  [ substring 0 11 text; substring 11 48 text; substring 59 88 text;
    substring 147 (String.length text - 147) text ].

End Broadcast.

(* ================================================================== *)
(** * Properties *)

Unset Implicit Arguments.

(** ** Strings *)

Module JsStringFacts.
Import JsString.

Lemma toLowerChar_idem (c : ascii) : toLowerChar (toLowerChar c) = toLowerChar c.
Proof. destruct c as [[] [] [] [] [] [] [] []]; reflexivity. Qed.

Lemma toLowerChar_not_dot (c : ascii) :
  Ascii.eqb c "." = false -> Ascii.eqb (toLowerChar c) "." = false.
Proof. destruct c as [[] [] [] [] [] [] [] []]; intro H; try reflexivity; discriminate H. Qed.

Lemma append_nil_r (s : string) : s ++ "" = s.
Proof. induction s as [|c s IH]; simpl; [reflexivity | now rewrite IH]. Qed.

Lemma append_assoc (s t u : string) : (s ++ t) ++ u = s ++ (t ++ u).
Proof. induction s as [|c s IH]; simpl; [reflexivity | now rewrite IH]. Qed.

Lemma toLowerCase_app (s t : string) :
  toLowerCase (s ++ t) = toLowerCase s ++ toLowerCase t.
Proof. induction s as [|c s IH]; simpl; [reflexivity | now rewrite IH]. Qed.

Lemma removeDots_app (s t : string) :
  removeDots (s ++ t) = removeDots s ++ removeDots t.
Proof.
  induction s as [|c s IH]; simpl; [reflexivity |].
  destruct (Ascii.eqb c "."); simpl; now rewrite IH.
Qed.

Lemma allChars_app p (s t : string) :
  allChars p (s ++ t) = allChars p s && allChars p t.
Proof.
  induction s as [|c s IH]; simpl; [reflexivity |].
  now rewrite IH, andb_assoc.
Qed.

Lemma toLowerCase_settled (s : string) :
  allChars settled s = true -> toLowerCase s = s.
Proof.
  induction s as [|c s IH]; simpl; [reflexivity |].
  unfold settled at 1. rewrite !andb_true_iff. intros [[Hc _] Hs].
  apply Ascii.eqb_eq in Hc. now rewrite Hc, IH.
Qed.

Lemma removeDots_settled (s : string) :
  allChars settled s = true -> removeDots s = s.
Proof.
  induction s as [|c s IH]; simpl; [reflexivity |].
  unfold settled at 1. rewrite !andb_true_iff. intros [[_ Hd] Hs].
  apply negb_true_iff in Hd. now rewrite Hd, IH.
Qed.

Lemma allChars_removeDots_toLowerCase (s : string) :
  allChars settled (removeDots (toLowerCase s)) = true.
Proof.
  induction s as [|c s IH]; simpl; [reflexivity |].
  destruct (Ascii.eqb (toLowerChar c) ".") eqn:Hd; [exact IH |].
  simpl. rewrite IH, andb_true_r. unfold settled.
  now rewrite toLowerChar_idem, Ascii.eqb_refl, Hd.
Qed.

(** *** Trimming *)

Lemma allChars_trimStart p (s : string) :
  allChars p s = true -> allChars p (trimStart s) = true.
Proof.
  induction s as [|c s IH]; simpl; [trivial |].
  intro H. destruct (is_space c); [| exact H].
  apply andb_true_iff in H. now apply IH.
Qed.

Lemma allChars_trimEnd p (s : string) :
  allChars p s = true -> allChars p (trimEnd s) = true.
Proof.
  induction s as [|c s IH]; simpl; [trivial |].
  intro H. apply andb_true_iff in H as [Hc Hs]. specialize (IH Hs).
  destruct (trimEnd s) as [|d r].
  - destruct (is_space c); simpl; [reflexivity | now rewrite Hc].
  - simpl in *. now rewrite Hc, IH.
Qed.

Lemma allChars_trim p (s : string) :
  allChars p s = true -> allChars p (trim s) = true.
Proof. intro H. unfold trim. now apply allChars_trimEnd, allChars_trimStart. Qed.

Lemma cleanStart_trimStart (s : string) : cleanStart (trimStart s) = true.
Proof.
  induction s as [|c s IH]; simpl; [reflexivity |].
  destruct (is_space c) eqn:Hc; [exact IH | simpl; now rewrite Hc].
Qed.

Lemma trimStart_cleanStart (s : string) : cleanStart s = true -> trimStart s = s.
Proof.
  destruct s as [|c s]; simpl; [reflexivity |].
  intro H. apply negb_true_iff in H. now rewrite H.
Qed.

Lemma cleanStart_trimEnd (s : string) :
  cleanStart s = true -> cleanStart (trimEnd s) = true.
Proof.
  destruct s as [|c s]; simpl; [trivial |].
  intro H. destruct (trimEnd s); [| exact H].
  apply negb_true_iff in H. rewrite H. simpl. now rewrite H.
Qed.

Lemma trimEnd_idem (s : string) : trimEnd (trimEnd s) = trimEnd s.
Proof.
  induction s as [|c s IH]; simpl; [reflexivity |].
  destruct (trimEnd s) as [|d r] eqn:E.
  - destruct (is_space c) eqn:Hc; simpl; [reflexivity | now rewrite Hc].
  - simpl. simpl in IH. now rewrite IH.
Qed.

Lemma trim_idem (s : string) : trim (trim s) = trim s.
Proof.
  unfold trim.
  rewrite (trimStart_cleanStart (trimEnd (trimStart s))).
  - apply trimEnd_idem.
  - apply cleanStart_trimEnd, cleanStart_trimStart.
Qed.

(** *** Substrings *)

Lemma prefix_nil (s : string) : prefix "" s = true.
Proof. now destruct s. Qed.

Lemma prefix_here (t r : string) : prefix t (t ++ r) = true.
Proof.
  induction t as [|c t IH]; simpl; [apply prefix_nil |].
  destruct (ascii_dec c c); [exact IH | congruence].
Qed.

Lemma prefix_app_l (t p r : string) : prefix t p = true -> prefix t (p ++ r) = true.
Proof.
  revert p. induction t as [|c t IH]; intros p; simpl; [intros _; apply prefix_nil |].
  destruct p as [|d p]; simpl; [discriminate |].
  destruct (ascii_dec c d); [apply IH | discriminate].
Qed.

Lemma includes_cons (t s : string) (c : ascii) :
  includes t s = true -> includes t (String c s) = true.
Proof. intro H. simpl. rewrite H. apply orb_true_r. Qed.

Lemma includes_prefix (t s : string) : prefix t s = true -> includes t s = true.
Proof.
  intro H. destruct s as [|c s].
  - destruct t; [reflexivity | discriminate H].
  - cbn [includes]. now rewrite H.
Qed.

Lemma includes_here (t r : string) : includes t (t ++ r) = true.
Proof. apply includes_prefix, prefix_here. Qed.

Lemma includes_mid (t a r : string) : includes t (a ++ t ++ r) = true.
Proof.
  induction a as [|c a IH]; [apply (includes_here t r) |].
  change (includes t (String c (a ++ t ++ r)) = true). now apply includes_cons.
Qed.

Lemma includes_app_l (t p r : string) :
  includes t p = true -> includes t (p ++ r) = true.
Proof.
  induction p as [|c p IH]; simpl.
  - rewrite orb_false_r. intro H. destruct t; [| discriminate H].
    destruct r; reflexivity.
  - intro H. apply orb_true_iff in H as [H | H].
    + apply (prefix_app_l _ (String c p) r) in H. simpl in H. now rewrite H.
    + rewrite (IH H). apply orb_true_r.
Qed.

Lemma includes_trimStart (t s : string) :
  includes t (trimStart s) = true -> includes t s = true.
Proof.
  induction s as [|c s IH]; simpl; [trivial |].
  destruct (is_space c); [| trivial].
  intro H. rewrite (IH H). apply orb_true_r.
Qed.

Lemma trimEnd_prefix (s : string) : exists r, s = trimEnd s ++ r.
Proof.
  induction s as [|c s [r IH]]; simpl; [now exists "" |].
  destruct (trimEnd s) as [|d u].
  - destruct (is_space c).
    + now exists (String c s).
    + exists r. simpl in *. now rewrite <- IH.
  - exists r. simpl in *. now rewrite <- IH.
Qed.

Lemma includes_trimEnd (t s : string) :
  includes t (trimEnd s) = true -> includes t s = true.
Proof.
  intro H. destruct (trimEnd_prefix s) as [r E]. rewrite E.
  now apply includes_app_l.
Qed.

Lemma noVs_trim (s : string) : noVs s = true -> noVs (trim s) = true.
Proof.
  unfold noVs, trim. rewrite !negb_true_iff. intro H.
  destruct (includes "vs" (trimEnd (trimStart s))) eqn:E; [| reflexivity].
  apply includes_trimEnd, includes_trimStart in E. congruence.
Qed.

Lemma noVs_tail (c : ascii) (s : string) : noVs (String c s) = true -> noVs s = true.
Proof.
  unfold noVs. rewrite !negb_true_iff. intro H.
  destruct (includes "vs" s) eqn:E; [| reflexivity].
  now rewrite (includes_cons "vs" s c E) in H.
Qed.

(** *** Splitting at " vs " *)

(** A separator cannot start inside an operand that is free of "vs", whatever
    follows the operand's own separator. *)
(** *** Splitting at " vs " *)

Lemma prefix_cons (a b : ascii) (t s : string) :
  prefix (String a t) (String b s) = Ascii.eqb a b && prefix t s.
Proof.
  cbn [prefix]. destruct (ascii_dec a b) as [-> | n].
  - now rewrite Ascii.eqb_refl.
  - apply Ascii.eqb_neq in n. now rewrite n.
Qed.

Lemma prefix_cons_nil (a : ascii) (t : string) : prefix (String a t) "" = false.
Proof. reflexivity. Qed.

Lemma split_go_cons (sep : string) (c : ascii) (s : string) :
  split_go sep 0 (String c s) =
  if prefix sep (String c s)
  then "" :: split_go sep (String.length sep - 1) s
  else match split_go sep 0 s with
       | p :: ps => String c p :: ps
       | [] => [String c ""]
       end.
Proof. reflexivity. Qed.

(** A separator cannot start inside an operand that is free of "vs", whatever
    follows the operand. *)
Lemma separator_not_inside (c : ascii) (s r : string) :
  noVs (String c s) = true ->
  prefix " vs " (String c (s ++ " vs " ++ r)) = false.
Proof.
  unfold noVs. rewrite negb_true_iff. intro H.
  rewrite prefix_cons. destruct (Ascii.eqb " " c) eqn:Ec; [| reflexivity].
  apply Ascii.eqb_eq in Ec. subst c. cbn [andb].
  destruct s as [|a s]; [reflexivity |].
  cbn [append]. rewrite prefix_cons.
  destruct (Ascii.eqb "v" a) eqn:Ea; [| reflexivity].
  apply Ascii.eqb_eq in Ea. subst a. cbn [andb].
  destruct s as [|b s]; [reflexivity |].
  cbn [append]. rewrite prefix_cons.
  destruct (Ascii.eqb "s" b) eqn:Eb; [| reflexivity].
  apply Ascii.eqb_eq in Eb. subst b.
  pose proof (includes_cons "vs" _ " " (includes_here "vs" s)) as V.
  cbn [append] in V. congruence.
Qed.

Lemma separator_not_at (c : ascii) (s : string) :
  noVs (String c s) = true -> prefix " vs " (String c s) = false.
Proof.
  unfold noVs. rewrite negb_true_iff. intro H.
  rewrite prefix_cons. destruct (Ascii.eqb " " c) eqn:Ec; [| reflexivity].
  apply Ascii.eqb_eq in Ec. subst c. cbn [andb].
  destruct s as [|a s]; [reflexivity |].
  rewrite prefix_cons.
  destruct (Ascii.eqb "v" a) eqn:Ea; [| reflexivity].
  apply Ascii.eqb_eq in Ea. subst a. cbn [andb].
  destruct s as [|b s]; [reflexivity |].
  rewrite prefix_cons.
  destruct (Ascii.eqb "s" b) eqn:Eb; [| reflexivity].
  apply Ascii.eqb_eq in Eb. subst b.
  pose proof (includes_cons "vs" _ " " (includes_here "vs" s)) as V.
  cbn [append] in V. congruence.
Qed.

Lemma split_operand (s : string) : noVs s = true -> split " vs " s = [s].
Proof.
  unfold split. induction s as [|c s IH]; [reflexivity |].
  intro H. rewrite split_go_cons, (separator_not_at c s H), (IH (noVs_tail c s H)).
  reflexivity.
Qed.

Lemma split_first_operand (a r : string) :
  noVs a = true -> split " vs " (a ++ " vs " ++ r) = a :: split " vs " r.
Proof.
  unfold split. induction a as [|c a IH]; intro H.
  - cbn [append]. rewrite split_go_cons.
    assert (P : prefix " vs " (String " " (String "v" (String "s" (String " " r)))) = true)
      by (rewrite !prefix_cons, prefix_nil; reflexivity).
    rewrite P. reflexivity.
  - change (String c a ++ " vs " ++ r) with (String c (a ++ " vs " ++ r)).
    rewrite split_go_cons.
    rewrite (separator_not_inside c a r H), (IH (noVs_tail c a H)). reflexivity.
Qed.

End JsStringFacts.

(** ** The reviewer: conflict labels *)

Module ReviewerFacts.
Import JsString JsStringFacts Reviewer.

Lemma normalized_app (s t : string) :
  normalized (s ++ t) = normalized s ++ normalized t.
Proof. unfold normalized. now rewrite toLowerCase_app, removeDots_app. Qed.

Lemma normalized_settled (s : string) :
  allChars settled s = true -> normalized s = s.
Proof.
  intro H. unfold normalized.
  now rewrite (toLowerCase_settled s H), (removeDots_settled s H).
Qed.

Lemma label_not_empty (a b : string) : String.eqb (a ++ " vs " ++ b) "" = false.
Proof. destruct a; reflexivity. Qed.

Lemma sort_pair_swap (x y : string) : sort [x; y] = sort [y; x].
Proof.
  cbn [sort insert].
  destruct (String.leb x y) eqn:Exy, (String.leb y x) eqn:Eyx; try reflexivity.
  - now rewrite (String.leb_antisym _ _ Exy Eyx).
  - destruct (String.leb_total x y); congruence.
Qed.

Lemma sort_pair_cases (x y : string) :
  (sort [x; y] = [x; y] /\ String.leb x y = true) \/
  (sort [x; y] = [y; x] /\ String.leb y x = true).
Proof.
  cbn [sort insert]. destruct (String.leb x y) eqn:Exy.
  - now left.
  - right. split; [reflexivity |].
    destruct (String.leb_total x y); congruence.
Qed.

End ReviewerFacts.

(** ** Splitting, in general *)

Module SplitFacts.
Import JsString JsStringFacts.

Lemma includes_tail (t s : string) (c : ascii) :
  includes t (String c s) = false -> includes t s = false.
Proof.
  intro H. destruct (includes t s) eqn:E; [| reflexivity].
  now rewrite (includes_cons t s c E) in H.
Qed.

Lemma includes_head (t s : string) (c : ascii) :
  includes t (String c s) = false -> prefix t (String c s) = false.
Proof.
  intro H. destruct (prefix t (String c s)) eqn:E; [| reflexivity].
  now rewrite (includes_prefix _ _ E) in H.
Qed.

(** Without a separator there is one piece: the string itself. *)
Lemma split_none (sep s : string) : includes sep s = false -> split sep s = [s].
Proof.
  unfold split. induction s as [|c s IH]; intro H; [reflexivity |].
  rewrite split_go_cons, (includes_head _ _ _ H), (IH (includes_tail _ _ _ H)).
  reflexivity.
Qed.

Lemma split_go_first (sep s p : string) (ps : list string) :
  split_go sep 0 s = p :: ps -> exists r, s = (p ++ r)%string.
Proof.
  revert p ps. induction s as [|c s IH]; intros p ps.
  - cbn. intro H. injection H as <- _. now exists "".
  - rewrite split_go_cons. destruct (prefix sep (String c s)).
    + intro H. injection H as <- _. now exists (String c s).
    + destruct (split_go sep 0 s) as [|q qs] eqn:E.
      * intro H. injection H as <- _.
        specialize (IH "" [] ). cbn.
        destruct s as [|d s]; [now exists "" |].
        revert E. rewrite split_go_cons.
        destruct (prefix sep (String d s)); [discriminate |].
        destruct (split_go sep 0 s); discriminate.
      * intro H. injection H as <- _.
        destruct (IH q qs eq_refl) as [r ->]. now exists r.
Qed.

(** No piece of a split holds the separator. *)
Lemma split_go_pieces (sep : string) (k : nat) (s : string) :
  sep <> "" -> Forall (fun p => includes sep p = false) (split_go sep k s).
Proof.
  intro N.
  assert (E0 : includes sep "" = false) by (destruct sep; [congruence | reflexivity]).
  revert k. induction s as [|c s IH]; intro k.
  - cbn. repeat constructor. exact E0.
  - destruct k as [|k]; [| apply IH].
    rewrite split_go_cons. destruct (prefix sep (String c s)) eqn:P.
    + constructor; [exact E0 | apply IH].
    + specialize (IH 0).
      destruct (split_go sep 0 s) as [|q qs] eqn:E.
      * destruct s as [|d s]; [discriminate E |].
        revert E. rewrite split_go_cons.
        destruct (prefix sep (String d s)); [discriminate |].
        destruct (split_go sep 0 s); discriminate.
      * inversion IH as [|? ? Hq Hqs]; subst. constructor; [| exact Hqs].
        cbn [includes]. rewrite Hq, orb_false_r.
        destruct (prefix sep (String c q)) eqn:Pq; [| reflexivity].
        destruct (split_go_first _ _ _ _ E) as [r ->].
        apply (prefix_app_l _ (String c q) r) in Pq. cbn [append] in Pq. congruence.
Qed.

(** The pieces of a split are made of the characters of the string. *)
Lemma allChars_pieces p (sep : string) (k : nat) (s : string) :
  allChars p s = true -> Forall (fun piece => allChars p piece = true) (split_go sep k s).
Proof.
  revert k. induction s as [|c s IH]; intros k H; cbn [split_go].
  - repeat constructor.
  - cbn [allChars] in H. apply andb_true_iff in H as [Hc Hs].
    destruct k as [|k]; [| now apply IH].
    destruct (prefix sep (String c s)).
    + constructor; [reflexivity | now apply IH].
    + specialize (IH 0 Hs). destruct (split_go sep 0 s) as [|q qs].
      * repeat constructor. cbn. now rewrite Hc.
      * inversion IH; subst. constructor; [| assumption]. cbn. now rewrite Hc.
Qed.

Lemma includes_trim (t s : string) : includes t s = false -> includes t (trim s) = false.
Proof.
  intro H. unfold trim.
  destruct (includes t (trimEnd (trimStart s))) eqn:E; [| reflexivity].
  apply includes_trimEnd, includes_trimStart in E. congruence.
Qed.

Lemma endsWith_tail (t s : string) (c : ascii) :
  endsWith t (String c s) = false -> endsWith t s = false.
Proof. cbn [endsWith]. intro H. now apply orb_false_iff in H. Qed.

(** An operand that neither holds the separator nor ends with " vs" holds
    no separator when " vs" is put after it. *)
Lemma no_separator_before (x : string) :
  includes " vs " x = false -> endsWith " vs" x = false ->
  includes " vs " (x ++ " vs") = false.
Proof.
  induction x as [|c x IH]; intros I E; [reflexivity |].
  pose proof (IH (includes_tail _ _ _ I) (endsWith_tail _ _ _ E)) as T.
  change (String c x ++ " vs") with (String c (x ++ " vs")).
  cbn [includes]. rewrite T, orb_false_r.
  pose proof (includes_head _ _ _ I) as P.
  rewrite prefix_cons in *.
  destruct (Ascii.eqb " " c) eqn:Ec; [| reflexivity]. cbn [andb] in *.
  apply Ascii.eqb_eq in Ec. subst c.
  destruct x as [|d x]; [reflexivity |].
  cbn [append]. rewrite prefix_cons in *.
  destruct (Ascii.eqb "v" d) eqn:Ed; [| reflexivity]. cbn [andb] in *.
  apply Ascii.eqb_eq in Ed. subst d.
  destruct x as [|e x]; [reflexivity |].
  cbn [append]. rewrite prefix_cons in *.
  destruct (Ascii.eqb "s" e) eqn:Ee; [| reflexivity]. cbn [andb] in *.
  apply Ascii.eqb_eq in Ee. subst e.
  destruct x as [|f x]; [discriminate E |].
  cbn [append]. rewrite prefix_cons in *. rewrite prefix_nil in *.
  exact P.
Qed.

Lemma prefix_short (t u r : string) :
  prefix t (u ++ r) = true -> String.length t <= String.length u -> prefix t u = true.
Proof.
  revert u. induction t as [|a t IH]; intros u H L; [apply prefix_nil |].
  destruct u as [|b u]; [cbn in L; lia |].
  change (String b u ++ r) with (String b (u ++ r)) in H.
  rewrite prefix_cons in *. apply andb_true_iff in H as [-> H]. cbn [andb].
  apply (IH u H). cbn in L. lia.
Qed.

Lemma length_append (s t : string) :
  String.length (s ++ t) = String.length s + String.length t.
Proof. induction s as [|c s IH]; cbn; [reflexivity | now rewrite IH]. Qed.

(** An operand after which the separator stands comes out first. *)
Lemma split_first (x r : string) :
  includes " vs " (x ++ " vs") = false ->
  split " vs " (x ++ " vs " ++ r) = x :: split " vs " r.
Proof.
  intros Hx. unfold split. induction x as [|c x IH].
  - cbn [append]. rewrite split_go_cons.
    assert (P : prefix " vs " (String " " (String "v" (String "s" (String " " r)))) = true)
      by (rewrite !prefix_cons, prefix_nil; reflexivity).
    rewrite P. reflexivity.
  - change (String c x ++ " vs " ++ r) with (String c (x ++ " vs " ++ r)).
    change (String c x ++ " vs") with (String c (x ++ " vs")) in Hx.
    rewrite split_go_cons.
    assert (P : prefix " vs " (String c (x ++ " vs " ++ r)) = false).
    { destruct (prefix " vs " (String c (x ++ " vs " ++ r))) eqn:P; [| reflexivity].
      assert (A : String c (x ++ " vs " ++ r) = (String c (x ++ " vs") ++ (" " ++ r))%string).
      { cbn [append]. f_equal. rewrite append_assoc. reflexivity. }
      rewrite A in P. apply prefix_short in P.
      - now rewrite (includes_head _ _ _ Hx) in P.
      - cbn [String.length]. rewrite length_append. cbn. lia. }
    rewrite P, (IH (includes_tail _ _ _ Hx)). reflexivity.
Qed.

End SplitFacts.

(** ** The reviewer: sorted labels *)

Module LabelFacts.
Import JsString JsStringFacts Reviewer ReviewerFacts.
Local Open Scope list_scope.

(** *** Pieces, sorting, joining *)

Lemma Forall_insert (P : string -> Prop) (x : string) (l : list string) :
  P x -> Forall P l -> Forall P (insert x l).
Proof.
  intros Hx. induction 1 as [|y l Hy Hl IH]; cbn; [now repeat constructor |].
  destruct (String.leb x y); repeat constructor; assumption.
Qed.

Lemma Forall_sort (P : string -> Prop) (l : list string) :
  Forall P l -> Forall P (sort l).
Proof. induction 1; cbn; [constructor | now apply Forall_insert]. Qed.

Lemma allChars_join p (sep : string) (parts : list string) :
  allChars p sep = true -> Forall (fun piece => allChars p piece = true) parts ->
  allChars p (join sep parts) = true.
Proof.
  intros Hsep. induction 1 as [|x l Hx Hl IH]; [reflexivity |].
  destruct l as [|y l]; [exact Hx |].
  change (join sep (x :: y :: l)) with (x ++ sep ++ join sep (y :: l))%string.
  now rewrite !allChars_app, Hx, Hsep, IH.
Qed.

Lemma insert_sorted (x : string) (l : list string) :
  Sorted (fun a b => String.leb a b = true) l ->
  Sorted (fun a b => String.leb a b = true) (insert x l).
Proof.
  induction 1 as [|y l S IH H]; cbn; [repeat constructor |].
  destruct (String.leb x y) eqn:E.
  - repeat constructor; assumption.
  - constructor; [exact IH |].
    assert (Eyx : String.leb y x = true)
      by (destruct (String.leb_total x y); congruence).
    destruct l as [|z l]; cbn; [now constructor |].
    destruct (String.leb x z); constructor; [exact Eyx |].
    now inversion H.
Qed.

Lemma sort_sorted (l : list string) : Sorted (fun a b => String.leb a b = true) (sort l).
Proof. induction l; cbn; [constructor | now apply insert_sorted]. Qed.

(** *** The order on strings is transitive *)

Lemma ascii_compare_trans (a b c : ascii) :
  Ascii.compare a b = Lt -> Ascii.compare b c = Lt -> Ascii.compare a c = Lt.
Proof.
  unfold Ascii.compare. rewrite !N.compare_lt_iff. apply N.lt_trans.
Qed.

Lemma ascii_compare_eq (a b : ascii) : Ascii.compare a b = Eq -> a = b.
Proof.
  unfold Ascii.compare. intro H. apply N.compare_eq in H.
  rewrite <- (ascii_N_embedding a), <- (ascii_N_embedding b). now rewrite H.
Qed.

Lemma ascii_compare_refl (a : ascii) : Ascii.compare a a = Eq.
Proof. unfold Ascii.compare. apply N.compare_refl. Qed.

Lemma string_compare_trans (a b c : string) :
  String.compare a b <> Gt -> String.compare b c <> Gt -> String.compare a c <> Gt.
Proof.
  revert b c. induction a as [|x a IH]; intros [|y b] [|z c]; cbn; try congruence.
  destruct (Ascii.compare x y) eqn:Exy; try congruence.
  - apply ascii_compare_eq in Exy. subst y.
    destruct (Ascii.compare x z); try congruence. apply IH.
  - destruct (Ascii.compare y z) eqn:Eyz; try congruence.
    + apply ascii_compare_eq in Eyz. subst z. rewrite Exy. congruence.
    + rewrite (ascii_compare_trans _ _ _ Exy Eyz). congruence.
Qed.

Lemma leb_trans (a b c : string) :
  String.leb a b = true -> String.leb b c = true -> String.leb a c = true.
Proof.
  unfold String.leb. intros Hab Hbc.
  pose proof (string_compare_trans a b c) as T.
  destruct (String.compare a b), (String.compare b c), (String.compare a c);
    try reflexivity; try discriminate; exfalso; apply T; congruence.
Qed.

Lemma leb_false (x y : string) : String.leb x y = false -> String.leb y x = true.
Proof. intro H. destruct (String.leb_total x y); congruence. Qed.

(** *** The sorted arrangement does not depend on the order of the parts *)

Lemma insert_insert (x y : string) (l : list string) :
  insert x (insert y l) = insert y (insert x l).
Proof.
  induction l as [|z l IH].
  - cbn. destruct (String.leb x y) eqn:Exy, (String.leb y x) eqn:Eyx; try reflexivity.
    + now rewrite (String.leb_antisym _ _ Exy Eyx).
    + apply leb_false in Exy. congruence.
  - cbn [insert].
    destruct (String.leb y z) eqn:Eyz, (String.leb x z) eqn:Exz; cbn [insert];
      rewrite ?Eyz, ?Exz.
    + destruct (String.leb x y) eqn:Exy, (String.leb y x) eqn:Eyx; try reflexivity.
      * now rewrite (String.leb_antisym _ _ Exy Eyx).
      * apply leb_false in Exy. congruence.
    + destruct (String.leb x y) eqn:Exy; [| reflexivity].
      rewrite (leb_trans _ _ _ Exy Eyz) in Exz. discriminate.
    + destruct (String.leb y x) eqn:Eyx; [| reflexivity].
      rewrite (leb_trans _ _ _ Eyx Exz) in Eyz. discriminate.
    + now rewrite IH.
Qed.

Lemma sort_permutation (l l' : list string) : Permutation l l' -> sort l = sort l'.
Proof.
  induction 1 as [| x l l' _ IH | x y l | l l' l'' _ IH1 _ IH2]; cbn [sort].
  - reflexivity.
  - now rewrite IH.
  - apply insert_insert.
  - congruence.
Qed.

Lemma insert_permutation (x : string) (l : list string) : Permutation (insert x l) (x :: l).
Proof.
  induction l as [|y l IH]; cbn; [reflexivity |].
  destruct (String.leb x y); [reflexivity |]. rewrite IH. apply perm_swap.
Qed.

Lemma sort_is_permutation (l : list string) : Permutation (sort l) l.
Proof.
  induction l as [|x l IH]; cbn; [reflexivity |].
  rewrite insert_permutation. now constructor.
Qed.

Lemma sort_idem (l : list string) : sort (sort l) = sort l.
Proof. apply sort_permutation, sort_is_permutation. Qed.

(** *** Labels with any number of operands *)

Lemma split_join (ops : list string) :
  ops <> [] -> Forall (fun x => noVs x = true) ops -> split " vs " (join " vs " ops) = ops.
Proof.
  intros N F. induction F as [|x l Hx Hl IH]; [congruence |].
  destruct l as [|y l]; [now apply split_operand |].
  change (join " vs " (x :: y :: l)) with (x ++ " vs " ++ join " vs " (y :: l))%string.
  rewrite (split_first_operand _ _ Hx). f_equal. apply IH. discriminate.
Qed.

Lemma map_trim (ops : list string) : Forall (fun x => trim x = x) ops -> map trim ops = ops.
Proof. induction 1 as [|x l Hx _ IH]; cbn; [reflexivity | now rewrite Hx, IH]. Qed.

Lemma canonical_parts (ops : list string) :
  Forall canonicalOperand ops ->
  Forall (fun x => allChars settled x = true) ops /\
  Forall (fun x => trim x = x) ops /\
  Forall (fun x => noVs x = true) ops.
Proof.
  induction 1 as [|x l (S & T & V) _ (IS & IT & IV)]; repeat split; constructor; assumption.
Qed.

Lemma join_two (x y : string) (l : list string) :
  join " vs " (x :: y :: l) = (x ++ " vs " ++ join " vs " (y :: l))%string.
Proof. reflexivity. Qed.

(** What the function returns on two or more canonical operands joined by
    the separator: the operands, sorted. *)
Lemma canon_join (ops : list string) :
  2 <= List.length ops -> Forall canonicalOperand ops ->
  canon (join " vs " ops) = Some (join " vs " (sort ops)).
Proof.
  intros L C. destruct (canonical_parts ops C) as (S & T & V).
  destruct ops as [|x [|y l]]; cbn [List.length] in L; try lia.
  unfold canon, normalizeConflict, vs.
  rewrite join_two at 1. rewrite label_not_empty. cbv zeta.
  rewrite (normalized_settled (join " vs " (x :: y :: l)))
    by (apply allChars_join; [reflexivity | exact S]).
  rewrite join_two at 1. rewrite includes_mid.
  rewrite split_join by (try discriminate; exact V).
  now rewrite (map_trim _ T).
Qed.

End LabelFacts.

(** ** The reviewer: two-party labels, and second passes *)

Module PairFacts.
Import JsString JsStringFacts SplitFacts Reviewer ReviewerFacts LabelFacts.

Lemma separator_not_empty : " vs " <> "".
Proof. discriminate. Qed.

(** What a label that splits into two operands has. *)
Lemma two_operands (t a b : string) :
  split " vs " t = [a; b] ->
  includes " vs " t = true /\ includes " vs " a = false /\ includes " vs " b = false.
Proof.
  intro H. split.
  - destruct (includes " vs " t) eqn:E; [reflexivity |].
    rewrite (split_none _ _ E) in H. discriminate H.
  - pose proof (split_go_pieces " vs " 0 t separator_not_empty) as F.
    fold (split " vs " t) in F. rewrite H in F.
    inversion F as [|? ? Ha F']; subst. inversion F' as [|? ? Hb _]; subst. now split.
Qed.

(** The value on a two-party label. *)
Lemma canon_two (s a b : string) :
  split " vs " (normalized s) = [a; b] ->
  canon s = Some (join " vs " (sort [trim a; trim b])).
Proof.
  intro H. destruct (two_operands _ _ _ H) as (I & _ & _).
  unfold canon, normalizeConflict, vs.
  destruct (String.eqb_spec s "") as [-> | _]; [discriminate H |].
  cbv zeta. now rewrite I, H.
Qed.

Lemma settled_pieces (s a b : string) :
  split " vs " (normalized s) = [a; b] ->
  allChars settled (trim a) = true /\ allChars settled (trim b) = true.
Proof.
  intro H.
  pose proof (allChars_pieces settled " vs " 0 (normalized s)
                (allChars_removeDots_toLowerCase s)) as F.
  fold (split " vs " (normalized s)) in F. rewrite H in F.
  inversion F as [|? ? Ha F']; subst. inversion F' as [|? ? Hb _]; subst.
  split; now apply allChars_trim.
Qed.

(** Operands that hold no separator and do not end with " vs": joining
    them and splitting the result gives them back. *)
Lemma split_joined (xs : list string) :
  xs <> [] ->
  Forall (fun x => includes " vs " x = false /\ endsWith " vs" x = false) xs ->
  split " vs " (join " vs " xs) = xs.
Proof.
  intros N F. induction F as [|x l [Ix Ex] Hl IH]; [congruence |].
  destruct l as [|y l]; [now apply split_none |].
  rewrite join_two, split_first by now apply no_separator_before.
  f_equal. apply IH. discriminate.
Qed.

Lemma joined_not_empty (x y : string) (l : list string) :
  String.eqb (join " vs " (x :: y :: l)) "" = false.
Proof. rewrite join_two. apply label_not_empty. Qed.

Lemma sort_two (l : list string) :
  2 <= List.length l -> exists x y l', sort l = x :: y :: l'.
Proof.
  intro L. pose proof (Permutation_length (sort_is_permutation l)) as E.
  destruct (sort l) as [|x [|y l']]; cbn in E; try lia. now exists x, y, l'.
Qed.

Lemma pieces_two (t : string) :
  includes " vs " t = true -> 2 <= List.length (split " vs " t).
Proof.
  unfold split. induction t as [|c t IH]; [discriminate |].
  intro H. rewrite split_go_cons.
  destruct (prefix " vs " (String c t)) eqn:P.
  - cbn [List.length].
    assert (L : forall k u, 1 <= List.length (split_go " vs " k u)).
    { intros k u. revert k. induction u as [|d u IHu]; intro k; [cbn; lia |].
      destruct k as [|k]; [| apply IHu].
      rewrite split_go_cons. destruct (prefix " vs " (String d u)); [cbn; lia |].
      destruct (split_go " vs " 0 u); cbn; lia. }
    specialize (L (String.length " vs " - 1) t). lia.
  - cbn [includes] in H. rewrite P in H. cbn [orb] in H. specialize (IH H).
    destruct (split_go " vs " 0 t) as [|q qs]; cbn in *; lia.
Qed.

(** A second pass changes nothing when no trimmed piece ends with " vs". *)
Lemma canon_twice (s : string) :
  includes " vs " (normalized s) = true ->
  Forall (fun p => endsWith " vs" (trim p) = false) (split " vs " (normalized s)) ->
  canon2 s = canon s.
Proof.
  intros I E.
  assert (C : canon s = Some (join " vs " (sort (map trim (split " vs " (normalized s)))))).
  { unfold canon, normalizeConflict, vs.
    destruct (String.eqb_spec s "") as [-> | _]; [cbn in I; discriminate I |].
    cbv zeta. now rewrite I. }
  unfold canon2. rewrite C. cbn [Js.ofOption].
  set (xs := sort (map trim (split " vs " (normalized s)))).
  assert (F : Forall (fun x => allChars settled x = true /\ trim x = x /\
                               includes " vs " x = false /\ endsWith " vs" x = false) xs).
  { apply Forall_sort.
    pose proof (allChars_pieces settled " vs " 0 (normalized s)
                  (allChars_removeDots_toLowerCase s)) as A.
    pose proof (split_go_pieces " vs " 0 (normalized s) separator_not_empty) as B.
    fold (split " vs " (normalized s)) in A, B.
    revert E A B. generalize (split " vs " (normalized s)) as pieces.
    intros pieces E. induction E as [|p ps Ep _ IH]; intros A B; cbn [map]; [constructor |].
    inversion A as [|? ? Ap A']; subst. inversion B as [|? ? Bp B']; subst.
    constructor; [| now apply IH].
    repeat split; [now apply allChars_trim | apply trim_idem | now apply includes_trim |
                   exact Ep]. }
  assert (L : 2 <= List.length (map trim (split " vs " (normalized s))))
    by (rewrite length_map; now apply pieces_two).
  destruct (sort_two _ L) as (x & y & l' & Exs). fold xs in Exs.
  unfold normalizeConflict, vs. rewrite Exs, joined_not_empty. cbv zeta. rewrite <- Exs.
  assert (S : allChars settled (join " vs " xs) = true).
  { apply allChars_join; [reflexivity |]. eapply Forall_impl; [| exact F]. now intros ? []. }
  rewrite (normalized_settled _ S).
  assert (Inc : includes " vs " (join " vs " xs) = true)
    by (rewrite Exs, join_two; apply includes_mid).
  rewrite Inc, split_joined.
  - rewrite map_trim by (eapply Forall_impl; [| exact F]; now intros ? (_ & T & _)).
    unfold xs. now rewrite sort_idem.
  - rewrite Exs. discriminate.
  - eapply Forall_impl; [| exact F]. now intros ? (_ & _ & ? & ?).
Qed.

End PairFacts.

Import JsString Reviewer.

(** C4, as amended.  A two-party label is one that, lower-cased and with
    its periods removed, splits at " vs " into exactly two operands [a] and
    [b].  On such a label [normalizeConflict] returns the two trimmed
    operands sorted in code-unit order and joined by " vs ", a result in
    lower case that holds no period; a label with the same operands in the
    other order gets the same result; and a second pass leaves the result
    unchanged provided neither trimmed operand ends with " vs".  In
    particular "Literal vs The Fan" and "The Fan vs. Literal" have the same
    canonical form.  As for the other labels: one whose lower-cased,
    period-free form holds no " vs " and is not empty is canonicalised to
    that form, which a second pass leaves unchanged; and whatever the
    number of its operands, a second pass leaves the canonical form of a
    label unchanged when none of the pieces between its separators ends
    with " vs" once trimmed. *)
Theorem normalizeConflict_two_party (s a b : string) :
  split " vs " (normalized s) = [a; b] ->
  canon s = Some (join " vs " (sort [trim a; trim b])) /\
  (forall s' : string, split " vs " (normalized s') = [b; a] -> canon s' = canon s) /\
  (endsWith " vs" (trim a) = false -> endsWith " vs" (trim b) = false ->
   canon2 s = canon s) /\
  allChars settled (join " vs " (sort [trim a; trim b])) = true /\
  canon "Literal vs The Fan" = canon "The Fan vs. Literal" /\
  (forall s0 : string,
     normalized s0 <> "" -> includes " vs " (normalized s0) = false ->
     canon s0 = Some (normalized s0) /\ canon2 s0 = canon s0) /\
  (forall s0 : string,
     includes " vs " (normalized s0) = true ->
     Forall (fun p => endsWith " vs" (trim p) = false) (split " vs " (normalized s0)) ->
     canon2 s0 = canon s0).
Proof.
  intros H.
  assert (Single : forall s0 : string,
             normalized s0 <> "" -> includes " vs " (normalized s0) = false ->
             canon s0 = Some (normalized s0) /\ canon2 s0 = canon s0).
  { intros s0 Hn Hs.
    assert (E : canon s0 = Some (normalized s0)).
    { unfold canon, normalizeConflict, vs.
      destruct (String.eqb_spec s0 "") as [-> | _]; [now elim Hn |].
      cbv zeta. now rewrite Hs. }
    split; [exact E |]. unfold canon2. rewrite E. cbn [Js.ofOption].
    unfold normalizeConflict, vs.
    destruct (String.eqb_spec (normalized s0) "") as [Z | _]; [now elim Hn |].
    cbv zeta.
    rewrite (ReviewerFacts.normalized_settled (normalized s0))
      by apply JsStringFacts.allChars_removeDots_toLowerCase.
    now rewrite Hs. }
  pose proof (PairFacts.canon_two s a b H) as E.
  destruct (PairFacts.two_operands _ _ _ H) as (I & _ & _).
  destruct (PairFacts.settled_pieces s a b H) as [Sa Sb].
  split; [exact E |]. split; [| split; [| split; [| split; [| split]]]].
  - intros s' H'. rewrite E, (PairFacts.canon_two s' b a H').
    now rewrite ReviewerFacts.sort_pair_swap.
  - intros Ea Eb. apply PairFacts.canon_twice; [exact I |].
    rewrite H. repeat constructor; assumption.
  - destruct (ReviewerFacts.sort_pair_cases (trim a) (trim b)) as [[Es _] | [Es _]];
      rewrite Es; cbn [join]; now rewrite !JsStringFacts.allChars_app, Sa, Sb.
  - reflexivity.
  - exact Single.
  - apply PairFacts.canon_twice.
Qed.

Lemma normalizeConflict_two_party_witness :
  split " vs " (normalized "The Fan vs. Literal") = ["the fan"; "literal"] /\
  split " vs " (normalized "Literal vs The Fan") = ["literal"; "the fan"] /\
  split " vs " (normalized "LITERAL VS THE FAN") = ["literal"; "the fan"] /\
  canon "The Fan vs. Literal" = Some "literal vs the fan" /\
  canon "Literal vs The Fan" = canon "The Fan vs. Literal" /\
  canon "LITERAL VS THE FAN" = canon "The Fan vs. Literal" /\
  canon2 "The Fan vs. Literal" = canon "The Fan vs. Literal".
Proof.
  split; [reflexivity |]. split; [reflexivity |]. split; [reflexivity |].
  destruct (normalizeConflict_two_party "The Fan vs. Literal" "the fan" "literal" eq_refl)
    as (H1 & H2 & H3 & _).
  split; [exact H1 |].
  split; [exact (H2 "Literal vs The Fan" eq_refl) |].
  split; [exact (H2 "LITERAL VS THE FAN" eq_refl) |].
  exact (H3 eq_refl eq_refl).
Defined.

(** C4, as stated, fails: the canonical form of "." is the empty string, and
    the canonical form of the empty string is [null]; the canonical form of
    "z vs", a tabulation and " vs zz", whose first operand ends with " vs"
    once trimmed, is "z vs vs zz", which a second pass turns into
    "vs zz vs z"; and punctuation other than the period stays. *)
Lemma normalizeConflict_not_idempotent :
  canon "." = Some "" /\ canon2 "." = None /\ canon2 "." <> canon "." /\
  canon ("z vs" ++ Examples.TAB ++ " vs zz") = Some "z vs vs zz" /\
  canon2 ("z vs" ++ Examples.TAB ++ " vs zz") = Some "vs zz vs z" /\
  canon "Who? vs Me!" = Some "me! vs who?".
Proof. repeat split. discriminate. Qed.

(** ** The reviewer: the synthesis record *)

Module SynthesisFacts.
Import Reviewer.

Section WithRuntime.
Context {R : JsRuntime}.

Lemma mergeSteps_silent (steps : list json) (result : list (string * json)) :
  Forall (fun step => contribution step = Ret None) steps ->
  mergeSteps steps result = (result, Ret tt).
Proof.
  induction 1 as [|step rest Hstep _ IH]; cbn [mergeSteps]; [reflexivity |].
  now rewrite Hstep.
Qed.

(** A [null] step stops the loop; when no step before it contributed, the
    record is still the one the loop started from. *)
Lemma mergeSteps_interrupted (before after : list json) (result : list (string * json)) :
  Forall (fun step => contribution step = Ret None) before ->
  mergeSteps (before ++ JNull :: after)%list result = (result, Throw).
Proof.
  induction 1 as [|step rest Hstep _ IH]; cbn [mergeSteps app]; [reflexivity |].
  now rewrite Hstep.
Qed.

Lemma fallback_unparseable (agentResponse : json) (text : string)
      (result : list (string * json)) :
  jsonContent agentResponse = JStr text -> unparseable text ->
  fallback agentResponse result = result.
Proof.
  intros E [P B]. unfold fallback. rewrite E, P.
  destruct (JsString.matchBraces (JsString.stripFences text)); [now rewrite B | reflexivity].
Qed.

Lemma normalizeResult_default : normalizeResult defaultReview = canonicalDefault.
Proof. reflexivity. Qed.

Lemma parseReviewerResponse_returns (agentResponse : json) :
  agentResponse <> JNull ->
  exists record, parseReviewerResponse agentResponse = Ret (JObj record).
Proof.
  intro N. unfold parseReviewerResponse.
  destruct agentResponse; try congruence;
    destruct (mergeSteps _ defaultReview) as [result [[]|]]; eexists; reflexivity.
Qed.

End WithRuntime.
End SynthesisFacts.

(** C5.  With fewer than two stage 1 records, [getReview] sends no request to
    the reviewer agent, whatever that agent would have answered, and returns
    the fixed record whose divergence score is 0 and whose risk level is
    "low". *)
Theorem getReview_insufficient {R : JsRuntime} (agent : httpResult) (stage1 : list json) :
  List.length stage1 < 2 ->
  getReview agent stage1 = (0, Ret insufficientReview) /\
  Js.getOpt (Some insufficientReview) "divergence_score" = Some (JNum 0) /\
  Js.getOpt (Some insufficientReview) "risk_level" = Some (JStr "low").
Proof.
  intro H. unfold getReview.
  apply Nat.ltb_lt in H. rewrite H. repeat split.
Qed.

Lemma getReview_insufficient_witness :
  List.length [Demo.reaction] < 2 /\
  getReview (R := Demo.runtime) Demo.goodAnswer [Demo.reaction] = (0, Ret insufficientReview).
Proof.
  split; [repeat constructor |].
  exact (proj1 (getReview_insufficient (R := Demo.runtime) Demo.goodAnswer
                  [Demo.reaction] (le_n 2))).
Defined.

(** C6, as amended.  On a response that is not [null],
    [parseReviewerResponse] returns a record and never raises.  When the
    extraction gets nothing out of the response, that record is the default
    one, with divergence score 0, risk level "unknown" and the placeholder
    texts, and its conflict label is: "none detected", the canonical form
    of the default label, when the loop over the steps runs to its end --
    no step contributes data -- and the fallback leaves the record as it
    is, which is the case when its text is unparseable; "None detected", the
    default label as it stands, when a [null] step interrupts the loop
    before any step contributed, for the [catch] then returns the record
    as it is. *)
Theorem parseReviewerResponse_default {R : JsRuntime} (agentResponse : json) :
  agentResponse <> JNull ->
  (exists record, parseReviewerResponse agentResponse = Ret (JObj record)) /\
  (Forall (fun step => contribution step = Ret None) (Js.stepsOf agentResponse) ->
   fallback agentResponse defaultReview = defaultReview ->
   parseReviewerResponse agentResponse = Ret (JObj canonicalDefault)) /\
  (forall before after : list json,
     Js.stepsOf agentResponse = (before ++ JNull :: after)%list ->
     Forall (fun step => contribution step = Ret None) before ->
     parseReviewerResponse agentResponse = Ret (JObj defaultReview)) /\
  (forall text : string,
     jsonContent agentResponse = JStr text -> unparseable text ->
     fallback agentResponse defaultReview = defaultReview) /\
  Js.lookup "primary_conflict" canonicalDefault = Some (JStr "none detected") /\
  Js.lookup "primary_conflict" defaultReview = Some (JStr "None detected") /\
  Forall (fun kv => Js.lookup (fst kv) canonicalDefault = Some (snd kv) /\
                    Js.lookup (fst kv) defaultReview = Some (snd kv))
         [ ("divergence_score", JNum 0);
           ("risk_level", JStr "unknown");
           ("reasoning", JStr "Analysis pending...");
           ("conflict_summary", JStr "Insufficient data for analysis");
           ("recommendation", JStr "No recommendation available") ].
Proof.
  intros N. split; [| split; [| split; [| split]]].
  - now apply SynthesisFacts.parseReviewerResponse_returns.
  - intros S F. unfold parseReviewerResponse. fold (Js.stepsOf agentResponse).
    rewrite (SynthesisFacts.mergeSteps_silent _ _ S).
    change (Js.isStr (Js.lookup "risk_level" defaultReview) "unknown") with true.
    cbv beta iota zeta. rewrite F, SynthesisFacts.normalizeResult_default.
    destruct agentResponse; congruence.
  - intros before after E S. unfold parseReviewerResponse. fold (Js.stepsOf agentResponse).
    rewrite E, (SynthesisFacts.mergeSteps_interrupted _ _ _ S).
    destruct agentResponse; congruence.
  - intros text E U. now apply (SynthesisFacts.fallback_unparseable _ text).
  - repeat split; repeat constructor.
Qed.

Lemma parseReviewerResponse_default_witness :
  Demo.prose <> JNull /\
  parseReviewerResponse (R := Demo.runtime) Demo.prose = Ret (JObj canonicalDefault) /\
  parseReviewerResponse (R := Demo.runtime) ReviewExample.interrupted = Ret (JObj defaultReview).
Proof.
  split; [discriminate |]. split.
  - refine (proj1 (proj2 (parseReviewerResponse_default (R := Demo.runtime) Demo.prose _)) _ _).
    + discriminate.
    + constructor.
    + reflexivity.
  - refine (proj1 (proj2 (proj2 (parseReviewerResponse_default (R := Demo.runtime)
                                   ReviewExample.interrupted _)))
                  [JObj [("type", JStr "reasoning")]] [] eq_refl _).
    + discriminate.
    + repeat constructor.
Defined.

(** C6, as stated, fails: on a response whose text is prose the record that
    comes back carries the conflict label "none detected", not the "None
    detected" of the default record; and on the response [null] the function
    raises instead of returning a record. *)
Lemma parseReviewerResponse_not_default :
  parseReviewerResponse (R := Demo.runtime) Demo.prose <> Ret (JObj defaultReview) /\
  Js.lookup "primary_conflict" defaultReview = Some (JStr "None detected") /\
  parseReviewerResponse (R := Demo.runtime) JNull = Throw.
Proof. repeat split. discriminate. Qed.

(** ** Objects *)

Module JsFacts.

Lemma lookup_set_same (k : string) (v : json) (fields : list (string * json)) :
  Js.lookup k (Js.set k v fields) = Some v.
Proof.
  induction fields as [|[k' v'] rest IH]; cbn.
  - now rewrite String.eqb_refl.
  - destruct (String.eqb k k') eqn:E; cbn; rewrite ?String.eqb_refl, ?E; auto.
Qed.

Lemma lookup_set_other (k k' : string) (v : json) (fields : list (string * json)) :
  String.eqb k k' = false ->
  Js.lookup k (Js.set k' v fields) = Js.lookup k fields.
Proof.
  intro N. induction fields as [|[k0 v0] rest IH]; cbn.
  - now rewrite N.
  - destruct (String.eqb k' k0) eqn:E; cbn.
    + apply String.eqb_eq in E. subst k0. now rewrite N.
    + destruct (String.eqb k k0); [reflexivity | exact IH].
Qed.

Lemma get_getOpt (v : json) (k : string) (r : option json) :
  Js.get v k = Ret r -> r = Js.getOpt (Some v) k.
Proof. destruct v; cbn; intro H; now inversion H. Qed.

End JsFacts.

(** ** The perspective worker: extraction *)

Module ExtractionFacts.
Import Server.

Section WithRuntime.
Context {R : JsRuntime}.

Lemma truthyOpt_orElse (a b : option json) :
  Js.truthyOpt (Js.orElse a b) = Js.truthyOpt a || Js.truthyOpt b.
Proof. unfold Js.orElse. destruct (Js.truthyOpt a) eqn:E; [exact E | reflexivity]. Qed.

Lemma expected_record (parsed : json) (result : option json) :
  expected parsed = Ret result -> Js.recordOrNull result.
Proof.
  unfold expected. destruct parsed; cbn; try (intro H; injection H as <-; exact I);
    try discriminate.
  rewrite truthyOpt_orElse.
  destruct (_ || _) eqn:E; intro H; injection H as <-; [exact E | exact I].
Qed.

Lemma parse_expected_record (text : string) (result : option json) :
  (parsed <- ofParse (JSON_parse text) ;; expected parsed) = Ret result ->
  Js.recordOrNull result.
Proof.
  destruct (JSON_parse text) as [parsed|]; cbn; [apply expected_record | discriminate].
Qed.

(** [parseCandidate] returns on every value, and what it returns is [null] or
    a record. *)
Lemma parseCandidate_total (text : json) :
  exists result, parseCandidate text = Ret result /\ Js.recordOrNull result.
Proof.
  unfold parseCandidate.
  destruct text as [| b | n | t | items | fields];
    try (exists None; split; [reflexivity | exact I]).
  destruct (parsed <- ofParse (JSON_parse (JsString.stripFences t)) ;; expected parsed)
    as [result|] eqn:E1; cbn [tryCatch].
  - exists result. split; [reflexivity | exact (parse_expected_record _ _ E1)].
  - destruct (JsString.matchBraces t) as [span|]; [| exists None; now split].
    destruct (parsed <- ofParse (JSON_parse span) ;; expected parsed)
      as [result|] eqn:E2; cbn [tryCatch].
    + exists result. split; [reflexivity | exact (parse_expected_record _ _ E2)].
    + exists None. now split.
Qed.

Lemma tryField_total (result v : option json) :
  Js.recordOrNull result ->
  exists result', tryField result v = Ret result' /\ Js.recordOrNull result'.
Proof.
  intro I0. unfold tryField.
  destruct (negb (Js.truthyOpt result) && Js.truthyOpt v); [| now exists result].
  destruct v as [v|]; [apply parseCandidate_total | now exists result].
Qed.

Lemma searchSteps_record (steps : list json) (result result' : option json) :
  Js.recordOrNull result -> searchSteps steps result = Ret result' ->
  Js.recordOrNull result'.
Proof.
  revert result. induction steps as [|step rest IH]; intros result I0.
  - cbn. intro H. now injection H as <-.
  - cbn [searchSteps]. destruct (Js.get step "type") as [ty|]; [| discriminate].
    cbn [bind]. destruct (Js.isStr ty "message_creation" && _); [| now apply IH].
    destruct (parseCandidate_total
                match Js.getOpt (Some step) "content" with
                | Some c => c
                | None => JNull
                end) as (found & Ef & If').
    rewrite Ef. cbn [bind].
    destruct (Js.truthyOpt found); [| now apply IH].
    intro H. now injection H as <-.
Qed.

(** The end of the chain, from strategy 4 on, started from [null] or a
    record. *)
Lemma strategyChain_end (agentResponse : json) (result : option json) :
  Js.recordOrNull result ->
  exists result',
    (result <-
       (if negb (Js.truthyOpt result)
        then parseCandidate (JStr (JSON_stringify agentResponse))
        else Ret result) ;;
     match result with
     | Some (JStr s) =>
         if Js.truthy (JStr s)
         then reParsed <- parseCandidate (JStr s) ;;
              if Js.truthyOpt reParsed then Ret reParsed else Ret result
         else Ret result
     | _ => Ret result
     end) = Ret result' /\ Js.recordOrNull result'.
Proof.
  intro I0.
  assert (E : exists found,
             (if negb (Js.truthyOpt result)
              then parseCandidate (JStr (JSON_stringify agentResponse))
              else Ret result) = Ret found /\ Js.recordOrNull found).
  { destruct (negb (Js.truthyOpt result)); [apply parseCandidate_total | now exists result]. }
  destruct E as (found & -> & If'). cbn [bind].
  destruct found as [[| | | s | |]|]; try (eexists; split; [reflexivity | exact If']).
  discriminate If'.
Qed.

(** Whatever the response, a result the chain returns is [null] or a
    record. *)
Lemma strategyChain_record (agentResponse : json) (result : option json) :
  strategyChain agentResponse = Ret result -> Js.recordOrNull result.
Proof.
  unfold strategyChain.
  destruct (Js.get agentResponse "output") as [output|]; [| discriminate].
  cbn [bind].
  destruct (tryField_total None output I) as (r1 & -> & I1). cbn [bind].
  destruct (tryField_total r1 (Js.getOpt (Some agentResponse) "message") I1)
    as (r2 & -> & I2). cbn [bind].
  destruct (tryField_total r2
              (Js.getOpt (Js.getOpt (Some agentResponse) "response") "message") I2)
    as (r3 & -> & I3). cbn [bind].
  destruct (tryField_total r3
              (Js.getOpt (Js.getOpt (Some agentResponse) "response") "output") I3)
    as (r4 & -> & I4). cbn [bind].
  destruct (if negb (Js.truthyOpt r4)
            then searchSteps (Js.stepsOf agentResponse) r4
            else Ret r4) as [r5|] eqn:E5; [| discriminate].
  assert (I5 : Js.recordOrNull r5).
  { destruct (negb (Js.truthyOpt r4)).
    - exact (searchSteps_record _ _ _ I4 E5).
    - now injection E5 as <-. }
  cbn [bind]. destruct (strategyChain_end agentResponse r5 I5) as (r6 & -> & I6).
  intro H. now injection H as <-.
Qed.

(** *** What the extraction returns *)

















(** A truthy result of the chain is an object. *)
Lemma strategyChain_object (agentResponse : json) (v : json) :
  strategyChain agentResponse = Ret (Some v) -> exists fields, v = JObj fields.
Proof.
  intro H. apply strategyChain_record in H. cbn in H.
  destruct v; try discriminate H. now eexists.
Qed.

End WithRuntime.
End ExtractionFacts.

(** ** The handler: computations over the session *)

Module SessionFacts.
Import Elasticsearch Server.

Section Frames.
Context {A X : Type} (f : session -> X).

Lemma frames_unit (v : A) : frames f (unit_ v).
Proof. intro st. reflexivity. Qed.

Lemma frames_raise : frames f (@raise A).
Proof. intro st. reflexivity. Qed.

Lemma frames_lift (c : completion A) : frames f (lift c).
Proof. intro st. reflexivity. Qed.

Lemma frames_update (g : session -> session) :
  (forall st, f (g st) = f st) -> frames f (update g).
Proof. intros H st. apply H. Qed.

Lemma frames_andThen {B} (m : M B) (k : B -> M A) :
  frames f m -> (forall v, frames f (k v)) -> frames f (andThen m k).
Proof.
  intros Hm Hk st. unfold andThen. specialize (Hm st).
  destruct (m st) as [st' [v|]]; cbn [fst] in *; [| exact Hm].
  now rewrite (Hk v st').
Qed.

Lemma frames_attempt (m h : M A) :
  frames f m -> frames f h -> frames f (attempt m h).
Proof.
  intros Hm Hh st. unfold attempt. specialize (Hm st).
  destruct (m st) as [st' [v|]]; cbn [fst] in *; [exact Hm |].
  now rewrite (Hh st').
Qed.

Lemma frames_read (m : session -> M A) :
  (forall st0, frames f (m st0)) -> frames f (fun st => m st st).
Proof. intros H st. apply H. Qed.

End Frames.

Section Total.
Context {A : Type}.

Lemma total_unit (v : A) : total (unit_ v).
Proof. intro st. now exists v. Qed.

Lemma total_update (g : session -> session) : total (update g).
Proof. intro st. now exists tt. Qed.

Lemma total_andThen {B} (m : M B) (k : B -> M A) :
  total m -> (forall v, total (k v)) -> total (andThen m k).
Proof.
  intros Hm Hk st. unfold andThen. destruct (Hm st) as [v Hv].
  destruct (m st) as [st' o]. cbn [snd] in Hv. subst o. apply Hk.
Qed.

Lemma total_attempt (m h : M A) : total h -> total (attempt m h).
Proof.
  intros Hh st. unfold attempt.
  destruct (m st) as [st' [v|]]; [now exists v | apply Hh].
Qed.

Lemma total_read (m : session -> M A) :
  (forall st0, total (m st0)) -> total (fun st => m st st).
Proof. intros H st. apply H. Qed.

End Total.

Lemma doneEvents_sendEvent (e : event) (st : session) :
  isDone e = false -> doneEvents (sendEvent e st) = doneEvents st.
Proof.
  intro H. unfold doneEvents. cbn. rewrite filter_app. cbn. rewrite H.
  apply app_nil_r.
Qed.

Lemma doneEvents_heartbeats (pings : list N) (st : session) :
  doneEvents (heartbeats pings st) = doneEvents st.
Proof.
  unfold doneEvents. cbn. rewrite filter_app.
  replace (filter isDone (map EPing pings)) with (@nil event); [apply app_nil_r |].
  induction pings; cbn; auto.
Qed.

Lemma frames_emit {X} (f : session -> X) (e : event) :
  (forall st, f (sendEvent e st) = f st) -> frames f (emit e).
Proof. intro H. now apply frames_update. Qed.

Lemma quiet_emit (e : event) : isDone e = false -> frames doneEvents (emit e).
Proof. intro H. apply frames_update. intro st. now apply doneEvents_sendEvent. Qed.

(** *** One worker *)

Section WithRuntime.
Context {R : JsRuntime}.

Lemma frames_pushConcepts {X} (f : session -> X) set_id feedbackId idx concepts :
  (forall c st, f (pushStage2 c st) = f st) ->
  frames f (pushConcepts set_id feedbackId idx concepts).
Proof.
  intro H. revert idx. induction concepts as [|c rest IH]; intro idx; cbn [pushConcepts].
  - apply frames_unit.
  - apply frames_andThen; [apply frames_lift |]. intro secondary.
    apply frames_andThen; [apply frames_update; intro; apply H |]. intros _. apply IH.
Qed.

Lemma quiet_accept set_id role now result :
  frames doneEvents (accept set_id role now result).
Proof.
  unfold accept. destruct (Js.truthyOpt result); [| apply frames_unit].
  destruct result as [[| | | | | fields]|]; try apply frames_raise.
  apply frames_andThen; [now apply frames_update |]. intros _.
  apply frames_andThen; [now apply frames_pushConcepts |]. intros _.
  apply frames_andThen; [now apply frames_update |]. intros _.
  apply frames_andThen; [| intros _]; intro st; now apply doneEvents_sendEvent.
Qed.

(** Whether or not the block runs to its end, the one record it can add to
    [stage1Results] is the tagged object. *)
Lemma accept_stage1 set_id role now result st :
  stage1Results (fst (accept set_id role now result st)) =
  (stage1Results st ++
   match result with
   | Some (JObj fields) => [JObj (tagged role now fields)]
   | _ => []
   end)%list.
Proof.
  unfold accept.
  destruct result as [[| b | n | s | items | fields]|]; cbn [Js.truthyOpt Js.truthy];
    try (now rewrite app_nil_r);
    try (match goal with |- context [if ?c then _ else _] => destruct c end;
         cbn; now rewrite app_nil_r).
  unfold andThen at 1, update at 1.
  match goal with
  | |- stage1Results (fst (?k ?st0)) = _ =>
      assert (F : frames stage1Results k); [| now rewrite (F st0)]
  end.
  apply frames_andThen; [now apply frames_pushConcepts |]. intros _.
  apply frames_andThen; [now apply frames_update |]. intros _.
  apply frames_andThen; [| intros _]; intro st0; reflexivity.
Qed.

Lemma attempt_unit {A} (m : M A) (v : A) (st : session) :
  fst (attempt m (unit_ v) st) = fst (m st) /\
  exists v', snd (attempt m (unit_ v) st) = Ret v'.
Proof.
  unfold attempt, unit_. destruct (m st) as [st' [v'|]]; cbn; eauto.
Qed.

Lemma analyzePerspective_stage1 set_id role r st :
  stage1Results (fst (analyzePerspective set_id role r st)) =
  (stage1Results st ++ primaryOf role r)%list.
Proof.
  unfold analyzePerspective. rewrite (proj1 (attempt_unit _ tt st)).
  unfold analyzePerspectiveTry, andThen, lift, primaryOf.
  destruct (extraction r) as [result|]; cbn [fst]; [| now rewrite app_nil_r].
  apply accept_stage1.
Qed.

(** A worker never lets an exception out. *)
Lemma analyzePerspective_total set_id role r : total (analyzePerspective set_id role r).
Proof. apply total_attempt, total_unit. Qed.

Lemma quiet_analyzePerspective set_id role r :
  frames doneEvents (analyzePerspective set_id role r).
Proof.
  apply frames_attempt; [| apply frames_unit].
  apply frames_andThen; [apply frames_lift | intro; apply quiet_accept].
Qed.

Lemma extraction_record (r : reply) (result : option json) :
  extraction r = Ret result -> Js.recordOrNull result.
Proof.
  unfold extraction.
  destruct (AgentBuilder.callAgentBuilderConverse (r_http r)); [| discriminate].
  apply ExtractionFacts.strategyChain_record.
Qed.

(** A worker adds one record when it does not fail, none when it fails. *)
Lemma primaryOf_length role r :
  List.length (primaryOf role r) = if workerFails r then 0 else 1.
Proof.
  unfold primaryOf, workerFails.
  destruct (extraction r) as [[v|]|] eqn:E; try reflexivity.
  apply extraction_record in E. cbn in E.
  destruct v; try discriminate E. reflexivity.
Qed.

Lemma primaryOf_objects role r :
  Forall (fun v => isNull v = false) (primaryOf role r).
Proof.
  unfold primaryOf. destruct (extraction r) as [[[]|]|]; repeat constructor.
Qed.

(** *** The fan-out *)

Lemma settle_total w roles : total (settle w roles).
Proof.
  induction roles as [|role rest IH]; cbn [settle]; [apply total_unit |].
  apply total_andThen; [apply total_update |]. intros _.
  apply total_andThen; [apply analyzePerspective_total |]. intros _. exact IH.
Qed.

Lemma quiet_settle w roles : frames doneEvents (settle w roles).
Proof.
  induction roles as [|role rest IH]; cbn [settle]; [apply frames_unit |].
  apply frames_andThen;
    [apply frames_update; intro; apply doneEvents_heartbeats |]. intros _.
  apply frames_andThen; [apply quiet_analyzePerspective |]. intros _. exact IH.
Qed.

(** The records of the fan-out are those of the workers that did not fail,
    in the order in which the calls settled. *)
Lemma settle_stage1 w roles st :
  stage1Results (fst (settle w roles st)) =
  (stage1Results st ++ flat_map (fun role => primaryOf role (w_converse w role)) roles)%list.
Proof.
  revert st. induction roles as [|role rest IH]; intro st; cbn [settle flat_map].
  - now rewrite app_nil_r.
  - unfold andThen at 1, update at 1.
    unfold andThen at 1.
    pose proof (analyzePerspective_stage1 (w_set_id w) role (w_converse w role)
                  (heartbeats (r_pings (w_converse w role)) st)) as E1.
    destruct (analyzePerspective_total (w_set_id w) role (w_converse w role)
                (heartbeats (r_pings (w_converse w role)) st)) as [[] T].
    destruct (analyzePerspective _ _ _ _) as [st1 o]. cbn [fst snd] in *. subst o.
    rewrite IH, E1. cbn. now rewrite <- app_assoc.
Qed.

End WithRuntime.
End SessionFacts.

Import Server.




(** ** The perspective worker: identities *)

Module IdentityFacts.
Import JsString Elasticsearch Server SessionFacts.
Local Open Scope list_scope.









Section WithRuntime.
Context {R : JsRuntime}.

Lemma conceptOf_null set_id feedbackId idx : conceptOf set_id feedbackId idx JNull = Throw.
Proof. reflexivity. Qed.






End WithRuntime.
End IdentityFacts.




(** ** The handler: fan-out, persistence, synthesis, completion *)

Module HandlerFacts.
Import Elasticsearch Server SessionFacts.

Lemma andThen_ret {A B} (m : M A) (k : A -> M B) st st' v :
  m st = (st', Ret v) -> andThen m k st = k v st'.
Proof. intro E. unfold andThen. now rewrite E. Qed.

Lemma andThen_throw {A B} (m : M A) (k : A -> M B) st st' :
  m st = (st', Throw) -> andThen m k st = (st', Throw).
Proof. intro E. unfold andThen. now rewrite E. Qed.

(** *** The order in which the calls settle *)

Lemma insertByLatency_perm (latency : string -> nat) (x : string) (l : list string) :
  Permutation (insertByLatency latency x l) (x :: l).
Proof.
  induction l as [|y l IH]; cbn; [reflexivity |].
  destruct (latency x <=? latency y)%nat; [reflexivity |].
  rewrite IH. apply perm_swap.
Qed.

Lemma sortByLatency_perm (latency : string -> nat) (l : list string) :
  Permutation (sortByLatency latency l) l.
Proof.
  induction l as [|x l IH]; cbn; [reflexivity |].
  rewrite insertByLatency_perm. now constructor.
Qed.

Lemma completionOrder_perm (w : world) : Permutation (completionOrder w) perspectives.
Proof. apply sortByLatency_perm. Qed.

(** *** Counting the records *)

Lemma filter_length_perm {A} (p : A -> bool) (l l' : list A) :
  Permutation l l' -> List.length (filter p l) = List.length (filter p l').
Proof.
  induction 1; cbn; auto.
  - destruct (p x); cbn; auto.
  - destruct (p x), (p y); reflexivity.
  - congruence.
Qed.

Section WithRuntime.
Context {R : JsRuntime}.

Lemma records_length (w : world) (roles : list string) :
  (List.length (flat_map (fun role => primaryOf role (w_converse w role)) roles) +
   List.length (filter (fun role => workerFails (w_converse w role)) roles) =
   List.length roles)%nat.
Proof.
  induction roles as [|role rest IH]; cbn [flat_map filter]; [reflexivity |].
  rewrite length_app, primaryOf_length.
  destruct (workerFails (w_converse w role)); cbn [List.length]; lia.
Qed.

Lemma records_objects (w : world) (roles : list string) :
  Forall (fun v => isNull v = false)
         (flat_map (fun role => primaryOf role (w_converse w role)) roles).
Proof.
  induction roles as [|role rest IH]; cbn [flat_map]; [constructor |].
  apply Forall_app. split; [apply primaryOf_objects | exact IH].
Qed.

(** A worker that fails leaves the shared variables as they were. *)
Lemma analyzePerspective_failed set_id role r st :
  workerFails r = true ->
  stage2Results (fst (analyzePerspective set_id role r st)) = stage2Results st.
Proof.
  intro F. unfold analyzePerspective. rewrite (proj1 (attempt_unit _ tt st)).
  unfold analyzePerspectiveTry, andThen, lift.
  unfold workerFails in F.
  destruct (extraction r) as [result|]; cbn [fst]; [| reflexivity].
  unfold accept. apply negb_true_iff in F. now rewrite F.
Qed.

Lemma settle_failed w roles st :
  Forall (fun role => workerFails (w_converse w role) = true) roles ->
  stage2Results (fst (settle w roles st)) = stage2Results st.
Proof.
  intro F. revert st. induction F as [|role rest Hrole _ IH]; intro st; [reflexivity |].
  cbn [settle].
  unfold andThen at 1, update at 1. unfold andThen at 1.
  pose proof (analyzePerspective_failed (w_set_id w) role (w_converse w role)
                (heartbeats (r_pings (w_converse w role)) st) Hrole) as E1.
  destruct (analyzePerspective_total (w_set_id w) role (w_converse w role)
              (heartbeats (r_pings (w_converse w role)) st)) as [[] T].
  destruct (analyzePerspective _ _ _ _) as [st1 o]. cbn [fst snd] in *. subst o.
  now rewrite IH, E1.
Qed.

(** *** Persistence *)

Lemma existsb_isNull (l : list json) :
  Forall (fun v => isNull v = false) l -> existsb isNull l = false.
Proof. induction 1 as [|v l Hv _ IH]; cbn; [reflexivity | now rewrite Hv]. Qed.

(** On records that are objects, [storeDocsToES] raises exactly when there
    is something to store and the bulk request does not go through. *)
Lemma storeDocsToES_outcome bulk stage1 stage2 stage3 :
  Forall (fun v => isNull v = false) stage1 ->
  snd (storeDocsToES bulk stage1 stage2 stage3) =
  if (List.length stage1 + List.length stage2 +
      (if Js.truthyOpt stage3 then 1 else 0) =? 0)%nat
  then Ret tt
  else if bulkSucceeds bulk then Ret tt else Throw.
Proof.
  intro O. unfold storeDocsToES. rewrite (existsb_isNull _ O).
  destruct (_ =? 0)%nat; [reflexivity |]. cbn [snd]. unfold bulkSucceeds.
  destruct bulk as [|status body]; [reflexivity |].
  destruct (Http.ok status); [| now destruct body].
  destruct body as [| raw | result]; try reflexivity. cbn.
  now destruct (bulkAccepted result) as [[]|].
Qed.

Lemma quiet_store bulk pings stage1 stage2 stage3 :
  frames doneEvents (awaitStore bulk pings stage1 stage2 stage3).
Proof.
  unfold awaitStore. destruct (storeDocsToES bulk stage1 stage2 stage3) as [requested outcome].
  apply frames_andThen; [| intros _; apply frames_lift].
  destruct requested; [| apply frames_unit].
  apply frames_update. intro. apply doneEvents_heartbeats.
Qed.

Lemma store_outcome bulk pings stage1 stage2 stage3 st :
  snd (awaitStore bulk pings stage1 stage2 stage3 st) =
  snd (storeDocsToES bulk stage1 stage2 stage3).
Proof.
  unfold awaitStore. destruct (storeDocsToES bulk stage1 stage2 stage3) as [requested outcome].
  unfold andThen, lift. now destruct requested.
Qed.

(** *** Synthesis *)

Lemma quiet_review w : frames doneEvents (review w).
Proof.
  intro st. unfold review.
  destruct (Reviewer.getReview (w_reviewer w) (stage1Results st)) as [calls outcome].
  revert st.
  apply frames_andThen.
  - destruct (0 <? calls)%nat; [| apply frames_unit].
    apply frames_update. intro. apply doneEvents_heartbeats.
  - intros _. apply frames_andThen; [apply frames_lift |]. intro stage3.
    apply frames_andThen; [apply quiet_store |]. intros _. now apply quiet_emit.
Qed.

Lemma quiet_synthesis w : frames doneEvents (synthesis w).
Proof.
  intro st. unfold synthesis.
  destruct (w_reviewerEnabled w && _); [| reflexivity].
  revert st. apply frames_andThen; [now apply quiet_emit |]. intros _.
  apply frames_attempt; [apply quiet_review | now apply quiet_emit].
Qed.

(** Whatever happens to the review, the block does not raise. *)
Lemma synthesis_total w : total (synthesis w).
Proof.
  intro st. unfold synthesis.
  destruct (w_reviewerEnabled w && _); [| now exists tt].
  revert st. apply total_andThen; [apply total_update |]. intros _.
  apply total_attempt, total_update.
Qed.

(** *** The whole request *)

Lemma quiet_persist w : frames doneEvents (persist w).
Proof. intro st. apply quiet_store. Qed.

Lemma filter_all {A} (p : A -> bool) (l : list A) :
  List.length (filter p l) = List.length l -> Forall (fun x => p x = true) l.
Proof.
  induction l as [|x l IH]; cbn; [constructor |].
  destruct (p x) eqn:E; cbn; intro H.
  - constructor; [exact E | apply IH; lia].
  - pose proof (filter_length_le p l). lia.
Qed.

(** The fan-out: it does not raise, and its records are those of the workers
    that did not fail, in completion order. *)
Lemma fanOut_outcome w :
  exists st2,
    fanOut w (started w) = (st2, Ret tt) /\
    doneEvents st2 = [] /\
    stage1Results st2 =
      flat_map (fun role => primaryOf role (w_converse w role)) (completionOrder w) /\
    (List.length (stage1Results st2) + failures w = 6)%nat /\
    (failures w = 6%nat -> stage2Results st2 = []).
Proof.
  unfold fanOut.
  pose proof (settle_stage1 w (completionOrder w) (started w)) as S1.
  pose proof (quiet_settle w (completionOrder w) (started w)) as Q.
  pose proof (fun F => settle_failed w (completionOrder w) (started w) F) as S2.
  destruct (settle_total w (completionOrder w) (started w)) as [[] T].
  destruct (settle w (completionOrder w) (started w)) as [st2 o].
  cbn [fst snd] in *. subst o. exists st2.
  assert (L : List.length (filter (fun role => workerFails (w_converse w role))
                                  (completionOrder w)) = failures w)
    by (apply filter_length_perm, completionOrder_perm).
  assert (L6 : List.length (completionOrder w) = 6%nat)
    by (rewrite (Permutation_length (completionOrder_perm w)); reflexivity).
  repeat split.
  - exact Q.
  - exact S1.
  - rewrite S1. cbn [started sendEvent stage1Results idle app].
    pose proof (records_length w (completionOrder w)). lia.
  - intro F. apply S2. apply filter_all. lia.
Qed.

(** The [try] block of the handler ends in one of two ways, decided by the
    bulk request that follows the fan-out: normally, its last action being
    to send [done]; or by the exception of that request.  No [done] was sent
    before that point. *)
Lemma analyzeTry_outcome w :
  exists st2 quietState,
    fanOut w (started w) = (st2, Ret tt) /\
    doneEvents quietState = [] /\
    ((snd (persist w st2) = Ret tt /\
      analyzeTry w idle = (sendEvent (EDone (w_set_id w)) quietState, Ret tt)) \/
     (snd (persist w st2) = Throw /\
      analyzeTry w idle = (quietState, Throw))).
Proof.
  destruct (fanOut_outcome w) as (st2 & E2 & Q2 & _).
  exists st2. unfold analyzeTry.
  rewrite (andThen_ret _ _ idle (sendEvent (EStart (w_set_id w) "l1") idle) tt eq_refl).
  rewrite (andThen_ret _ _ _ (started w) tt eq_refl).
  rewrite (andThen_ret _ _ _ _ _ E2).
  pose proof (quiet_persist w st2) as Q3.
  destruct (persist w st2) as [st3 [[]|]] eqn:E3; cbn [fst snd] in *.
  - rewrite (andThen_ret _ _ _ _ _ E3).
    pose proof (quiet_synthesis w st3) as Q4.
    destruct (synthesis_total w st3) as [[] T4].
    destruct (synthesis w st3) as [st4 o4] eqn:E4. cbn [fst snd] in *. subst o4.
    rewrite (andThen_ret _ _ _ _ _ E4).
    exists st4. split; [exact E2 |]. split; [congruence |]. left. now split.
  - rewrite (andThen_throw _ _ _ _ E3).
    exists st3. split; [exact E2 |]. split; [congruence |]. right. now split.
Qed.

(** Whether the bulk request after the fan-out raises: it does when there is
    a record to store and the request does not go through. *)
Lemma persist_outcome w st2 :
  fanOut w (started w) = (st2, Ret tt) ->
  snd (persist w st2) =
  if (failures w =? 6)%nat then Ret tt
  else if bulkSucceeds (w_bulk1 w) then Ret tt else Throw.
Proof.
  intro E2. destruct (fanOut_outcome w) as (st2' & E2' & _ & S1 & L & S2).
  assert (st2' = st2) by congruence. subst st2'.
  unfold persist. rewrite store_outcome, storeDocsToES_outcome
    by (rewrite S1; apply records_objects).
  cbn [Js.truthyOpt]. destruct (failures w =? 6)%nat eqn:F.
  - apply Nat.eqb_eq in F. rewrite (S2 F).
    replace (List.length (stage1Results st2)) with 0%nat by lia. reflexivity.
  - apply Nat.eqb_neq in F.
    destruct (_ =? 0)%nat eqn:Z; [apply Nat.eqb_eq in Z; lia | reflexivity].
Qed.

(** The events of an accepted submission. *)
Lemma analyze_events w text :
  accepted text = true ->
  exists before,
    filter isDone before = [] /\
    analyze w (Some (JStr text)) =
    Stream (before ++
            [if (failures w =? 6)%nat || bulkSucceeds (w_bulk1 w)
             then EDone (w_set_id w) else EError Caught]).
Proof.
  intro A. unfold accepted in A. apply negb_true_iff in A.
  unfold analyze. rewrite A.
  destruct (analyzeTry_outcome w) as (st2 & q & E2 & Q & [[P E] | [P E]]);
    rewrite (persist_outcome w st2 E2) in P;
    unfold attempt; rewrite E; exists (sent q); (split; [exact Q |]);
    cbn [fst sent sendEvent emit update];
    destruct (failures w =? 6)%nat; cbn [orb];
    try destruct (bulkSucceeds (w_bulk1 w)); try discriminate P; reflexivity.
Qed.

End WithRuntime.
End HandlerFacts.

(** C1, as amended.  For every accepted submission the stream holds at most
    one [done] event.  When the bulk request that follows the fan-out does
    not fail -- and it cannot fail when the six workers failed, nothing being
    sent -- the stream ends with its one [done] event, whatever the workers,
    the reviewer and the second bulk request did.  When that request fails,
    the stream ends with the session-level [error] event and holds no
    [done]. *)
Theorem analyze_done {R : JsRuntime} (w : world) (text : string) :
  accepted text = true ->
  exists before,
    filter isDone before = [] /\
    (failures w = 6%nat \/ Elasticsearch.bulkSucceeds (w_bulk1 w) = true ->
     analyze w (Some (JStr text)) = Stream (before ++ [EDone (w_set_id w)])) /\
    (failures w <> 6%nat -> Elasticsearch.bulkSucceeds (w_bulk1 w) = false ->
     analyze w (Some (JStr text)) = Stream (before ++ [EError Caught])).
Proof.
  intro A. destruct (HandlerFacts.analyze_events w text A) as (before & Q & E).
  exists before. split; [exact Q |]. split.
  - intros [F | B]; rewrite E.
    + apply Nat.eqb_eq in F. now rewrite F.
    + rewrite B. now rewrite orb_true_r.
  - intros F B. rewrite E. apply Nat.eqb_neq in F. now rewrite F, B.
Qed.

Lemma analyze_done_witness :
  accepted "My favorite party trick is not attending parties." = true /\
  exists before,
    filter isDone before = [] /\
    analyze (R := Demo.runtime) (Demo.world_with Demo.bulkOk) Demo.line =
    Stream (before ++ [EDone "set-1"]).
Proof.
  split; [reflexivity |].
  destruct (analyze_done (R := Demo.runtime) (Demo.world_with Demo.bulkOk)
              "My favorite party trick is not attending parties." eq_refl)
    as (before & Q & D & _).
  exists before. split; [exact Q |]. apply D. right. reflexivity.
Defined.

(** C1, as stated, fails: four workers succeed, the bulk request that
    follows the fan-out is rejected by the network, and the stream ends with
    [error] without any [done]. *)
Lemma analyze_without_done :
  match analyze (R := Demo.runtime) (Demo.world_with NetworkError) Demo.line with
  | Stream events =>
      filter isDone events = [] /\ last events (EDone "") = EError Caught
  | BadRequest => False
  end.
Proof. vm_compute. split; reflexivity. Qed.

(** C3, as amended.  Whatever each of the six calls does, the fan-out does
    not raise; the calls settle in some order of the six perspectives; the
    records accumulated are exactly those of the workers that did not fail,
    each built from that worker's own answer, so that with [F] failures
    there are [6 - F] of them; and, when the bulk request that follows the
    fan-out goes through, the stream ends with its one [done] event. *)
Theorem fanOut_isolates_failures {R : JsRuntime} (w : world) (text : string) :
  accepted text = true ->
  exists st2 before,
    fanOut w (started w) = (st2, Ret tt) /\
    Permutation (completionOrder w) perspectives /\
    stage1Results st2 =
      flat_map (fun role => primaryOf role (w_converse w role)) (completionOrder w) /\
    failures w <= 6 /\
    List.length (stage1Results st2) = 6 - failures w /\
    filter isDone before = [] /\
    (Elasticsearch.bulkSucceeds (w_bulk1 w) = true ->
     analyze w (Some (JStr text)) = Stream (before ++ [EDone (w_set_id w)])).
Proof.
  intro A.
  destruct (HandlerFacts.fanOut_outcome w) as (st2 & E2 & _ & S1 & L & _).
  destruct (HandlerFacts.analyze_events w text A) as (before & Q & E).
  exists st2, before. repeat split; try assumption; try lia.
  - apply HandlerFacts.completionOrder_perm.
  - intro B. rewrite E, B. now rewrite orb_true_r.
Qed.

Lemma fanOut_isolates_failures_witness :
  accepted "My favorite party trick is not attending parties." = true /\
  failures (R := Demo.runtime) (Demo.world_with Demo.bulkOk) = 2 /\
  exists st2,
    fanOut (R := Demo.runtime) (Demo.world_with Demo.bulkOk)
           (started (Demo.world_with Demo.bulkOk)) = (st2, Ret tt) /\
    List.length (stage1Results st2) = 6 - 2.
Proof.
  split; [reflexivity |]. split; [reflexivity |].
  destruct (fanOut_isolates_failures (R := Demo.runtime) (Demo.world_with Demo.bulkOk)
              "My favorite party trick is not attending parties." eq_refl)
    as (st2 & before & E & _ & _ & _ & L & _).
  exists st2. split; [exact E | exact L].
Defined.

(** C3, as stated, fails on its last part: with two failures out of six and
    a bulk request answered by a 503, four records are accumulated and no
    [done] event is sent. *)
Lemma fanOut_without_done :
  failures (R := Demo.runtime) (Demo.world_with (HttpResponse 503 EmptyBody)) = 2 /\
  match analyze (R := Demo.runtime) (Demo.world_with (HttpResponse 503 EmptyBody))
                Demo.line with
  | Stream events => filter isDone events = []
  | BadRequest => False
  end.
Proof. vm_compute. split; reflexivity. Qed.

(** ** The history *)

Module HistoryFacts.
Import Elasticsearch.

(** *** Slices and pages *)

Lemma slice_window {A} (l : list A) (offset limit : Z) :
  (0 <= offset)%Z -> (0 <= limit)%Z ->
  slice offset (offset + limit) l =
  firstn (Z.to_nat limit) (skipn (Z.to_nat offset) l).
Proof.
  intros Ho Hl. unfold slice, clamp.
  destruct (Z.ltb_spec offset 0) as [|_]; [lia |].
  destruct (Z.ltb_spec (offset + limit) 0) as [|_]; [lia |].
  remember (List.length l) as len eqn:El.
  destruct (Z.le_gt_cases (Z.of_nat len) offset) as [Out | In_].
  - assert (S1 : skipn (Z.to_nat offset) l = []) by (apply skipn_all2; lia).
    rewrite S1, firstn_nil.
    replace (Z.to_nat _) with 0%nat by lia. reflexivity.
  - replace (Z.to_nat (Z.min offset (Z.of_nat len))) with (Z.to_nat offset) by lia.
    pose proof (length_skipn (Z.to_nat offset) l) as L.
    destruct (Z.le_gt_cases (offset + limit) (Z.of_nat len)) as [Fit | Over].
    + f_equal. lia.
    + rewrite !firstn_all2; [reflexivity | lia | lia].
Qed.

Lemma firstn_plus {A} (a b : nat) (l : list A) :
  firstn (a + b) l = (firstn a l ++ firstn b (skipn a l))%list.
Proof.
  revert l. induction a as [|a IH]; intro l; [reflexivity |].
  destruct l as [|x l]; cbn; [now rewrite firstn_nil | now rewrite IH].
Qed.

Lemma page_window {A} (limit : nat) (l : list A) (k : nat) :
  page limit l k = firstn limit (skipn (k * limit) l).
Proof.
  unfold page. rewrite slice_window by lia. now rewrite !Nat2Z.id.
Qed.

Lemma pages_prefix {A} (limit n : nat) (l : list A) :
  List.concat (map (page limit l) (seq 0 n)) = firstn (n * limit) l.
Proof.
  induction n as [|n IH]; [reflexivity |].
  rewrite seq_S, map_app, concat_app, IH. cbn [map List.concat plus].
  rewrite app_nil_r, page_window.
  replace (S n * limit)%nat with (n * limit + limit)%nat by lia.
  symmetry. apply firstn_plus.
Qed.

Lemma pages_complete {A} (limit n : nat) (l : list A) :
  List.length l <= n * limit ->
  List.concat (map (page limit l) (seq 0 n)) = l.
Proof. intro H. rewrite pages_prefix. now apply firstn_all2. Qed.

Lemma in_firstn {A} (n : nat) (l : list A) (x : A) : In x (firstn n l) -> In x l.
Proof.
  intro H. rewrite <- (firstn_skipn n l). apply in_or_app. now left.
Qed.

Lemma in_skipn {A} (n : nat) (l : list A) (x : A) : In x (skipn n l) -> In x l.
Proof.
  intro H. rewrite <- (firstn_skipn n l). apply in_or_app. now right.
Qed.

Lemma in_slice {A} (start stop : Z) (l : list A) (x : A) :
  In x (slice start stop l) -> In x l.
Proof. unfold slice. intro H. now apply in_firstn, in_skipn in H. Qed.

Lemma slice_length {A} (start stop : Z) (l : list A) :
  List.length (slice start stop l) <= List.length l.
Proof. unfold slice. rewrite length_firstn, length_skipn. lia. Qed.

Section Sorted.
Context {A : Type} (before : A -> A -> Prop).

Lemma StronglySorted_skipn (n : nat) (l : list A) :
  StronglySorted before l -> StronglySorted before (skipn n l).
Proof.
  revert l. induction n as [|n IH]; intros l H; [exact H |].
  destruct l as [|x l]; [exact H |]. apply IH. now inversion H.
Qed.

Lemma StronglySorted_firstn (n : nat) (l : list A) :
  StronglySorted before l -> StronglySorted before (firstn n l).
Proof.
  revert l. induction n as [|n IH]; intros l H; [constructor |].
  destruct l as [|x l]; [constructor |].
  inversion H as [|? ? Hl Hx]; subst. cbn. constructor; [now apply IH |].
  rewrite Forall_forall in *. intros y Hy. apply Hx. now apply in_firstn in Hy.
Qed.

Lemma StronglySorted_slice (start stop : Z) (l : list A) :
  StronglySorted before l -> StronglySorted before (slice start stop l).
Proof. intro H. unfold slice. now apply StronglySorted_firstn, StronglySorted_skipn. Qed.

End Sorted.

Lemma NoDup_app_disjoint {A} (l1 l2 : list A) (x : A) :
  NoDup (l1 ++ l2) -> In x l1 -> In x l2 -> False.
Proof.
  induction l1 as [|y l1 IH]; cbn; [tauto |].
  intros H [-> | H1] H2; inversion H; subst.
  - match goal with N : ~ In _ _ |- _ => apply N end. apply in_or_app. now right.
  - now apply IH.
Qed.

Lemma mapM_Forall2 {A B} (f : A -> completion B) (l : list A) (ys : list B) :
  mapM f l = Ret ys -> Forall2 (fun x y => f x = Ret y) l ys.
Proof.
  revert ys. induction l as [|x l IH]; intros ys; cbn.
  - intro H. injection H as <-. constructor.
  - destruct (f x) as [y|] eqn:Ex; [| discriminate]. cbn.
    destruct (mapM f l) as [ys'|]; [| discriminate]. cbn.
    intro H. injection H as <-. constructor; [exact Ex | now apply IH].
Qed.

Lemma Forall2_image {A B} (P : A -> B -> Prop) (l : list A) (ys : list B) :
  Forall2 P l ys -> Forall (fun y => exists x, In x l /\ P x y) ys.
Proof.
  induction 1 as [|x y l ys Hxy _ IH]; constructor.
  - exists x. split; [now left | exact Hxy].
  - eapply Forall_impl; [| exact IH]. intros y' (x' & I' & P'). exists x'.
    split; [now right | exact P'].
Qed.

(** *** Sorting by recency *)

Section WithRuntime.
Context {R : JsRuntime}.

Lemma insertByRecency_perm (x : historyItem) (l : list historyItem) :
  Permutation (insertByRecency x l) (x :: l).
Proof.
  induction l as [|y l IH]; cbn; [reflexivity |].
  destruct (staysBefore x y); [reflexivity |].
  rewrite IH. apply perm_swap.
Qed.

Lemma sortByRecency_perm (l : list historyItem) : Permutation (sortByRecency l) l.
Proof.
  induction l as [|x l IH]; cbn; [reflexivity |].
  rewrite insertByRecency_perm. now constructor.
Qed.

Lemma staysBefore_valid (a b : historyItem) :
  validDate a -> validDate b -> staysBefore a b = (timeOf b <=? timeOf a)%Z.
Proof.
  unfold validDate, staysBefore, byRecency, timeOf. intros Va Vb.
  destruct (Date_getTime (h_created_at b)) as [tb|]; [| congruence].
  destruct (Date_getTime (h_created_at a)) as [ta|]; [| congruence].
  destruct (Z.leb_spec (tb - ta) 0), (Z.leb_spec tb ta); try reflexivity; lia.
Qed.

Lemma insertByRecency_sorted (x : historyItem) (l : list historyItem) :
  validDate x -> Forall validDate l ->
  StronglySorted newerFirst l -> StronglySorted newerFirst (insertByRecency x l).
Proof.
  intros Vx Vl S. induction S as [|y l Sl IH Hy]; cbn.
  - repeat constructor.
  - inversion Vl as [|? ? Vy Vl']; subst.
    rewrite (staysBefore_valid x y Vx Vy).
    destruct (Z.leb_spec (timeOf y) (timeOf x)) as [L | G].
    + constructor; [now constructor |].
      constructor; [exact L |].
      eapply Forall_impl; [| exact Hy]. unfold newerFirst. intros z Hz. lia.
    + constructor; [now apply IH |].
      rewrite (insertByRecency_perm x l).
      constructor; [unfold newerFirst; lia | exact Hy].
Qed.

Lemma sortByRecency_sorted (l : list historyItem) :
  Forall validDate l -> StronglySorted newerFirst (sortByRecency l).
Proof.
  induction 1 as [|x l Vx Vl IH]; cbn; [constructor |].
  apply insertByRecency_sorted; [exact Vx | | exact IH].
  now rewrite (sortByRecency_perm l).
Qed.

(** *** [fetchHistory] *)

(** When the response carries buckets, the complete listing is made of one
    entry per bucket, sorted. *)
Lemma allItems_buckets (data : json) (all : list historyItem) :
  allItems data = Ret (Some all) ->
  exists items,
    mapM historyItemOf (bucketsOf "unique_sets" data) = Ret items /\
    all = sortByRecency items.
Proof.
  unfold allItems, bucketsOf.
  destruct (Js.get data "aggregations") as [aggs|] eqn:G; [| discriminate].
  apply JsFacts.get_getOpt in G. subst aggs. cbn [bind].
  destruct (Js.getOpt _ "buckets") as [[| | | | buckets |]|]; cbn;
    try discriminate;
    try (match goal with |- context [if ?c then _ else _] => destruct c end;
         discriminate).
  destruct (mapM historyItemOf buckets) as [items|]; [| discriminate].
  cbn. intro H. injection H as <-. now exists items.
Qed.

Lemma fetchHistory_listing (es : store) (status : nat) (data : json)
      (all : list historyItem) (limit offset : Z) :
  esRequest (es (CompositeSetIds 1000)) = Ret (status, data) ->
  allItems data = Ret (Some all) ->
  fetchHistory es limit offset =
  Ret (slice offset (offset + limit) all, List.length all).
Proof. intros E A. unfold fetchHistory. rewrite E. cbn. now rewrite A. Qed.

End WithRuntime.
End HistoryFacts.

Import Elasticsearch.

(** C8.  When the store answers the history aggregation with buckets whose
    dates are valid, [fetchHistory(limit, offset)] returns the slice
    [offset, offset + limit) of one listing, together with its length: the
    listing has one entry per bucket and is sorted by recency, most recent
    first, and so is every slice; successive pages of [limit] entries,
    concatenated, give the listing back, entry for entry.  Over a history of
    five, the calls with limit 2 and offsets 0 and 2 return the first two
    pages, which with the third make up the whole listing, and which share
    no analysis when the buckets are distinct. *)
Theorem fetchHistory_pages {R : JsRuntime} (es : store) (status : nat) (data : json)
        (all : list historyItem) :
  esRequest (es (CompositeSetIds 1000)) = Ret (status, data) ->
  allItems data = Ret (Some all) ->
  Forall validDate all ->
  (forall limit offset : Z,
     fetchHistory es limit offset =
     Ret (slice offset (offset + limit) all, List.length all)) /\
  (exists items,
     mapM historyItemOf (bucketsOf "unique_sets" data) = Ret items /\
     Permutation all items) /\
  StronglySorted newerFirst all /\
  (forall limit offset : Z,
     StronglySorted newerFirst (slice offset (offset + limit) all)) /\
  (forall limit pages : nat,
     List.length all <= pages * limit ->
     List.concat (map (page limit all) (seq 0 pages)) = all) /\
  (List.length all = 5 ->
   fetchHistory es 2 0 = Ret (page 2 all 0, 5) /\
   fetchHistory es 2 2 = Ret (page 2 all 1, 5) /\
   (page 2 all 0 ++ page 2 all 1 ++ page 2 all 2)%list = all /\
   (NoDup (map h_set_id all) ->
    forall x y, In x (page 2 all 0) -> In y (page 2 all 1) ->
                h_set_id x <> h_set_id y)).
Proof.
  intros E A V.
  destruct (HistoryFacts.allItems_buckets data all A) as (items & M & S).
  assert (P : Permutation all items)
    by (subst all; apply HistoryFacts.sortByRecency_perm).
  assert (Sorted_ : StronglySorted newerFirst all).
  { subst all. apply HistoryFacts.sortByRecency_sorted.
    now rewrite <- (HistoryFacts.sortByRecency_perm items). }
  assert (Pages : forall limit pages : nat,
             List.length all <= pages * limit ->
             List.concat (map (page limit all) (seq 0 pages)) = all)
    by (intros; now apply HistoryFacts.pages_complete).
  split; [intros; now apply (HistoryFacts.fetchHistory_listing es status data) |].
  split; [now exists items |].
  split; [exact Sorted_ |].
  split; [intros; now apply HistoryFacts.StronglySorted_slice |].
  split; [exact Pages |].
  intro L5.
  assert (C : (page 2 all 0 ++ page 2 all 1 ++ page 2 all 2)%list = all).
  { rewrite <- (Pages 2 3) at 4 by lia. cbn. now rewrite app_nil_r. }
  rewrite !(HistoryFacts.fetchHistory_listing es status data all _ _ E A), L5.
  repeat split; try exact C.
  intros N x y Hx Hy Eq. rewrite <- C, !map_app in N.
  apply (HistoryFacts.NoDup_app_disjoint _ _ (h_set_id x) N).
  - now apply in_map.
  - apply in_or_app. left. rewrite Eq. now apply in_map.
Qed.

Lemma fetchHistory_pages_witness :
  esRequest (Demo.es true (CompositeSetIds 1000)) = Ret (200, Demo.historyData) /\
  allItems (R := Demo.runtime) Demo.historyData = Ret (Some Demo.history) /\
  Forall (validDate (R := Demo.runtime)) Demo.history /\
  fetchHistory (R := Demo.runtime) (Demo.es true) 2 0 =
    Ret (firstn 2 Demo.history, 5) /\
  fetchHistory (R := Demo.runtime) (Demo.es true) 2 2 =
    Ret (firstn 2 (skipn 2 Demo.history), 5).
Proof.
  assert (V : Forall (validDate (R := Demo.runtime)) Demo.history)
    by (repeat constructor; discriminate).
  split; [reflexivity |]. split; [reflexivity |]. split; [exact V |].
  destruct (fetchHistory_pages (R := Demo.runtime) (Demo.es true) 200
              Demo.historyData Demo.history eq_refl eq_refl V)
    as (_ & _ & _ & _ & _ & Five).
  destruct (Five eq_refl) as (P0 & P1 & _).
  split; [exact P0 | exact P1].
Defined.

(** ** The store of the examples *)

Module DemoFacts.

Lemma es_honoursCompositeSize (semantic : bool) : honoursCompositeSize (Demo.es semantic).
Proof.
  intros size status data H. cbn in H. injection H as _ <-.
  unfold bucketsOf. cbn. rewrite length_firstn. lia.
Qed.

Lemma termsBucket_key (a : string * string * string) :
  Js.getOpt (Some (Demo.termsBucket a)) "key" = Some (JStr (fst (fst a))).
Proof. now destruct a as [[set_id line] created]. Qed.

Lemma similar_buckets_kept (size : Z) (x : string) :
  Forall (fun bucket => Js.getOpt (Some bucket) "key" <> Some (JStr x))
         (firstn (Z.to_nat size)
                 (map Demo.termsBucket (filter (Demo.kept (Some x)) Demo.analyses))).
Proof.
  apply Forall_forall. intros bucket Hb.
  apply HistoryFacts.in_firstn, in_map_iff in Hb as (a & <- & Ha).
  apply filter_In in Ha as [_ K]. rewrite termsBucket_key.
  cbn in K. apply negb_true_iff, String.eqb_neq in K. congruence.
Qed.

Lemma es_honoursMustNot (semantic : bool) : honoursMustNot (Demo.es semantic).
Proof.
  intros q x status data Hq H.
  destruct q as [size | text size must_not | text size must_not]; cbn in Hq;
    [discriminate | subst must_not ..].
  - destruct semantic; cbn in H; [| discriminate].
    injection H as _ <-. apply similar_buckets_kept.
  - cbn in H. injection H as _ <-. apply similar_buckets_kept.
Qed.

End DemoFacts.

(** C10.  The history aggregation is asked for 1000 buckets and nothing
    more is ever requested.  With a store that honours that size, the total
    [fetchHistory] reports never exceeds 1000, and whatever the limit and
    the offset every entry it lists is made from one of the buckets of that
    single answer: an analysis the store left out of it is never listed. *)
Theorem fetchHistory_capped {R : JsRuntime} (es : store) (limit offset : Z)
        (items : list historyItem) (total : nat) :
  honoursCompositeSize es ->
  fetchHistory es limit offset = Ret (items, total) ->
  total <= 1000 /\
  List.length items <= total /\
  exists status data,
    esRequest (es (CompositeSetIds 1000)) = Ret (status, data) /\
    List.length (bucketsOf "unique_sets" data) <= 1000 /\
    Forall (fun item =>
              exists bucket,
                In bucket (bucketsOf "unique_sets" data) /\
                historyItemOf bucket = Ret item)
           items.
Proof.
  intros H F. unfold fetchHistory in F.
  destruct (esRequest (es (CompositeSetIds 1000))) as [[status data]|] eqn:E;
    [| discriminate F].
  pose proof (H 1000 status data E) as Cap. cbn [bind snd] in F.
  destruct (allItems data) as [[all|]|] eqn:A; [| | discriminate F]; cbn in F;
    injection F as <- <-.
  - destruct (HistoryFacts.allItems_buckets data all A) as (entries & M & S).
    apply HistoryFacts.mapM_Forall2 in M.
    pose proof (Forall2_length M) as L.
    pose proof (Permutation_length (HistoryFacts.sortByRecency_perm entries)) as PL.
    subst all. repeat split.
    + lia.
    + apply HistoryFacts.slice_length.
    + exists status, data. repeat split; [exact Cap |].
      apply Forall_forall. intros item Hi.
      apply HistoryFacts.in_slice in Hi.
      apply (Permutation_in _ (HistoryFacts.sortByRecency_perm entries)) in Hi.
      pose proof (HistoryFacts.Forall2_image _ _ _ M) as Img.
      rewrite Forall_forall in Img. exact (Img item Hi).
  - repeat split; [lia | reflexivity |].
    exists status, data. repeat split; [exact Cap | constructor].
Qed.

Lemma fetchHistory_capped_witness :
  honoursCompositeSize (Demo.es true) /\
  fetchHistory (R := Demo.runtime) (Demo.es true) 2 0 =
    Ret (firstn 2 Demo.history, 5) /\
  5 <= 1000.
Proof.
  split; [apply DemoFacts.es_honoursCompositeSize |].
  split; [reflexivity |].
  exact (proj1 (fetchHistory_capped (R := Demo.runtime) (Demo.es true) 2 0
                  (firstn 2 Demo.history) 5
                  (DemoFacts.es_honoursCompositeSize true) eq_refl)).
Defined.

(** ** Similar jokes *)

Module SimilarFacts.

Lemma jokesOf_keys (callback : json -> completion similarJoke) (data : json)
      (results : list similarJoke) :
  (forall bucket joke,
     callback bucket = Ret joke -> s_set_id joke = Js.getOpt (Some bucket) "key") ->
  jokesOf callback (Js.getOpt (Some data) "aggregations") = Ret results ->
  Forall (fun joke =>
            exists bucket,
              In bucket (bucketsOf "unique_jokes" data) /\
              s_set_id joke = Js.getOpt (Some bucket) "key")
         results.
Proof.
  intros K. unfold jokesOf, bucketsOf.
  destruct (Js.getOpt _ "buckets") as [[| | | | buckets |]|]; cbn;
    try (intro H; injection H as <-; constructor);
    try discriminate;
    try (match goal with |- context [if ?c then _ else _] => destruct c end;
         intro H; [discriminate H | injection H as <-; constructor]).
  intro M. apply HistoryFacts.mapM_Forall2, HistoryFacts.Forall2_image in M.
  eapply Forall_impl; [| exact M].
  intros joke (bucket & I & C). exists bucket. split; [exact I | now apply K].
Qed.

Lemma semanticJokeOf_key (bucket : json) (joke : similarJoke) :
  semanticJokeOf bucket = Ret joke -> s_set_id joke = Js.getOpt (Some bucket) "key".
Proof.
  unfold semanticJokeOf. destruct (Js.get bucket "sample"); [| discriminate].
  cbn. intro H. now injection H as <-.
Qed.

Lemma lexicalJokeOf_key (bucket : json) (joke : similarJoke) :
  lexicalJokeOf bucket = Ret joke -> s_set_id joke = Js.getOpt (Some bucket) "key".
Proof.
  unfold lexicalJokeOf. destruct (Js.get bucket "sample"); [| discriminate].
  cbn. intro H. now injection H as <-.
Qed.

Lemma mustNot_supplied (x : string) : x <> "" -> mustNot (Some x) = Some x.
Proof. intro N. unfold mustNot. apply String.eqb_neq in N. now rewrite N. Qed.

(** The jokes made from the answer to a query that excludes [x]. *)
Lemma excluded_jokes (es : store) (q : esQuery) (x : string) (status : nat)
      (data : json) (callback : json -> completion similarJoke)
      (results : list similarJoke) :
  honoursMustNot es ->
  mustNotOf q = Some x ->
  esRequest (es q) = Ret (status, data) ->
  (forall bucket joke,
     callback bucket = Ret joke -> s_set_id joke = Js.getOpt (Some bucket) "key") ->
  jokesOf callback (Js.getOpt (Some data) "aggregations") = Ret results ->
  Forall (fun joke => s_set_id joke <> Some (JStr x)) results.
Proof.
  intros H Q E K J.
  pose proof (H q x status data Q E) as B. rewrite Forall_forall in B.
  eapply Forall_impl; [| exact (jokesOf_keys callback data results K J)].
  intros joke (bucket & I & ->). now apply B.
Qed.

Lemma fallback_excludes (es : store) (line_text : string) (limit : Z) (x : string)
      (results : list similarJoke) :
  honoursMustNot es -> x <> "" ->
  findSimilarJokesFallback es line_text limit (Some x) = Ret results ->
  Forall (fun joke => s_set_id joke <> Some (JStr x)) results.
Proof.
  intros H N. unfold findSimilarJokesFallback. rewrite (mustNot_supplied x N).
  destruct (esRequest (es (SimilarMoreLikeThis line_text limit (Some x))))
    as [[status data]|] eqn:E; [| discriminate].
  cbn [bind snd].
  destruct (Js.get data "aggregations") as [aggs|] eqn:G; [| discriminate].
  apply JsFacts.get_getOpt in G. subst aggs. cbn [bind].
  apply (excluded_jokes es (SimilarMoreLikeThis line_text limit (Some x)) x status data
           lexicalJokeOf results H eq_refl E).
  apply lexicalJokeOf_key.
Qed.

End SimilarFacts.

(** C9.  When an [excludeSetId] is supplied, both searches carry it as a
    [must_not] term; with a store that honours that term, no entry of the
    result of [findSimilarJokes] has that [set_id], whether the result comes
    from the semantic search or from the lexical fallback, and the same
    holds for the fallback called on its own. *)
Theorem findSimilarJokes_excludes (es : store) (line_text : string) (limit : Z)
        (x : string) :
  honoursMustNot es ->
  x <> "" ->
  (forall results,
     findSimilarJokes es line_text limit (Some x) = Ret results ->
     Forall (fun joke => s_set_id joke <> Some (JStr x)) results) /\
  (forall results,
     findSimilarJokesFallback es line_text limit (Some x) = Ret results ->
     Forall (fun joke => s_set_id joke <> Some (JStr x)) results) /\
  mustNotOf (SimilarSemantic line_text limit (mustNot (Some x))) = Some x /\
  mustNotOf (SimilarMoreLikeThis line_text limit (mustNot (Some x))) = Some x.
Proof.
  intros H N.
  assert (F : forall results,
             findSimilarJokesFallback es line_text limit (Some x) = Ret results ->
             Forall (fun joke => s_set_id joke <> Some (JStr x)) results)
    by (intro; now apply SimilarFacts.fallback_excludes).
  split; [| split; [exact F |]].
  2: { cbn [mustNotOf]. rewrite (SimilarFacts.mustNot_supplied x N). now split. }
  intro results. unfold findSimilarJokes. cbv zeta.
  rewrite (SimilarFacts.mustNot_supplied x N).
  destruct (esRequest (es (SimilarSemantic line_text limit (Some x))))
    as [[status data]|] eqn:E; [| apply F].
  destruct (negb (status =? 200)%nat); [apply F |].
  destruct (Js.get data "aggregations") as [aggs|] eqn:G; [| apply F].
  apply JsFacts.get_getOpt in G. subst aggs.
  destruct (negb (Js.truthyOpt _)); [apply F |].
  destruct (jokesOf semanticJokeOf (Js.getOpt (Some data) "aggregations"))
    as [found|] eqn:J; cbn [tryCatch]; [| apply F].
  intro R. injection R as <-.
  apply (SimilarFacts.excluded_jokes es (SimilarSemantic line_text limit (Some x)) x
           status data semanticJokeOf found
           H eq_refl E SimilarFacts.semanticJokeOf_key J).
Qed.

Lemma findSimilarJokes_excludes_witness :
  honoursMustNot (Demo.es true) /\
  "set-b" <> "" /\
  map s_set_id
      (match findSimilarJokes (Demo.es true) "Line B" 5 (Some "set-b") with
       | Ret results => results
       | Throw => []
       end) =
    [Some (JStr "set-a"); Some (JStr "set-c"); Some (JStr "set-d"); Some (JStr "set-e")] /\
  Forall (fun joke => s_set_id joke <> Some (JStr "set-b"))
         (match findSimilarJokes (Demo.es false) "Line B" 5 (Some "set-b") with
          | Ret results => results
          | Throw => []
          end).
Proof.
  split; [apply DemoFacts.es_honoursMustNot |].
  split; [discriminate |]. split; [reflexivity |].
  assert (N : "set-b" <> "") by discriminate.
  destruct (findSimilarJokes_excludes (Demo.es false) "Line B" 5 "set-b"
              (DemoFacts.es_honoursMustNot false) N) as (P & _).
  destruct (findSimilarJokes (Demo.es false) "Line B" 5 (Some "set-b"))
    as [results|]; [now apply P | constructor].
Defined.

Module StreamFacts.
Import JsString Elasticsearch Server Stream SessionFacts HandlerFacts.
Local Open Scope list_scope.

(** *** Lists *)

Lemma startsWith_refl {A} (l : list A) : startsWith l l.
Proof. exists []. now rewrite app_nil_r. Qed.

Lemma startsWith_app {A} (p l more : list A) : startsWith p l -> startsWith p (l ++ more).
Proof. intros [rest ->]. exists (rest ++ more). now rewrite app_assoc. Qed.

Lemma startsWith_length {A} (p l : list A) : startsWith p l -> List.length p <= List.length l.
Proof. intros [rest ->]. rewrite length_app. lia. Qed.

Lemma stage1Payloads_app (a b : list event) :
  stage1Payloads (a ++ b) = stage1Payloads a ++ stage1Payloads b.
Proof. apply flat_map_app. Qed.

Lemma stage1Payloads_filter (events : list event) :
  stage1Payloads (filter isStage1 events) = stage1Payloads events.
Proof.
  unfold stage1Payloads.
  induction events as [|e events IH]; [reflexivity |].
  destruct e; cbn; try exact IH. now rewrite IH.
Qed.

Lemma stage1Payloads_pings (pings : list N) : stage1Payloads (map EPing pings) = [].
Proof. induction pings; cbn; auto. Qed.

Lemma filter_isStage1_pings (pings : list N) : filter isStage1 (map EPing pings) = [].
Proof. induction pings; cbn; auto. Qed.

Lemma filter_isVerdict_pings (pings : list N) : filter isVerdict (map EPing pings) = [].
Proof. induction pings; cbn; auto. Qed.

Lemma anchored_app_l (stage1 more : list json) (stage2 : list concept) :
  anchored stage1 stage2 = true -> anchored (stage1 ++ more) stage2 = true.
Proof.
  unfold anchored. rewrite !forallb_forall. intros H a Ha.
  specialize (H a Ha). rewrite existsb_app, H. reflexivity.
Qed.

Lemma anchored_app_r (stage1 : list json) (stage2 more : list concept) :
  anchored stage1 stage2 = true -> anchored stage1 more = true ->
  anchored stage1 (stage2 ++ more) = true.
Proof. unfold anchored. rewrite forallb_app. now intros -> ->. Qed.

Lemma StronglySorted_snoc {A} (R : A -> A -> Prop) (l : list A) (x : A) :
  StronglySorted R l -> Forall (fun y => R y x) l -> StronglySorted R (l ++ [x]).
Proof.
  induction 1 as [|y l S IH F]; intro H; cbn.
  - repeat constructor.
  - inversion H as [|? ? Hy Hl]; subst. constructor; [now apply IH |].
    apply Forall_app. split; [exact F | now constructor].
Qed.

(** *** Observations that the later phases of the handler leave alone *)

Section Later.
Context {R : JsRuntime} {X : Type} (f : session -> X).
Hypothesis f_event : forall e st, isStage1 e = false -> f (sendEvent e st) = f st.
Hypothesis f_pings : forall pings st, f (heartbeats pings st) = f st.

Lemma later_store bulk pings stage1 stage2 stage3 :
  frames f (awaitStore bulk pings stage1 stage2 stage3).
Proof.
  unfold awaitStore. destruct (storeDocsToES bulk stage1 stage2 stage3) as [requested outcome].
  apply frames_andThen; [| intros _; apply frames_lift].
  destruct requested; [| apply frames_unit].
  apply frames_update. intro. apply f_pings.
Qed.

Lemma later_review w : frames f (review w).
Proof.
  intro st. unfold review.
  destruct (Reviewer.getReview (w_reviewer w) (stage1Results st)) as [calls outcome].
  revert st.
  apply frames_andThen.
  - destruct (0 <? calls)%nat; [| apply frames_unit].
    apply frames_update. intro. apply f_pings.
  - intros _. apply frames_andThen; [apply frames_lift |]. intro stage3.
    apply frames_andThen; [apply later_store |]. intros _.
    apply frames_emit. intro. now apply f_event.
Qed.

Lemma later_synthesis w : frames f (synthesis w).
Proof.
  intro st. unfold synthesis.
  destruct (w_reviewerEnabled w && _); [| reflexivity].
  revert st. apply frames_andThen; [apply frames_emit; intro; now apply f_event |]. intros _.
  apply frames_attempt; [apply later_review | apply frames_emit; intro; now apply f_event].
Qed.

Lemma later_persist w : frames f (persist w).
Proof. intro st. apply later_store. Qed.

(** The stream of an accepted submission is what the session has sent when
    the handler ends; between the end of the fan-out and that point, [f]
    does not change. *)
Lemma analyze_later w text :
  accepted text = true ->
  exists st2 final,
    fanOut w (started w) = (st2, Ret tt) /\
    analyze w (Some (JStr text)) = Stream (sent final) /\
    f final = f st2.
Proof.
  intro A. unfold accepted in A. apply negb_true_iff in A.
  unfold analyze. rewrite A.
  destruct (fanOut_outcome w) as (st2 & E2 & _).
  exists st2.
  assert (L : frames f (persist w ;;; synthesis w ;;; emit (EDone (w_set_id w)))).
  { apply frames_andThen; [apply later_persist |]. intros _.
    apply frames_andThen; [apply later_synthesis |]. intros _.
    apply frames_emit. intro. now apply f_event. }
  specialize (L st2).
  unfold attempt, analyzeTry.
  rewrite (andThen_ret _ _ idle (sendEvent (EStart (w_set_id w) "l1") idle) tt eq_refl).
  rewrite (andThen_ret _ _ _ (started w) tt eq_refl).
  rewrite (andThen_ret _ _ _ _ _ E2).
  destruct ((persist w ;;; synthesis w ;;; emit (EDone (w_set_id w))) st2) as [st5 [[]|]];
    cbn [fst] in *.
  - exists st5. auto.
  - exists (sendEvent (EError Caught) st5). split; [exact E2 |]. split; [reflexivity |].
    now rewrite f_event.
Qed.

End Later.

(** *** What one worker does to the session *)

Section WithRuntime.
Context {R : JsRuntime}.

(** Whether or not the loop over the concepts runs to its end, it only
    appends stage 2 records, each attached to the worker's own record. *)
Lemma pushConcepts_effect set_id feedbackId idx concepts st :
  exists secondaries,
    fst (pushConcepts set_id feedbackId idx concepts st) =
      {| stage1Results := stage1Results st;
         stage2Results := stage2Results st ++ secondaries;
         completedCount := completedCount st;
         sent := sent st |} /\
    Forall (fun a => parent_feedback_id a = feedbackId /\ concept_set_id a = set_id)
           secondaries.
Proof.
  revert idx st. induction concepts as [|c rest IH]; intros idx st; cbn [pushConcepts].
  - exists []. split; [| constructor]. rewrite app_nil_r. now destruct st.
  - unfold andThen at 1, lift.
    destruct (conceptOf set_id feedbackId idx c) as [secondary|] eqn:Ec.
    + unfold andThen at 1, update.
      destruct (IH (S idx) (pushStage2 secondary st)) as (more & E & F).
      exists (secondary :: more). split.
      * rewrite E. cbn. now rewrite <- app_assoc.
      * constructor; [| exact F].
        revert Ec. unfold conceptOf. destruct (Js.get c "angle_name"); [| cbn; discriminate].
        cbn. intro Ec. injection Ec as Ec. subst secondary. now split.
    + exists []. split; [| constructor]. cbn. rewrite app_nil_r. now destruct st.
Qed.

Lemma tagged_feedback_id role now fields :
  Js.lookup "feedback_id" (tagged role now fields) = Some (JStr (feedbackIdOf role now)).
Proof.
  unfold tagged. rewrite JsFacts.lookup_set_other by reflexivity.
  apply JsFacts.lookup_set_same.
Qed.

(** A worker appends its record, if it has one, then stage 2 records
    attached to that record; it sends nothing, or the two events that
    report the lists as they then stand. *)
Lemma analyzePerspective_effect set_id role r st :
  exists secondaries tail,
    let st' := fst (analyzePerspective set_id role r st) in
    stage1Results st' = stage1Results st ++ primaryOf role r /\
    stage2Results st' = stage2Results st ++ secondaries /\
    sent st' = sent st ++ tail /\
    Forall (fun a => parent_feedback_id a = feedbackIdOf role (r_now r) /\
                     concept_set_id a = set_id) secondaries /\
    (primaryOf role r = [] -> secondaries = []) /\
    (tail = [] \/
     exists message,
       primaryOf role r <> [] /\
       tail = [EResultStage1 (stage1Results st') (stage2Results st'); EProgress message]).
Proof.
  cbn zeta. unfold analyzePerspective. rewrite (proj1 (attempt_unit _ tt st)).
  remember (fst (analyzePerspectiveTry set_id role r st)) as st' eqn:E'.
  unfold analyzePerspectiveTry, andThen, lift in E'. unfold primaryOf.
  destruct (extraction r) as [result|]; cbn [fst] in E'.
  2:{ subst st'. exists [], []. rewrite !app_nil_r. repeat split; auto. }
  unfold accept in E'.
  destruct (Js.truthyOpt result) eqn:T.
  2:{ assert (P : match result with
                  | Some (JObj fields) => [JObj (tagged role (r_now r) fields)]
                  | _ => []
                  end = []) by (destruct result as [[]|]; try reflexivity; discriminate T).
      rewrite P. subst st'. exists [], []. cbn [unit_ fst]. rewrite !app_nil_r.
      repeat split; auto. }
  destruct result as [[| b | n | s | items | fields]|];
    try (subst st'; exists [], []; cbn [raise fst]; rewrite !app_nil_r;
         repeat split; now auto).
  unfold andThen at 1, update at 1 in E'.
  destruct (pushConcepts_effect set_id (feedbackIdOf role (r_now r)) 0
              (conceptsOf (tagged role (r_now r) fields))
              (pushStage1 (JObj (tagged role (r_now r) fields)) st)) as (secs & E & F).
  unfold andThen at 1 in E'.
  destruct (pushConcepts _ _ _ _ _) as [st1 [[]|]]; cbn [fst] in E; subst st1.
  - unfold andThen, update, emit in E'. cbn in E'.
    exists secs.
    exists [EResultStage1 (stage1Results st') (stage2Results st');
            EProgress ("Received " ++ role ++ " perspective (" ++
                       ofNat (S (completedCount st)) ++ "/6)...")%string].
    subst st'. cbn. rewrite <- app_assoc.
    repeat split; try reflexivity; try exact F; try discriminate.
    right. eexists. split; [discriminate | reflexivity].
  - cbn in E'. subst st'. exists secs, []. cbn. rewrite app_nil_r.
    repeat split; try reflexivity; try exact F; try discriminate. now left.
Qed.

Lemma primaryOf_cases role r :
  primaryOf role r = [] \/
  exists fields, primaryOf role r = [JObj (tagged role (r_now r) fields)].
Proof.
  unfold primaryOf. destruct (extraction r) as [[[| | | | | fields]|]|]; eauto.
Qed.

(** *** The invariant of the fan-out *)

Lemma consistent_started w : consistent (w_set_id w) (started w).
Proof. split; cbn; repeat constructor. Qed.

Lemma consistent_heartbeats set_id pings st :
  consistent set_id st -> consistent set_id (heartbeats pings st).
Proof.
  intros [S G B T O]. split; cbn [heartbeats sent stage1Results stage2Results].
  - apply Forall_app. split; [exact S |].
    induction pings; cbn; constructor; auto.
  - rewrite stage1Payloads_app, stage1Payloads_pings, app_nil_r. exact G.
  - rewrite stage1Payloads_app, stage1Payloads_pings, app_nil_r. exact B.
  - exact T.
  - exact O.
Qed.

Lemma analyzePerspective_consistent set_id role r st :
  consistent set_id st ->
  consistent set_id (fst (analyzePerspective set_id role r st)).
Proof.
  intros [S G B T O].
  destruct (analyzePerspective_effect set_id role r st) as (secs & tail & E1 & E2 & E3 & F & N & C).
  cbn zeta in *.
  set (st' := fst (analyzePerspective set_id role r st)) in *.
  assert (T' : anchored (stage1Results st') (stage2Results st') = true).
  { rewrite E1, E2. apply anchored_app_r; [now apply anchored_app_l |].
    destruct (primaryOf_cases role r) as [P | [fields P]].
    - now rewrite (N P).
    - rewrite P. unfold anchored. apply forallb_forall. intros a Ha.
      rewrite Forall_forall in F. destruct (F a Ha) as [Fa _].
      rewrite existsb_app. apply orb_true_iff. right. cbn. rewrite orb_false_r.
      unfold refersTo. cbn [Js.getOpt]. rewrite tagged_feedback_id. cbn.
      rewrite Fa. apply String.eqb_refl. }
  assert (S0 : Forall (fun e => match e with
                     | EResultStage1 stage1 stage2 =>
                         startsWith stage1 (stage1Results st') /\
                         startsWith stage2 (stage2Results st') /\
                         anchored stage1 stage2 = true
                     | _ => True
                     end) (sent st)).
  { eapply Forall_impl; [| exact S]. intros [] H; auto.
    destruct H as (H1 & H2 & H3). rewrite E1, E2.
    repeat split; auto using startsWith_app. }
  assert (B0 : Forall (fun p => 1 <= List.length p <= List.length (stage1Results st'))
                      (stage1Payloads (sent st))).
  { eapply Forall_impl; [| exact B]. intros p H. cbn beta in *.
    rewrite E1, length_app. lia. }
  assert (O' : Forall (fun a => concept_set_id a = set_id) (stage2Results st')).
  { rewrite E2. apply Forall_app. split; [exact O |].
    eapply Forall_impl; [| exact F]. now intros a [_ H]. }
  destruct C as [-> | (message & P & ->)].
  - rewrite app_nil_r in E3. split; rewrite ?E3; auto.
  - split; rewrite ?E3; auto.
    + apply Forall_app. split; [exact S0 |].
      repeat constructor; auto using startsWith_refl.
    + rewrite stage1Payloads_app. cbn [stage1Payloads flat_map app].
      apply StronglySorted_snoc; [exact G |].
      eapply Forall_impl; [| exact B]. intros p H. cbn beta in *.
      rewrite E1, length_app.
      destruct (primaryOf role r); [congruence | cbn; lia].
    + rewrite stage1Payloads_app. cbn [stage1Payloads flat_map app].
      apply Forall_app. split; [exact B0 |]. constructor; [| constructor].
      split; [| lia]. rewrite E1, length_app.
      destruct (primaryOf role r); [congruence | cbn; lia].
Qed.

Lemma settle_consistent w roles st :
  consistent (w_set_id w) st -> consistent (w_set_id w) (fst (settle w roles st)).
Proof.
  revert st. induction roles as [|role rest IH]; intros st C; cbn [settle]; [exact C |].
  unfold andThen at 1, update at 1. unfold andThen at 1.
  pose proof (analyzePerspective_consistent (w_set_id w) role (w_converse w role) _
                (consistent_heartbeats _ (r_pings (w_converse w role)) _ C)) as C1.
  destruct (analyzePerspective_total (w_set_id w) role (w_converse w role)
              (heartbeats (r_pings (w_converse w role)) st)) as [[] T].
  destruct (analyzePerspective _ _ _ _) as [st1 o]. cbn [fst snd] in *. subst o.
  now apply IH.
Qed.


(** *** Events of one kind *)

Section Kind.
Context (p : event -> bool).
Hypothesis p_stage1 : forall stage1 stage2, p (EResultStage1 stage1 stage2) = false.
Hypothesis p_progress : forall message, p (EProgress message) = false.
Hypothesis p_ping : forall t, p (EPing t) = false.

Lemma kind_sendEvent e st : p e = false -> kind p (sendEvent e st) = kind p st.
Proof. intro H. unfold kind. cbn. rewrite filter_app. cbn. rewrite H. apply app_nil_r. Qed.

Lemma kind_heartbeats pings st : kind p (heartbeats pings st) = kind p st.
Proof.
  unfold kind. cbn. rewrite filter_app.
  replace (filter p (map EPing pings)) with (@nil event); [apply app_nil_r |].
  induction pings as [|t pings IH]; cbn; [reflexivity |]. now rewrite p_ping.
Qed.

Lemma kind_accept set_id role now result : frames (kind p) (accept set_id role now result).
Proof.
  unfold accept. destruct (Js.truthyOpt result); [| apply frames_unit].
  destruct result as [[| | | | | fields]|]; try apply frames_raise.
  apply frames_andThen; [now apply frames_update |]. intros _.
  apply frames_andThen; [now apply frames_pushConcepts |]. intros _.
  apply frames_andThen; [now apply frames_update |]. intros _.
  apply frames_andThen; [| intros _]; intro st; now apply kind_sendEvent.
Qed.

Lemma kind_settle w roles : frames (kind p) (settle w roles).
Proof.
  induction roles as [|role rest IH]; cbn [settle]; [apply frames_unit |].
  apply frames_andThen; [apply frames_update; intro; apply kind_heartbeats |]. intros _.
  apply frames_andThen; [| intros _; exact IH].
  apply frames_attempt; [| apply frames_unit].
  apply frames_andThen; [apply frames_lift | intro; apply kind_accept].
Qed.

Lemma kind_store bulk pings stage1 stage2 stage3 :
  frames (kind p) (awaitStore bulk pings stage1 stage2 stage3).
Proof.
  unfold awaitStore. destruct (storeDocsToES bulk stage1 stage2 stage3) as [requested outcome].
  apply frames_andThen; [| intros _; apply frames_lift].
  destruct requested; [| apply frames_unit].
  apply frames_update. intro. apply kind_heartbeats.
Qed.

End Kind.


Lemma Forall_stage1 (P : list json -> list concept -> Prop) (events : list event) :
  Forall (fun e => match e with
                   | EResultStage1 stage1 stage2 => P stage1 stage2
                   | _ => True
                   end) (filter isStage1 events) ->
  Forall (fun e => match e with
                   | EResultStage1 stage1 stage2 => P stage1 stage2
                   | _ => True
                   end) events.
Proof.
  induction events as [|e events IH]; cbn [filter]; [constructor |].
  destruct e; cbn [isStage1]; intro H; try (constructor; [exact I | now apply IH]).
  inversion H; subst. constructor; [assumption | now apply IH].
Qed.

Lemma Forall_stage1_filter (P : list json -> list concept -> Prop) (events : list event) :
  Forall (fun e => match e with
                   | EResultStage1 stage1 stage2 => P stage1 stage2
                   | _ => True
                   end) events ->
  Forall (fun e => match e with
                   | EResultStage1 stage1 stage2 => P stage1 stage2
                   | _ => True
                   end) (filter isStage1 events).
Proof.
  intro H. apply Forall_forall. intros e He. apply filter_In in He.
  rewrite Forall_forall in H. now apply H.
Qed.

(** When the fan-out ends the session is consistent. *)
Lemma fanOut_consistent w st2 :
  fanOut w (started w) = (st2, Ret tt) -> consistent (w_set_id w) st2.
Proof.
  intro E. pose proof (settle_consistent w (completionOrder w) _ (consistent_started w)) as C.
  unfold fanOut in E. now rewrite E in C.
Qed.

(** The stream of an accepted submission, seen from the end of the fan-out:
    its [result_stage1] events are those the fan-out sent. *)
Lemma analyze_stage1_events w text :
  accepted text = true ->
  exists events st2,
    analyze w (Some (JStr text)) = Stream events /\
    fanOut w (started w) = (st2, Ret tt) /\
    filter isStage1 events = filter isStage1 (sent st2).
Proof.
  intro A.
  destruct (analyze_later (fun st => filter isStage1 (sent st))) with (w := w) (text := text)
    as (st2 & final & E2 & E & F); try assumption.
  - intros e st H. cbn. rewrite filter_app. cbn. rewrite H. apply app_nil_r.
  - intros pings st. cbn. rewrite filter_app, filter_isStage1_pings. apply app_nil_r.
  - exists (sent final), st2. auto.
Qed.

(** *** The identifiers of the records *)

Lemma mismatch_app (a b x y : string) :
  mismatch a b = true -> (a ++ x)%string <> (b ++ y)%string.
Proof.
  revert b. induction a as [|c a IH]; intros [|d b]; cbn; try discriminate.
  destruct (Ascii.eqb c d) eqn:E.
  - intros M H. injection H as _ H. now apply (IH b).
  - intros _ H. injection H as H _. subst d. now rewrite Ascii.eqb_refl in E.
Qed.

Lemma feedbackIdOf_prefix (role : string) (now : N) :
  feedbackIdOf role now = (feedbackPrefix role ++ ofTime now)%string.
Proof.
  unfold feedbackIdOf, feedbackPrefix. cbn.
  now rewrite JsStringFacts.append_assoc.
Qed.

Lemma feedbackPrefix_mismatch (role role' : string) :
  In role perspectives -> In role' perspectives -> role <> role' ->
  mismatch (feedbackPrefix role) (feedbackPrefix role') = true.
Proof.
  unfold perspectives. cbn [In].
  intros H H' N.
  repeat (destruct H as [<- | H]; [| try contradiction]);
    repeat (destruct H' as [<- | H']; [| try contradiction]);
    try reflexivity; try (exfalso; now apply N).
Qed.

Lemma feedbackIdOf_distinct (role role' : string) (now now' : N) :
  In role perspectives -> In role' perspectives -> role <> role' ->
  feedbackIdOf role now <> feedbackIdOf role' now'.
Proof.
  intros H H' N. rewrite !feedbackIdOf_prefix.
  apply mismatch_app. now apply feedbackPrefix_mismatch.
Qed.

Lemma NoDup_perspectives : NoDup perspectives.
Proof.
  unfold perspectives.
  repeat (constructor; [cbn; intuition discriminate |]). constructor.
Qed.

Lemma primaryOf_id role r record :
  In record (primaryOf role r) ->
  Js.getOpt (Some record) "feedback_id" = Some (JStr (feedbackIdOf role (r_now r))).
Proof.
  destruct (primaryOf_cases role r) as [-> | [fields ->]]; [contradiction |].
  intros [<- | []]. cbn [Js.getOpt]. apply tagged_feedback_id.
Qed.

Lemma records_ids w (roles : list string) :
  NoDup roles -> (forall role, In role roles -> In role perspectives) ->
  NoDup (map (fun record => Js.getOpt (Some record) "feedback_id")
             (flat_map (fun role => primaryOf role (w_converse w role)) roles)).
Proof.
  induction 1 as [|role rest Hnot Hrest IH]; intro Hin; cbn [flat_map map]; [constructor |].
  rewrite map_app.
  assert (IH' : NoDup (map (fun record => Js.getOpt (Some record) "feedback_id")
                           (flat_map (fun role => primaryOf role (w_converse w role)) rest)))
    by (apply IH; intros; apply Hin; now right).
  destruct (primaryOf_cases role (w_converse w role)) as [-> | [fields E]]; [exact IH' |].
  rewrite E. cbn [map app Js.getOpt]. rewrite tagged_feedback_id.
  constructor; [| exact IH'].
  intro H. apply in_map_iff in H as (record & Hid & Hrec).
  apply in_flat_map in Hrec as (role' & Hrole' & Hrec).
  pose proof (primaryOf_id _ _ _ Hrec) as Hid'. cbn beta in Hid.
  cbn [Js.getOpt] in Hid'. rewrite Hid' in Hid.
  assert (Heq : feedbackIdOf role' (r_now (w_converse w role')) =
                feedbackIdOf role (r_now (w_converse w role))) by congruence.
  revert Heq. apply feedbackIdOf_distinct.
  - apply Hin. now right.
  - apply Hin. now left.
  - intros ->. contradiction.
Qed.

(** *** When every worker fails *)

Lemma analyzePerspective_idle set_id role r st :
  workerFails r = true -> fst (analyzePerspective set_id role r st) = st.
Proof.
  intro F. unfold analyzePerspective. rewrite (proj1 (attempt_unit _ tt st)).
  unfold analyzePerspectiveTry, andThen, lift.
  unfold workerFails in F.
  destruct (extraction r) as [result|]; cbn [fst]; [| reflexivity].
  unfold accept. apply negb_true_iff in F. now rewrite F.
Qed.

Lemma heartbeats_app (a b : list N) (st : session) :
  heartbeats b (heartbeats a st) = heartbeats (a ++ b) st.
Proof. unfold heartbeats. cbn. now rewrite map_app, app_assoc. Qed.

Lemma settle_idle w roles st :
  Forall (fun role => workerFails (w_converse w role) = true) roles ->
  settle w roles st =
  (heartbeats (flat_map (fun role => r_pings (w_converse w role)) roles) st, Ret tt).
Proof.
  intro F. revert st. induction F as [|role rest Hrole _ IH]; intro st; cbn [settle flat_map].
  - unfold unit_, heartbeats. cbn. rewrite app_nil_r. now destruct st.
  - unfold andThen at 1, update at 1. unfold andThen at 1.
    pose proof (analyzePerspective_idle (w_set_id w) role (w_converse w role)
                  (heartbeats (r_pings (w_converse w role)) st) Hrole) as E1.
    destruct (analyzePerspective_total (w_set_id w) role (w_converse w role)
                (heartbeats (r_pings (w_converse w role)) st)) as [[] T].
    destruct (analyzePerspective _ _ _ _) as [st1 o]. cbn [fst snd] in *. subst o st1.
    now rewrite IH, heartbeats_app.
Qed.

(** *** The end of the stream *)

Lemma getReview_object agent stage1 stage3 :
  snd (Reviewer.getReview agent stage1) = Ret stage3 -> Js.truthy stage3 = true.
Proof.
  unfold Reviewer.getReview. destruct (List.length stage1 <? 2)%nat.
  - cbn. intro H. injection H as <-. reflexivity.
  - destruct (Reviewer.callReviewerAgent agent stage1) as [calls [response|]]; cbn;
      [| discriminate].
    unfold Reviewer.parseReviewerResponse.
    destruct response; try discriminate;
      destruct (Reviewer.mergeSteps _ _) as [result [[]|]];
      intro H; injection H as <-; reflexivity.
Qed.

(** The stage 3 block sends nothing, or a progress event, heartbeats and
    its verdict. *)
Lemma synthesis_sent w st :
  exists pings,
    sent (fst (synthesis w st)) =
    sent st ++
    (if w_reviewerEnabled w && (0 <? List.length (stage1Results st))%nat
     then EProgress "Synthesizing reviews..." :: map EPing pings ++
          [verdict w (stage1Results st)]
     else []).
Proof.
  unfold synthesis.
  destruct (w_reviewerEnabled w && _); [| exists []; cbn; now rewrite app_nil_r].
  unfold andThen at 1, emit at 1, update at 1, attempt, review, verdict.
  cbn [sendEvent stage1Results].
  destruct (Reviewer.getReview (w_reviewer w) (stage1Results st)) as [calls outcome] eqn:G.
  cbn [snd].
  destruct outcome as [stage3|].
  - exists ((if (0 <? calls)%nat then w_reviewer_pings w else []) ++
            (if fst (storeDocsToES (w_bulk2 w) [] [] (Some stage3))
             then w_bulk2_pings w else [])).
    unfold andThen, lift, awaitStore, emit, update, unit_.
    destruct (0 <? calls)%nat; cbn -[storeDocsToES];
      destruct (storeDocsToES (w_bulk2 w) [] [] (Some stage3)) as [[] [[]|]];
      cbn -[storeDocsToES]; rewrite ?map_app, <- ?app_assoc; cbn;
      rewrite <- ?app_assoc, ?app_nil_r; reflexivity.
  - exists (if (0 <? calls)%nat then w_reviewer_pings w else []).
    unfold andThen, lift, emit, update, unit_.
    destruct (0 <? calls)%nat; cbn; rewrite <- ?app_assoc; reflexivity.
Qed.

Lemma analyze_verdict w text :
  accepted text = true ->
  failures w = 6 \/ bulkSucceeds (w_bulk1 w) = true ->
  exists before pings st2,
    fanOut w (started w) = (st2, Ret tt) /\
    filter isVerdict before = [] /\
    analyze w (Some (JStr text)) =
    Stream (before ++
            (if w_reviewerEnabled w && negb (failures w =? 6)%nat
             then EProgress "Synthesizing reviews..." :: map EPing pings ++
                  [verdict w (stage1Results st2)]
             else []) ++
            [EDone (w_set_id w)]).
Proof.
  intros A B. unfold accepted in A. apply negb_true_iff in A.
  unfold analyze. rewrite A.
  destruct (fanOut_outcome w) as (st2 & E2 & _ & S1 & L & _).
  assert (K2 : kind isVerdict st2 = []).
  { pose proof (kind_settle isVerdict (fun _ _ => eq_refl) (fun _ => eq_refl)
                  (fun _ => eq_refl) w (completionOrder w) (started w)) as K.
    unfold fanOut in E2. rewrite E2 in K. exact K. }
  pose proof (persist_outcome w st2 E2) as P.
  pose proof (kind_store isVerdict (fun _ => eq_refl) (w_bulk1 w) (w_bulk1_pings w)
                (stage1Results st2) (stage2Results st2) None st2) as K3.
  assert (S3 : stage1Results (fst (persist w st2)) = stage1Results st2).
  { unfold persist. apply (later_store stage1Results); reflexivity. }
  fold (persist w st2) in K3.
  destruct (persist w st2) as [st3 o3] eqn:E3. cbn [fst snd] in *.
  assert (O3 : o3 = Ret tt).
  { rewrite P. destruct B as [-> | ->]; [reflexivity |].
    now destruct (failures w =? 6)%nat. }
  clear P. subst o3.
  destruct (synthesis_sent w st3) as (pings & E4).
  destruct (synthesis_total w st3) as [[] T4].
  destruct (synthesis w st3) as [st4 o4] eqn:E4'. cbn [fst snd] in *. subst o4.
  exists (sent st3), pings, st2. split; [exact E2 |].
  split; [unfold kind in *; congruence |].
  unfold attempt, analyzeTry.
  rewrite (andThen_ret _ _ idle (sendEvent (EStart (w_set_id w) "l1") idle) tt eq_refl).
  rewrite (andThen_ret _ _ _ (started w) tt eq_refl).
  rewrite (andThen_ret _ _ _ _ _ E2).
  rewrite (andThen_ret _ _ _ _ _ E3).
  rewrite (andThen_ret _ _ _ _ _ E4').
  cbn [emit update sendEvent fst sent]. rewrite E4, S3.
  replace (0 <? List.length (stage1Results st2))%nat with (negb (failures w =? 6)%nat).
  - now rewrite <- app_assoc.
  - destruct (failures w =? 6)%nat eqn:F.
    + apply Nat.eqb_eq in F. symmetry. apply Nat.ltb_ge. lia.
    + apply Nat.eqb_neq in F. symmetry. apply Nat.ltb_lt. lia.
Qed.

End WithRuntime.
End StreamFacts.

Import Stream.

(** X1.  The [result_stage1] events of an accepted submission report the
    growth of the two lists: each carries a prefix of the lists as they
    stand at the end of the fan-out, each carries more records than the one
    before, and none carries fewer than one record or more than there are
    workers that did not fail. *)
Theorem result_stage1_cumulative {R : JsRuntime} (w : world) (text : string) :
  accepted text = true ->
  exists events st2,
    analyze w (Some (JStr text)) = Stream events /\
    fanOut w (started w) = (st2, Ret tt) /\
    Forall (fun e => match e with
                     | EResultStage1 stage1 stage2 =>
                         startsWith stage1 (stage1Results st2) /\
                         startsWith stage2 (stage2Results st2)
                     | _ => True
                     end) events /\
    StronglySorted (fun a b => List.length a < List.length b) (stage1Payloads events) /\
    Forall (fun p => 1 <= List.length p <= 6 - failures w) (stage1Payloads events).
Proof.
  intro A.
  destruct (StreamFacts.analyze_stage1_events w text A) as (events & st2 & E & E2 & F).
  destruct (StreamFacts.fanOut_consistent w st2 E2) as [S G B _ _].
  destruct (HandlerFacts.fanOut_outcome w) as (st2' & E2' & _ & _ & L & _).
  assert (st2' = st2) by congruence. subst st2'.
  exists events, st2. split; [exact E |]. split; [exact E2 |].
  rewrite <- (StreamFacts.stage1Payloads_filter events), F,
    (StreamFacts.stage1Payloads_filter (sent st2)).
  split; [| split].
  - apply (StreamFacts.Forall_stage1
             (fun stage1 stage2 => startsWith stage1 (stage1Results st2) /\
                                   startsWith stage2 (stage2Results st2))).
    rewrite F.
    apply (StreamFacts.Forall_stage1_filter
             (fun stage1 stage2 => startsWith stage1 (stage1Results st2) /\
                                   startsWith stage2 (stage2Results st2))).
    eapply Forall_impl; [| exact S]. intros [] H; auto. tauto.
  - exact G.
  - eapply Forall_impl; [| exact B]. cbn beta. intros p H. lia.
Qed.

Lemma result_stage1_cumulative_witness :
  accepted "My favorite party trick is not attending parties." = true /\
  exists events,
    analyze (R := Demo.runtime) (Demo.world_with Demo.bulkOk) Demo.line = Stream events /\
    Forall (fun p => 1 <= List.length p <= 6 - 2) (stage1Payloads events).
Proof.
  split; [reflexivity |].
  destruct (result_stage1_cumulative (R := Demo.runtime) (Demo.world_with Demo.bulkOk)
              "My favorite party trick is not attending parties." eq_refl)
    as (events & st2 & E & _ & _ & _ & B).
  exists events. split; [exact E | exact B].
Defined.

(** X2.  Every stage 2 record is attached to a stage 1 record that is sent
    with it: in each [result_stage1] event, and in the lists handed to
    [storeDocsToES], the [parent_feedback_id] of every stage 2 record is the
    [feedback_id] of one of the stage 1 records, and every stage 2 record
    carries the [set_id] of the request. *)
Theorem stage2_anchored {R : JsRuntime} (w : world) (text : string) :
  accepted text = true ->
  exists events st2,
    analyze w (Some (JStr text)) = Stream events /\
    fanOut w (started w) = (st2, Ret tt) /\
    anchored (stage1Results st2) (stage2Results st2) = true /\
    Forall (fun a => Elasticsearch.concept_set_id a = w_set_id w) (stage2Results st2) /\
    Forall (fun e => match e with
                     | EResultStage1 stage1 stage2 => anchored stage1 stage2 = true
                     | _ => True
                     end) events.
Proof.
  intro A.
  destruct (StreamFacts.analyze_stage1_events w text A) as (events & st2 & E & E2 & F).
  destruct (StreamFacts.fanOut_consistent w st2 E2) as [S _ _ T O].
  exists events, st2. repeat (split; [assumption |]).
  apply (StreamFacts.Forall_stage1 (fun stage1 stage2 => anchored stage1 stage2 = true)).
  rewrite F.
  apply (StreamFacts.Forall_stage1_filter
           (fun stage1 stage2 => anchored stage1 stage2 = true)).
  eapply Forall_impl; [| exact S]. intros [] H; auto. tauto.
Qed.

Lemma stage2_anchored_witness :
  accepted "My favorite party trick is not attending parties." = true /\
  exists events,
    analyze (R := Demo.runtime) (Demo.world_with Demo.bulkOk) Demo.line = Stream events /\
    Forall (fun e => match e with
                     | EResultStage1 stage1 stage2 => anchored stage1 stage2 = true
                     | _ => True
                     end) events.
Proof.
  split; [reflexivity |].
  destruct (stage2_anchored (R := Demo.runtime) (Demo.world_with Demo.bulkOk)
              "My favorite party trick is not attending parties." eq_refl)
    as (events & st2 & E & _ & _ & _ & S).
  exists events. split; [exact E | exact S].
Defined.

(** X3.  The records of one request have pairwise distinct [feedback_id]s,
    whatever the clock says: two records come from two perspectives, and
    the identifiers of two perspectives differ before the time stamp
    starts. *)
Theorem feedback_ids_distinct {R : JsRuntime} (w : world) :
  exists st2,
    fanOut w (started w) = (st2, Ret tt) /\
    NoDup (map (fun record => Js.getOpt (Some record) "feedback_id") (stage1Results st2)).
Proof.
  destruct (HandlerFacts.fanOut_outcome w) as (st2 & E2 & _ & S1 & _).
  exists st2. split; [exact E2 |]. rewrite S1.
  apply StreamFacts.records_ids.
  - apply (Permutation_NoDup (Permutation_sym (HandlerFacts.completionOrder_perm w))).
    apply StreamFacts.NoDup_perspectives.
  - intros role H.
    apply (Permutation_in role (HandlerFacts.completionOrder_perm w) H).
Qed.

(** X4.  When the six workers fail, the stream of an accepted submission
    is [start], [progress], the heartbeats written while the calls were
    awaited, and [done]: no result, no [error], whatever the store and the
    reviewer would have answered. *)
Theorem analyze_all_failed {R : JsRuntime} (w : world) (text : string) :
  accepted text = true ->
  failures w = 6 ->
  analyze w (Some (JStr text)) =
  Stream ([EStart (w_set_id w) "l1";
           EProgress "Consulting the council of comedy (6 perspectives)..."] ++
          map EPing (flat_map (fun role => r_pings (w_converse w role)) (completionOrder w)) ++
          [EDone (w_set_id w)])%list.
Proof.
  intros A F. unfold accepted in A. apply negb_true_iff in A.
  unfold analyze. rewrite A.
  assert (All : Forall (fun role => workerFails (w_converse w role) = true)
                       (completionOrder w)).
  { apply HandlerFacts.filter_all.
    rewrite (HandlerFacts.filter_length_perm _ _ _ (HandlerFacts.completionOrder_perm w)).
    fold (failures w). rewrite F.
    now rewrite (Permutation_length (HandlerFacts.completionOrder_perm w)). }
  unfold attempt, analyzeTry.
  rewrite (HandlerFacts.andThen_ret _ _ idle (sendEvent (EStart (w_set_id w) "l1") idle) tt
             eq_refl).
  rewrite (HandlerFacts.andThen_ret _ _ _ (started w) tt eq_refl).
  unfold fanOut.
  rewrite (HandlerFacts.andThen_ret _ _ _ _ _
             (StreamFacts.settle_idle w (completionOrder w) (started w) All)).
  unfold andThen, persist, awaitStore, synthesis.
  cbn. now rewrite andb_false_r.
Qed.

Lemma analyze_all_failed_witness :
  accepted "My favorite party trick is not attending parties." = true /\
  failures (R := Demo.runtime) Examples.unreachable = 6 /\
  analyze (R := Demo.runtime) Examples.unreachable Demo.line =
  Stream [EStart "set-0" "l1";
          EProgress "Consulting the council of comedy (6 perspectives)...";
          EPing 1700000015000%N;
          EDone "set-0"].
Proof.
  split; [reflexivity |]. split; [reflexivity |].
  exact (analyze_all_failed (R := Demo.runtime) Examples.unreachable
           "My favorite party trick is not attending parties." eq_refl eq_refl).
Defined.



(** X6.  A request in which a single worker succeeds gets the fixed review
    of [getReview] for too few reactions: with the reviewer enabled and the
    first bulk request accepted, the reviewer agent is not called, and the
    stream ends with that review -- or with the [error] event when the
    second bulk request fails -- followed by [done]. *)
Theorem lone_perspective_review {R : JsRuntime} (w : world) (text : string) :
  accepted text = true ->
  failures w = 5 ->
  w_reviewerEnabled w = true ->
  Elasticsearch.bulkSucceeds (w_bulk1 w) = true ->
  exists before st2,
    fanOut w (started w) = (st2, Ret tt) /\
    fst (Reviewer.getReview (w_reviewer w) (stage1Results st2)) = 0 /\
    filter isVerdict before = [] /\
    analyze w (Some (JStr text)) =
    Stream (before ++
            [if Elasticsearch.bulkSucceeds (w_bulk2 w)
             then EResultStage3 Reviewer.insufficientReview
             else EError ReviewFailed;
             EDone (w_set_id w)])%list.
Proof.
  intros A F En B.
  destruct (StreamFacts.analyze_verdict w text A (or_intror B))
    as (before & pings & st2 & E2 & Q & E).
  destruct (HandlerFacts.fanOut_outcome w) as (st2' & E2' & _ & _ & L & _).
  assert (st2' = st2) by congruence. subst st2'.
  assert (G : Reviewer.getReview (w_reviewer w) (stage1Results st2) =
              (0, Ret Reviewer.insufficientReview)).
  { unfold Reviewer.getReview.
    replace (List.length (stage1Results st2)) with 1 by lia. reflexivity. }
  exists (before ++ EProgress "Synthesizing reviews..." :: map EPing pings)%list, st2.
  split; [exact E2 |]. split; [now rewrite G |]. split.
  - rewrite filter_app, Q. cbn. apply StreamFacts.filter_isVerdict_pings.
  - rewrite E, En, F. cbn [andb negb Nat.eqb].
    unfold verdict. rewrite G. cbn [snd].
    rewrite HandlerFacts.storeDocsToES_outcome by constructor.
    cbn [List.length Js.truthyOpt Js.truthy Reviewer.insufficientReview Nat.add Nat.eqb].
    rewrite <- !app_assoc. cbn. rewrite <- !app_assoc. cbn.
    now destruct (Elasticsearch.bulkSucceeds (w_bulk2 w)).
Qed.

Lemma lone_perspective_review_witness :
  accepted "My favorite party trick is not attending parties." = true /\
  failures (R := Demo.runtime) (Examples.lone Demo.bulkOk) = 5 /\
  exists before,
    analyze (R := Demo.runtime) (Examples.lone Demo.bulkOk) Demo.line =
    Stream (before ++ [EResultStage3 Reviewer.insufficientReview; EDone "set-2"])%list.
Proof.
  split; [reflexivity |]. split; [reflexivity |].
  destruct (lone_perspective_review (R := Demo.runtime) (Examples.lone Demo.bulkOk)
              "My favorite party trick is not attending parties."
              eq_refl eq_refl eq_refl eq_refl)
    as (before & st2 & _ & _ & _ & E).
  exists before. exact E.
Defined.


(** ** The review record *)

Module RecordFacts.
Import Reviewer.
Local Open Scope list_scope.

(** *** Keys of a record under assignment and spreading *)

Lemma lookup_set_present (k k' : string) (v : json) (fields : list (string * json)) :
  Js.lookup k fields <> None -> Js.lookup k (Js.set k' v fields) <> None.
Proof.
  intro H. destruct (String.eqb k k') eqn:E.
  - apply String.eqb_eq in E. subst k'. rewrite JsFacts.lookup_set_same. discriminate.
  - now rewrite (JsFacts.lookup_set_other k k' v fields E).
Qed.

Lemma lookup_merge_present (k : string) (result : list (string * json)) (v : json) :
  Js.lookup k result <> None -> Js.lookup k (merge result v) <> None.
Proof.
  unfold merge. generalize (spreadFields v) as fields. intro fields. revert result.
  induction fields as [|[k' v'] rest IH]; intros result H; cbn [fold_left]; [exact H |].
  apply IH. cbn [fst snd]. now apply lookup_set_present.
Qed.

Lemma lookup_app (k : string) (a b : list (string * json)) :
  Js.lookup k (a ++ b) =
  match Js.lookup k a with
  | Some v => Some v
  | None => Js.lookup k b
  end.
Proof.
  induction a as [|[k' v'] a IH]; cbn; [reflexivity |].
  destruct (String.eqb k k'); [reflexivity | exact IH].
Qed.

(** [{ ...result, ...{ fields } }]: the last assignment to a key wins, a key
    that is not assigned keeps its value. *)
Lemma lookup_merge (k : string) (result fields : list (string * json)) :
  Js.lookup k (merge result (JObj fields)) =
  match Js.lookup k (rev fields) with
  | Some v => Some v
  | None => Js.lookup k result
  end.
Proof.
  unfold merge. cbn [spreadFields]. revert result.
  induction fields as [|[k' v'] rest IH]; intro result; cbn [fold_left rev]; [reflexivity |].
  rewrite IH, lookup_app. cbn [fst snd Js.lookup].
  destruct (Js.lookup k (rev rest)); [reflexivity |].
  destruct (String.eqb k k') eqn:E.
  - apply String.eqb_eq in E. subst k'. apply JsFacts.lookup_set_same.
  - now apply JsFacts.lookup_set_other.
Qed.

Section WithRuntime.
Context {R : JsRuntime}.

Lemma mergeSteps_present (k : string) (steps : list json) (result : list (string * json)) :
  Js.lookup k result <> None -> Js.lookup k (fst (mergeSteps steps result)) <> None.
Proof.
  revert result. induction steps as [|step rest IH]; intros result H; cbn [mergeSteps];
    [exact H |].
  destruct (contribution step) as [[data|]|]; cbn [fst]; auto.
  apply IH. now apply lookup_merge_present.
Qed.

Lemma fallback_present (k : string) (agentResponse : json) (result : list (string * json)) :
  Js.lookup k result <> None -> Js.lookup k (fallback agentResponse result) <> None.
Proof.
  intro H. unfold fallback.
  destruct (jsonContent agentResponse) as [| | | text | |fields]; try exact H.
  - destruct (JSON_parse (JsString.stripFences text)); [now apply lookup_merge_present |].
    destruct (JsString.matchBraces (JsString.stripFences text)); [| exact H].
    destruct (JSON_parse s); [now apply lookup_merge_present | exact H].
  - destruct (Js.lookup "divergence_score" fields); [now apply lookup_merge_present | exact H].
Qed.

Lemma normalizeResult_present (k : string) (result : list (string * json)) :
  Js.lookup k result <> None -> Js.lookup k (normalizeResult result) <> None.
Proof.
  intro H. unfold normalizeResult.
  destruct (Js.lookup "primary_conflict" result) as [pc|]; [| exact H].
  destruct (Js.truthy pc); [| exact H]. now apply lookup_set_present.
Qed.

Lemma normalizeResult_other (k : string) (result : list (string * json)) :
  k <> "primary_conflict" -> Js.lookup k (normalizeResult result) = Js.lookup k result.
Proof.
  intro N. unfold normalizeResult.
  destruct (Js.lookup "primary_conflict" result) as [pc|]; [| reflexivity].
  destruct (Js.truthy pc); [| reflexivity].
  apply JsFacts.lookup_set_other. now apply String.eqb_neq.
Qed.

End WithRuntime.
End RecordFacts.

(** X7.  [normalizeConflict] returns [null] exactly when it is given a value
    that is not a string, or the empty string.  Otherwise it returns a label
    in lower case that holds no period.  When the input, lower-cased and
    with its periods removed, holds " vs ", the label is made of the pieces
    of that input between the separators, trimmed, arranged in code-unit
    order and joined by " vs "; hence two inputs whose trimmed pieces are
    the same up to their order get the same label.  Otherwise the label is
    the lower-cased, period-free input, which is not trimmed. *)
Theorem normalizeConflict_settled (conflict : json) :
  (normalizeConflict conflict = None <-> forall s : string, conflict = JStr s -> s = "") /\
  (forall (s label : string),
     conflict = JStr s -> normalizeConflict conflict = Some label ->
     allChars settled label = true /\
     if includes " vs " (normalized s)
     then exists parts : list string,
            Permutation parts (map trim (split " vs " (normalized s))) /\
            Sorted (fun a b => String.leb a b = true) parts /\
            label = join " vs " parts
     else label = normalized s) /\
  (forall s s' : string,
     includes " vs " (normalized s) = true ->
     includes " vs " (normalized s') = true ->
     Permutation (map trim (split " vs " (normalized s)))
                 (map trim (split " vs " (normalized s'))) ->
     canon s' = canon s).
Proof.
  split; [| split].
  - unfold normalizeConflict. split.
    + intros H s ->. destruct (String.eqb_spec s "") as [E | _]; [exact E |].
      cbv zeta in H. destruct (includes vs (normalized s)); discriminate H.
    + intro H. destruct conflict as [| | | s | |]; try reflexivity.
      now rewrite (H s eq_refl).
  - intros s label -> H. unfold normalizeConflict, vs in H.
    destruct (String.eqb s ""); [discriminate |]. cbv zeta in H.
    pose proof (JsStringFacts.allChars_removeDots_toLowerCase s) as N.
    fold (normalized s) in N.
    destruct (includes " vs " (normalized s)); injection H as <-.
    + split.
      * apply LabelFacts.allChars_join; [reflexivity |].
        apply LabelFacts.Forall_sort.
        pose proof (SplitFacts.allChars_pieces settled " vs " 0 (normalized s) N) as F.
        fold (split " vs " (normalized s)) in F.
        induction F as [|piece pieces Hp _ IH]; cbn [map]; constructor; [| exact IH].
        now apply JsStringFacts.allChars_trim.
      * exists (sort (map trim (split " vs " (normalized s)))).
        split; [apply LabelFacts.sort_is_permutation |].
        split; [apply LabelFacts.sort_sorted | reflexivity].
    + split; [exact N | reflexivity].
  - intros s s' I I' P.
    assert (V : forall t : string,
               includes " vs " (normalized t) = true ->
               canon t = Some (join " vs " (sort (map trim (split " vs " (normalized t)))))).
    { intros t It. unfold canon, normalizeConflict, vs.
      destruct (String.eqb_spec t "") as [-> | _]; [discriminate It |].
      cbv zeta. now rewrite It. }
    rewrite (V s I), (V s' I').
    now rewrite (LabelFacts.sort_permutation _ _ P).
Qed.

Lemma normalizeConflict_settled_witness :
  normalizeConflict (JStr "The Fan vs. Literal vs The Skeptic") =
    Some "literal vs the fan vs the skeptic" /\
  allChars settled "literal vs the fan vs the skeptic" = true /\
  canon "THE SKEPTIC vs Literal vs The Fan." = canon "The Fan vs. Literal vs The Skeptic".
Proof.
  split; [reflexivity |].
  destruct (normalizeConflict_settled (JStr "The Fan vs. Literal vs The Skeptic"))
    as (_ & L & O).
  split.
  - exact (proj1 (L "The Fan vs. Literal vs The Skeptic"
                    "literal vs the fan vs the skeptic" eq_refl eq_refl)).
  - apply (O "The Fan vs. Literal vs The Skeptic" "THE SKEPTIC vs Literal vs The Fan."
             eq_refl eq_refl).
    change (Permutation ["the fan"; "literal"; "the skeptic"]
                        ["the skeptic"; "literal"; "the fan"]).
    apply (Permutation_cons_app ["the skeptic"; "literal"] []).
    apply perm_swap.
Defined.

(** X8.  Order independence for any number of parties.  On a label made of
    two or more canonical operands joined by " vs ", [normalizeConflict]
    returns the operands sorted; hence two labels whose operands are the
    same up to their order get the same canonical form, and that form is
    left unchanged by a second call. *)
Theorem normalizeConflict_any_order (ops ops' : list string) :
  2 <= List.length ops ->
  Forall canonicalOperand ops ->
  Permutation ops ops' ->
  canon (join " vs " ops) = Some (join " vs " (sort ops)) /\
  canon (join " vs " ops') = canon (join " vs " ops) /\
  canon2 (join " vs " ops) = canon (join " vs " ops).
Proof.
  intros L C P.
  assert (C' : Forall canonicalOperand ops').
  { apply Forall_forall. intros x Hx. rewrite Forall_forall in C. apply C.
    now apply (Permutation_in x (Permutation_sym P)). }
  assert (Cs : Forall canonicalOperand (sort ops)) by now apply LabelFacts.Forall_sort.
  pose proof (Permutation_length P) as L'.
  pose proof (Permutation_length (LabelFacts.sort_is_permutation ops)) as Ls.
  split; [| split].
  - now apply LabelFacts.canon_join.
  - rewrite !LabelFacts.canon_join by (assumption || lia).
    now rewrite (LabelFacts.sort_permutation _ _ P).
  - unfold canon2. rewrite LabelFacts.canon_join by assumption. cbn [Js.ofOption].
    fold (canon (join " vs " (sort ops))).
    rewrite LabelFacts.canon_join by (assumption || lia).
    now rewrite LabelFacts.sort_idem.
Qed.

Lemma normalizeConflict_any_order_witness :
  canon "the skeptic vs literal vs the fan" = Some "literal vs the fan vs the skeptic" /\
  canon "the fan vs the skeptic vs literal" = canon "the skeptic vs literal vs the fan".
Proof.
  assert (C : Forall canonicalOperand ["the skeptic"; "literal"; "the fan"])
    by (repeat constructor).
  assert (P : Permutation ["the skeptic"; "literal"; "the fan"]
                          ["the fan"; "the skeptic"; "literal"]).
  { apply Permutation_sym. apply (Permutation_cons_app ["the skeptic"; "literal"] []).
    reflexivity. }
  destruct (normalizeConflict_any_order ["the skeptic"; "literal"; "the fan"]
              ["the fan"; "the skeptic"; "literal"]
              (le_S _ _ (le_n 2)) C P) as (E1 & E2 & _).
  split; [exact E1 | exact E2].
Defined.

(** Spreading an answer over the record and canonicalising the label only
    assign fields: a record that is returned has the six fields of
    [defaultReview]. *)
Lemma parseReviewerResponse_fields {R : JsRuntime} (agentResponse review : json) :
  parseReviewerResponse agentResponse = Ret review ->
  exists fields,
    review = JObj fields /\
    Forall (fun k => Js.lookup k fields <> None)
           [ "reasoning"; "divergence_score"; "risk_level"; "primary_conflict";
             "conflict_summary"; "recommendation" ].
Proof.
  unfold parseReviewerResponse.
  assert (D : Forall (fun k => Js.lookup k defaultReview <> None)
                     [ "reasoning"; "divergence_score"; "risk_level"; "primary_conflict";
                       "conflict_summary"; "recommendation" ])
    by (repeat constructor; discriminate).
  assert (M : forall steps,
             Forall (fun k => Js.lookup k (fst (mergeSteps steps defaultReview)) <> None)
                    [ "reasoning"; "divergence_score"; "risk_level"; "primary_conflict";
                      "conflict_summary"; "recommendation" ]).
  { intro steps. eapply Forall_impl; [| exact D].
    intros k. apply RecordFacts.mergeSteps_present. }
  destruct agentResponse; try discriminate;
    match goal with
    | |- context [mergeSteps ?steps defaultReview] =>
        specialize (M steps); destruct (mergeSteps steps defaultReview) as [result [[]|]]
    end;
    cbn [fst] in M; intro H; injection H as <-; eexists; (split; [reflexivity |]);
    try exact M;
    (eapply Forall_impl; [| exact M]); intros k Hk;
    apply RecordFacts.normalizeResult_present;
    destruct (Js.isStr (Js.lookup "risk_level" result) "unknown"); try exact Hk;
    now apply RecordFacts.fallback_present.
Qed.

(** X9.  On every answer of the agent that is not [null],
    [parseReviewerResponse] returns a record that has the six fields of the
    record it starts from, whatever the steps and the text of the answer
    hold: spreading an answer over the record and canonicalising the label
    only assign fields. *)
Theorem parseReviewerResponse_complete {R : JsRuntime} (agentResponse : json) :
  agentResponse <> JNull ->
  exists fields,
    parseReviewerResponse agentResponse = Ret (JObj fields) /\
    Forall (fun k => Js.lookup k fields <> None)
           [ "reasoning"; "divergence_score"; "risk_level"; "primary_conflict";
             "conflict_summary"; "recommendation" ].
Proof.
  intro N.
  destruct (SynthesisFacts.parseReviewerResponse_returns agentResponse N) as [record E].
  destruct (parseReviewerResponse_fields agentResponse _ E) as (fields & E' & F).
  exists fields. split; [now rewrite E, E' | exact F].
Qed.

Lemma parseReviewerResponse_complete_witness :
  parseReviewerResponse (R := ReviewExample.runtime) ReviewExample.answer =
    Ret (JObj [ ("reasoning", JStr "Analysis pending...");
                ("divergence_score", JNum 70);
                ("risk_level", JStr "high");
                ("primary_conflict", JStr "literal vs the fan");
                ("conflict_summary", JStr "Insufficient data for analysis");
                ("recommendation", JStr "No recommendation available") ]) /\
  exists fields,
    parseReviewerResponse (R := ReviewExample.runtime) ReviewExample.answer =
      Ret (JObj fields) /\
    Js.lookup "recommendation" fields <> None.
Proof.
  split; [reflexivity |].
  destruct (parseReviewerResponse_complete (R := ReviewExample.runtime) ReviewExample.answer
              ltac:(discriminate)) as (fields & E & F).
  exists fields. split.
  - exact E.
  - repeat (inversion F as [|? ? ? F']; subst; clear F; rename F' into F); assumption.
Defined.

(** X10.  When the steps of the answer contribute nothing and the text the
    fallback works on is, once its fences are stripped, the JSON text of an
    object, the record returned takes from that object every field it has
    (the last occurrence of a key) and keeps the default value of every
    other field; only [primary_conflict] is further rewritten. *)
Theorem parseReviewerResponse_overrides {R : JsRuntime}
        (agentResponse : json) (text : string) (fields : list (string * json)) :
  agentResponse <> JNull ->
  Forall (fun step => contribution step = Ret None) (Js.stepsOf agentResponse) ->
  jsonContent agentResponse = JStr text ->
  JSON_parse (stripFences text) = Some (JObj fields) ->
  exists result,
    parseReviewerResponse agentResponse = Ret (JObj result) /\
    forall k, k <> "primary_conflict" ->
      Js.lookup k result =
      match Js.lookup k (rev fields) with
      | Some v => Some v
      | None => Js.lookup k defaultReview
      end.
Proof.
  intros N S J P.
  exists (normalizeResult (merge defaultReview (JObj fields))). split.
  - unfold parseReviewerResponse. fold (Js.stepsOf agentResponse).
    rewrite (SynthesisFacts.mergeSteps_silent _ defaultReview S).
    destruct agentResponse; try congruence;
      cbn [Js.isStr defaultReview Js.lookup String.eqb Ascii.eqb Bool.eqb];
      unfold fallback; now rewrite J, P.
  - intros k Hk. rewrite (RecordFacts.normalizeResult_other k _ Hk).
    apply RecordFacts.lookup_merge.
Qed.

Lemma parseReviewerResponse_overrides_witness :
  exists result,
    parseReviewerResponse (R := ReviewExample.runtime) ReviewExample.answer =
      Ret (JObj result) /\
    Js.lookup "risk_level" result = Some (JStr "high") /\
    Js.lookup "recommendation" result = Some (JStr "No recommendation available").
Proof.
  destruct (parseReviewerResponse_overrides (R := ReviewExample.runtime)
              ReviewExample.answer
              ("```json" ++ String "010"%char ReviewExample.reviewText ++
               String "010"%char "```")
              ReviewExample.reviewFields)
    as (result & E & L).
  - discriminate.
  - constructor.
  - reflexivity.
  - reflexivity.
  - exists result. split; [exact E |]. split.
    + now rewrite (L "risk_level") by discriminate.
    + now rewrite (L "recommendation") by discriminate.
Defined.


(** ** The documents of the index *)

Module DocumentFacts.
Import Elasticsearch Documents.
Local Open Scope list_scope.

(** *** Reading a document *)

Lemma lookup_property (k k' : string) (v : option json) :
  Js.lookup k (property k' v) = if String.eqb k k' then v else None.
Proof. destruct v; cbn; now destruct (String.eqb k k'). Qed.

Lemma rev_property (k : string) (v : option json) : rev (property k v) = property k v.
Proof. now destruct v. Qed.

Lemma lookup_restored (k : string) (stored : string * document) :
  Js.lookup k (restored stored) =
  match Js.lookup k (rev (snd stored)) with
  | Some v => Some v
  | None => if String.eqb k "id" then Some (JStr (fst stored)) else None
  end.
Proof.
  unfold restored. rewrite RecordFacts.lookup_merge. cbn [Js.lookup].
  reflexivity.
Qed.

(** Rewrites a lookup in a restored document into lookups in the parts
    the document was built from. *)
Ltac read_document :=
  rewrite ?lookup_restored; cbn [snd fst];
  unfold stage1Doc, stage2Doc, stage3Doc, common;
  rewrite ?rev_app_distr, ?rev_property, ?RecordFacts.lookup_app, ?lookup_property;
  cbn [rev app Js.lookup String.eqb Ascii.eqb Bool.eqb Js.orElse Js.truthyOpt].

Lemma stage1Doc_built (set_id line_id line_text now : string) (item : json)
      (doc : document) :
  stage1Doc set_id line_id line_text now item = Ret doc ->
  doc = common set_id line_id line_text 1 ++
        property "feedback_id" (Js.getOpt (Some item) "feedback_id") ++
        property "agent_mode" (Js.getOpt (Some item) "agent_mode") ++
        property "feedback_text" (Js.getOpt (Some item) "feedback_text") ++
        property "reason_codes"
          (Js.orElse (Js.getOpt (Some item) "reason_codes") (Some (JArr []))) ++
        property "relatability" (Js.getOpt (Some item) "relatability") ++
        property "laugh_potential" (Js.getOpt (Some item) "laugh_potential") ++
        property "crowd_energy" (Js.getOpt (Some item) "crowd_energy") ++
        property "confidence" (Js.getOpt (Some item) "confidence") ++
        [ ("hypothesis", JBool true); ("created_at", JStr now) ].
Proof.
  unfold stage1Doc. destruct (Js.get item "feedback_id") as [v|] eqn:G; [| discriminate].
  apply JsFacts.get_getOpt in G. subst v. cbn. intro H. now injection H as <-.
Qed.

(** The fields of a stored stage 1 document, as [fetchDocsFromES] returns
    it. *)
Lemma stage1Doc_restored (set_id line_id line_text now id : string) (item : json)
      (doc : document) :
  stage1Doc set_id line_id line_text now item = Ret doc ->
  Js.lookup "stage" (restored (id, doc)) = Some (JNum 1) /\
  Js.lookup "id" (restored (id, doc)) = Some (JStr id) /\
  Js.lookup "set_id" (restored (id, doc)) = Some (JStr set_id) /\
  Forall (fun k => Js.lookup k (restored (id, doc)) = Js.getOpt (Some item) k)
         [ "feedback_id"; "agent_mode"; "feedback_text"; "relatability";
           "laugh_potential"; "crowd_energy"; "confidence" ].
Proof.
  intro B. apply stage1Doc_built in B. subst doc.
  assert (K : forall k,
             Js.lookup k (restored (id,
               common set_id line_id line_text 1 ++
               property "feedback_id" (Js.getOpt (Some item) "feedback_id") ++
               property "agent_mode" (Js.getOpt (Some item) "agent_mode") ++
               property "feedback_text" (Js.getOpt (Some item) "feedback_text") ++
               property "reason_codes"
                 (Js.orElse (Js.getOpt (Some item) "reason_codes") (Some (JArr []))) ++
               property "relatability" (Js.getOpt (Some item) "relatability") ++
               property "laugh_potential" (Js.getOpt (Some item) "laugh_potential") ++
               property "crowd_energy" (Js.getOpt (Some item) "crowd_energy") ++
               property "confidence" (Js.getOpt (Some item) "confidence") ++
               [ ("hypothesis", JBool true); ("created_at", JStr now) ])) =
             _) by (intro k; read_document; reflexivity).
  split; [now rewrite K |]. split; [now rewrite K |]. split; [now rewrite K |].
  repeat (constructor;
          [rewrite K; cbn -[Js.getOpt];
           match goal with
           | |- context [Js.getOpt ?a ?b] => now destruct (Js.getOpt a b)
           end |]).
  constructor.
Qed.


Lemma stage2Doc_restored (set_id line_id line_text now id : string) (item : concept) :
  let doc := restored (id, stage2Doc set_id line_id line_text now item) in
  Js.lookup "stage" doc = Some (JNum 2) /\
  Js.lookup "parent_feedback_id" doc = Some (JStr (parent_feedback_id item)) /\
  Js.lookup "angle_name" doc = Js.orElse (angle_name item) None /\
  Forall (fun k => Js.lookup k doc = None)
         [ "concept_id"; "explanation"; "exploration_direction"; "angle_id"; "direction" ].
Proof.
  cbv zeta.
  assert (K : forall k,
             Js.lookup k (restored (id, stage2Doc set_id line_id line_text now item)) = _)
    by (intro k; read_document; reflexivity).
  split; [now rewrite K |]. split; [now rewrite K |]. split.
  - rewrite K. cbn -[Js.orElse]. now destruct (Js.orElse (angle_name item) None).
  - repeat (constructor;
            [rewrite K; cbn -[Js.orElse]; now destruct (Js.orElse (angle_name item) None) |]).
    constructor.
Qed.

Lemma stage3Doc_restored (set_id line_id line_text now id : string) (stage3 : json) :
  let doc := restored (id, stage3Doc set_id line_id line_text now stage3) in
  Js.lookup "stage" doc = Some (JNum 3) /\
  Forall (fun k => Js.lookup k doc = Js.getOpt (Some stage3) k)
         [ "divergence_score"; "risk_level"; "primary_conflict"; "conflict_summary";
           "recommendation" ].
Proof.
  cbv zeta.
  assert (K : forall k,
             Js.lookup k (restored (id, stage3Doc set_id line_id line_text now stage3)) = _)
    by (intro k; read_document; reflexivity).
  split; [now rewrite K |].
  repeat (constructor;
          [rewrite K; cbn -[Js.getOpt];
           match goal with
           | |- context [Js.getOpt ?a ?b] => now destruct (Js.getOpt a b)
           end |]).
  constructor.
Qed.

Lemma stageIs_lookup (n k : Z) (doc : document) :
  Js.lookup "stage" doc = Some (JNum k) -> stageIs n doc = (k =? n)%Z.
Proof. intro H. unfold stageIs. now rewrite H. Qed.

(** The documents [bulkDocs] builds are those [storeDocsToES] counts: the
    function raises on a [null] item before any request, and sends a request
    exactly when there is a document. *)
Lemma bulkDocs_agrees (bulk : httpResult) (set_id line_id line_text now : string)
      (stage1 : list json) (stage2 : list concept) (stage3 : option json) :
  match bulkDocs set_id line_id line_text now stage1 stage2 stage3 with
  | Ret docs =>
      fst (storeDocsToES bulk stage1 stage2 stage3) = negb (List.length docs =? 0)%nat
  | Throw => storeDocsToES bulk stage1 stage2 stage3 = (false, Throw)
  end.
Proof.
  unfold bulkDocs, storeDocsToES.
  assert (M : match mapM (stage1Doc set_id line_id line_text now) stage1 with
              | Ret docs1 => existsb isNull stage1 = false /\
                             List.length docs1 = List.length stage1
              | Throw => existsb isNull stage1 = true
              end).
  { induction stage1 as [|item l IH]; cbn [mapM existsb]; [now split |].
    unfold stage1Doc at 1. destruct item; cbn [Js.get bind isNull orb]; try reflexivity;
      destruct (mapM _ l); cbn [bind]; try exact IH;
      (split; [apply IH | cbn [List.length]; f_equal; apply IH]). }
  destruct (mapM _ stage1) as [docs1|]; cbn [bind].
  - destruct M as [-> L]. rewrite !length_app, length_map, L.
    assert (T : List.length
                  match stage3 with
                  | Some v =>
                      if Js.truthy v then [stage3Doc set_id line_id line_text now v] else []
                  | None => []
                  end = if Js.truthyOpt stage3 then 1 else 0)
      by (destruct stage3 as [v|]; cbn; [now destruct (Js.truthy v) | reflexivity]).
    rewrite T, Nat.add_assoc. now destruct (_ =? 0)%nat.
  - now rewrite M.
Qed.

(** *** Lists *)

Lemma Permutation_filter {A} (p : A -> bool) (l l' : list A) :
  Permutation l l' -> Permutation (filter p l) (filter p l').
Proof.
  induction 1 as [| x l l' _ IH | x y l | l l' l'' _ IH1 _ IH2]; cbn.
  - constructor.
  - destruct (p x); [now constructor | exact IH].
  - destruct (p x), (p y); try reflexivity. apply perm_swap.
  - now transitivity (filter p l').
Qed.

Lemma filter_every {A} (p : A -> bool) (l : list A) :
  Forall (fun x => p x = true) l -> filter p l = l.
Proof. induction 1 as [|x l Hx _ IH]; cbn; [reflexivity | now rewrite Hx, IH]. Qed.

Lemma filter_none {A} (p : A -> bool) (l : list A) :
  Forall (fun x => p x = false) l -> filter p l = [].
Proof. induction 1 as [|x l Hx _ IH]; cbn; [reflexivity | now rewrite Hx]. Qed.

Lemma Forall2_map_r {A B C} (P : A -> B -> Prop) (f : C -> B) (l : list A) (m : list C) :
  Forall2 P l (map f m) -> Forall2 (fun x y => P x (f y)) l m.
Proof.
  revert l. induction m as [|y m IH]; intros l H; inversion H; subst; constructor; auto.
Qed.

Lemma Forall2_right {A B} (P : A -> B -> Prop) (Q : B -> Prop) (l : list A) (m : list B) :
  (forall x y, P x y -> Q y) -> Forall2 P l m -> Forall Q m.
Proof. intros H. induction 1; constructor; eauto. Qed.

Lemma Forall2_left_image {A B} (P : A -> B -> Prop) (l : list A) (m : list B) (x : A) :
  Forall2 P l m -> In x l -> exists y, In y m /\ P x y.
Proof.
  induction 1 as [|a b l m Hab _ IH]; intros [].
  - subst a. exists b. split; [now left | exact Hab].
  - destruct (IH H) as (y & Hy & Py). exists y. split; [now right | exact Py].
Qed.

Lemma Forall2_right_image {A B} (P : A -> B -> Prop) (l : list A) (m : list B) (y : B) :
  Forall2 P l m -> In y m -> exists x, In x l /\ P x y.
Proof.
  induction 1 as [|a b l m Hab _ IH]; intros [].
  - subst b. exists a. split; [now left | exact Hab].
  - destruct (IH H) as (x & Hx & Px). exists x. split; [now right | exact Px].
Qed.

(** *** Fetching what the index holds *)

Lemma docOf_asHit (stored : string * document) : docOf (asHit stored) = Ret (restored stored).
Proof. reflexivity. Qed.

Lemma mapM_docOf (stored : list (string * document)) :
  mapM docOf (map asHit stored) = Ret (map restored stored).
Proof.
  induction stored as [|s stored IH]; [reflexivity |].
  cbn [map mapM]. rewrite docOf_asHit, IH. reflexivity.
Qed.

Lemma hitsOf_found (hits : list json) : hitsOf (found hits) = Ret hits.
Proof. reflexivity. Qed.

(** When the cluster answers with the documents it holds, in any order,
    the three lists are made of these documents, by stage. *)
Lemma fetch_stored (c : cluster) (set_id line_id : string) (status : nat)
      (hits : list json) (stored : list (string * document)) :
  esRequest (c (SearchDocs set_id line_id)) = Ret (status, found hits) ->
  Permutation hits (map asHit stored) ->
  exists d,
    fetchDocsFromES c set_id line_id = Ret d /\
    Permutation (d_stage1 d) (filter (stageIs 1) (map restored stored)) /\
    Permutation (d_stage2 d) (filter (stageIs 2) (map restored stored)) /\
    exists third,
      d_stage3 d = hd_error third /\
      Permutation third (filter (stageIs 3) (map restored stored)).
Proof.
  intros E P. apply Permutation_map_inv in P as (held & -> & P).
  unfold fetchDocsFromES. rewrite E. cbn [bind snd].
  rewrite hitsOf_found. cbn [bind]. rewrite mapM_docOf. cbn [bind].
  eexists. split; [reflexivity |]. cbn [d_stage1 d_stage2 d_stage3].
  assert (Q : forall n, Permutation (filter (stageIs n) (map restored held))
                                    (filter (stageIs n) (map restored stored)))
    by (intro n; apply Permutation_filter, Permutation_map, Permutation_sym, P).
  split; [apply Q |]. split; [apply Q |].
  eexists. split; [reflexivity | apply Q].
Qed.

(** What the two bulk requests of a request leave in the index, by stage. *)
Lemma stored_by_stage (set_id line_id line_text now1 now2 : string)
      (stage1 : list json) (stage2 : list concept) (stage3 : json)
      (docsA docsB : list document) (stored : list (string * document)) :
  bulkDocs set_id line_id line_text now1 stage1 stage2 None = Ret docsA ->
  bulkDocs set_id line_id line_text now2 [] [] (Some stage3) = Ret docsB ->
  map snd stored = docsA ++ docsB ->
  exists s1 s2 s3,
    filter (stageIs 1) (map restored stored) = map restored s1 /\
    filter (stageIs 2) (map restored stored) = map restored s2 /\
    filter (stageIs 3) (map restored stored) = map restored s3 /\
    Forall2 (fun item s => stage1Doc set_id line_id line_text now1 item = Ret (snd s))
            stage1 s1 /\
    Forall2 (fun item s => snd s = stage2Doc set_id line_id line_text now1 item)
            stage2 s2 /\
    map snd s3 =
      (if Js.truthy stage3 then [stage3Doc set_id line_id line_text now2 stage3] else []).
Proof.
  unfold bulkDocs. cbn [mapM bind map app].
  destruct (mapM (stage1Doc set_id line_id line_text now1) stage1) as [docs1|] eqn:M;
    [| discriminate].
  cbn [bind]. rewrite app_nil_r. intros HA HB S.
  injection HA as <-. injection HB as <-.
  apply map_eq_app in S as (sA & s3 & -> & SA & S3).
  apply map_eq_app in SA as (s1 & s2 & -> & S1 & S2).
  apply HistoryFacts.mapM_Forall2 in M. rewrite <- S1 in M. apply Forall2_map_r in M.
  assert (F2 : Forall2 (fun item s => snd s = stage2Doc set_id line_id line_text now1 item)
                       stage2 s2).
  { clear - S2. revert s2 S2. induction stage2 as [|a l IH]; intros [|s s2] H;
      try discriminate; constructor.
    - now injection H.
    - apply IH. now injection H. }
  assert (T1 : Forall (fun s => Js.lookup "stage" (restored s) = Some (JNum 1)) s1).
  { apply (Forall2_right _ _ _ _ (fun item s H =>
             proj1 (stage1Doc_restored set_id line_id line_text now1 (fst s) item (snd s)
                      ltac:(exact H))) ) in M.
    eapply Forall_impl; [| exact M]. intros [id doc] H. exact H. }
  assert (T2 : Forall (fun s => Js.lookup "stage" (restored s) = Some (JNum 2)) s2).
  { apply (Forall2_right _ _ _ _ (fun item s (H : snd s = _) =>
             eq_ind_r (fun doc => Js.lookup "stage" (restored (fst s, doc)) = Some (JNum 2))
               (proj1 (stage2Doc_restored set_id line_id line_text now1 (fst s) item)) H))
      in F2.
    eapply Forall_impl; [| exact F2]. intros [id doc] H. exact H. }
  assert (T3 : Forall (fun s => Js.lookup "stage" (restored s) = Some (JNum 3)) s3).
  { destruct (Js.truthy stage3).
    - destruct s3 as [|[id doc] [|]]; try discriminate. cbn in S3. injection S3 as ->.
      constructor; [| constructor].
      apply (proj1 (stage3Doc_restored set_id line_id line_text now2 id stage3)).
    - destruct s3; [constructor | discriminate]. }
  assert (pick : forall n k (l : list (string * document)),
             Forall (fun s => Js.lookup "stage" (restored s) = Some (JNum k)) l ->
             filter (stageIs n) (map restored l) =
             if (k =? n)%Z then map restored l else []).
  { intros n k l H. destruct (k =? n)%Z eqn:Ek.
    - apply filter_every, Forall_map.
      eapply Forall_impl; [| exact H]. intros s Hs. cbn beta.
      now rewrite (stageIs_lookup n k _ Hs).
    - apply filter_none, Forall_map.
      eapply Forall_impl; [| exact H]. intros s Hs. cbn beta.
      now rewrite (stageIs_lookup n k _ Hs). }
  exists s1, s2, s3.
  rewrite !map_app, !filter_app.
  rewrite !(pick _ _ _ T1), !(pick _ _ _ T2), !(pick _ _ _ T3).
  cbn [Z.eqb Pos.eqb app]. rewrite !app_nil_r.
  repeat split; assumption.
Qed.

End DocumentFacts.

Import Documents.

(** X11.  Store, then fetch: stage 1 and stage 3.  Let the index hold, for
    a set, the documents of the two bulk requests of a request -- the
    reactions and angles first, the review second -- and let the cluster
    answer the search of [fetchDocsFromES] with these documents in any
    order.  Then [stage1] has one document per reaction stored, each
    reaction comes back with its identifier, its mode, its text and its
    ratings, and [stage3] is the review with its five fields, or [null]
    when the review was falsy and so never stored. *)
Theorem stored_reactions_come_back (c : cluster)
        (set_id line_id line_text now1 now2 : string)
        (stage1 : list json) (stage2 : list concept) (stage3 : json)
        (docsA docsB : list document) (stored : list (string * document))
        (hits : list json) (status : nat) :
  bulkDocs set_id line_id line_text now1 stage1 stage2 None = Ret docsA ->
  bulkDocs set_id line_id line_text now2 [] [] (Some stage3) = Ret docsB ->
  map snd stored = (docsA ++ docsB)%list ->
  Permutation hits (map asHit stored) ->
  esRequest (c (SearchDocs set_id line_id)) = Ret (status, found hits) ->
  exists d,
    fetchDocsFromES c set_id line_id = Ret d /\
    List.length (d_stage1 d) = List.length stage1 /\
    (forall item, In item stage1 ->
       exists doc,
         In doc (d_stage1 d) /\
         Forall (fun k => Js.lookup k doc = Js.getOpt (Some item) k)
                [ "feedback_id"; "agent_mode"; "feedback_text"; "relatability";
                  "laugh_potential"; "crowd_energy"; "confidence" ]) /\
    (if Js.truthy stage3
     then exists doc,
            d_stage3 d = Some doc /\
            Forall (fun k => Js.lookup k doc = Js.getOpt (Some stage3) k)
                   [ "divergence_score"; "risk_level"; "primary_conflict";
                     "conflict_summary"; "recommendation" ]
     else d_stage3 d = None).
Proof.
  intros HA HB S P E.
  destruct (DocumentFacts.fetch_stored c set_id line_id status hits stored E P)
    as (d & F & P1 & _ & third & D3 & P3).
  destruct (DocumentFacts.stored_by_stage set_id line_id line_text now1 now2
              stage1 stage2 stage3 docsA docsB stored HA HB S)
    as (s1 & s2 & s3 & E1 & _ & E3 & F1 & _ & S3).
  rewrite E1 in P1. rewrite E3 in P3.
  exists d. split; [exact F |]. split; [| split].
  - rewrite (Permutation_length P1), length_map. symmetry. exact (Forall2_length F1).
  - intros item Hitem.
    destruct (DocumentFacts.Forall2_left_image _ _ _ item F1 Hitem) as ([id doc] & Hs & B).
    exists (restored (id, doc)). split.
    + apply (Permutation_in _ (Permutation_sym P1)). now apply in_map.
    + apply (DocumentFacts.stage1Doc_restored set_id line_id line_text now1 id item doc B).
  - destruct (Js.truthy stage3).
    + destruct s3 as [|[id doc] [|]]; try discriminate S3. cbn in S3. injection S3 as ->.
      cbn [map] in P3. apply Permutation_sym, Permutation_length_1_inv in P3. subst third.
      eexists. split; [exact D3 |].
      apply (DocumentFacts.stage3Doc_restored set_id line_id line_text now2 id stage3).
    + destruct s3; [| discriminate S3]. cbn [map] in P3.
      apply Permutation_sym, Permutation_nil in P3. now subst third.
Qed.

Lemma stored_reactions_come_back_witness :
  exists d,
    fetchDocsFromES Stored.holding "set-1" "l1" = Ret d /\
    List.length (d_stage1 d) = 1 /\
    exists doc,
      d_stage3 d = Some doc /\
      Js.lookup "risk_level" doc = Some (JStr "low").
Proof.
  destruct (stored_reactions_come_back Stored.holding "set-1" "l1" "A line."
              "2026-01-01T00:00:00.000Z" "2026-01-01T00:00:09.000Z"
              [Stored.item] [Stored.angle] Reviewer.insufficientReview
              Stored.firstBulk Stored.secondBulk Stored.kept
              (rev (map asHit Stored.kept)) 200
              eq_refl eq_refl eq_refl (Permutation_sym (Permutation_rev _)) eq_refl)
    as (d & F & L & _ & doc & D3 & K).
  exists d. split; [exact F |]. split; [exact L |].
  exists doc. split; [exact D3 |].
  inversion K as [|? ? _ K1]; subst. inversion K1 as [|? ? H _]; subst. exact H.
Defined.

(** X12.  Store, then fetch: stage 2.  Under the same conditions [stage2]
    has one document per angle stored, and each is attached to the reaction
    the angle was attached to.  But of an angle only [parent_feedback_id]
    and a truthy [angle_name] are stored: the documents that come back have
    no [concept_id], [explanation] or [exploration_direction], and no
    [angle_id] or [direction] either. *)
Theorem stored_angles_come_back (c : cluster)
        (set_id line_id line_text now1 now2 : string)
        (stage1 : list json) (stage2 : list concept) (stage3 : json)
        (docsA docsB : list document) (stored : list (string * document))
        (hits : list json) (status : nat) :
  bulkDocs set_id line_id line_text now1 stage1 stage2 None = Ret docsA ->
  bulkDocs set_id line_id line_text now2 [] [] (Some stage3) = Ret docsB ->
  map snd stored = (docsA ++ docsB)%list ->
  Permutation hits (map asHit stored) ->
  esRequest (c (SearchDocs set_id line_id)) = Ret (status, found hits) ->
  exists d,
    fetchDocsFromES c set_id line_id = Ret d /\
    List.length (d_stage2 d) = List.length stage2 /\
    Forall (fun doc =>
              (exists item,
                 In item stage2 /\
                 Js.lookup "parent_feedback_id" doc =
                   Some (JStr (parent_feedback_id item)) /\
                 Js.lookup "angle_name" doc = Js.orElse (angle_name item) None) /\
              Forall (fun k => Js.lookup k doc = None)
                     [ "concept_id"; "explanation"; "exploration_direction";
                       "angle_id"; "direction" ])
           (d_stage2 d).
Proof.
  intros HA HB S P E.
  destruct (DocumentFacts.fetch_stored c set_id line_id status hits stored E P)
    as (d & F & _ & P2 & _).
  destruct (DocumentFacts.stored_by_stage set_id line_id line_text now1 now2
              stage1 stage2 stage3 docsA docsB stored HA HB S)
    as (s1 & s2 & s3 & _ & E2 & _ & _ & F2 & _).
  rewrite E2 in P2.
  exists d. split; [exact F |]. split.
  - rewrite (Permutation_length P2), length_map. symmetry. exact (Forall2_length F2).
  - apply Forall_forall. intros doc Hdoc.
    apply (Permutation_in _ P2), in_map_iff in Hdoc as ([id body] & <- & Hs).
    destruct (DocumentFacts.Forall2_right_image _ _ _ _ F2 Hs) as (item & Hitem & B).
    cbn [snd] in B. subst body.
    destruct (DocumentFacts.stage2Doc_restored set_id line_id line_text now1 id item)
      as (_ & K1 & K2 & K3).
    split; [| exact K3]. exists item. auto.
Qed.

Lemma stored_angles_come_back_witness :
  exists d,
    fetchDocsFromES Stored.holding "set-1" "l1" = Ret d /\
    List.length (d_stage2 d) = 1 /\
    Forall (fun doc => Js.lookup "explanation" doc = None) (d_stage2 d).
Proof.
  destruct (stored_angles_come_back Stored.holding "set-1" "l1" "A line."
              "2026-01-01T00:00:00.000Z" "2026-01-01T00:00:09.000Z"
              [Stored.item] [Stored.angle] Reviewer.insufficientReview
              Stored.firstBulk Stored.secondBulk Stored.kept
              (rev (map asHit Stored.kept)) 200
              eq_refl eq_refl eq_refl (Permutation_sym (Permutation_rev _)) eq_refl)
    as (d & F & L & K).
  exists d. split; [exact F |]. split; [exact L |].
  eapply Forall_impl; [| exact K]. intros doc [_ N].
  inversion N as [|? ? _ N1]; subst. inversion N1 as [|? ? H _]; subst. exact H.
Defined.

(** ** The routes *)

Module RouteFacts.
Import Elasticsearch Documents.
Local Open Scope list_scope.

Lemma mapM_length {A B} (f : A -> completion B) (l : list A) (ys : list B) :
  mapM f l = Ret ys -> List.length ys = List.length l.
Proof. intro H. symmetry. exact (Forall2_length (HistoryFacts.mapM_Forall2 f l ys H)). Qed.

(** The jokes made from an answer are as many as its buckets. *)
Lemma jokesOf_length (callback : json -> completion similarJoke) (data : json)
      (results : list similarJoke) :
  jokesOf callback (Js.getOpt (Some data) "aggregations") = Ret results ->
  List.length results = List.length (bucketsOf "unique_jokes" data).
Proof.
  unfold jokesOf, bucketsOf.
  destruct (Js.getOpt _ "buckets") as [[| | | | buckets |]|]; cbn;
    try (intro H; injection H as <-; reflexivity);
    try discriminate;
    try (match goal with |- context [if ?c then _ else _] => destruct c end;
         intro H; [discriminate H | injection H as <-; reflexivity]).
  apply mapM_length.
Qed.

Lemma fallback_length (es : store) (line_text : string) (limit : Z)
      (exclude : option string) (results : list similarJoke) :
  honoursTermsSize es ->
  findSimilarJokesFallback es line_text limit exclude = Ret results ->
  List.length results <= Z.to_nat limit.
Proof.
  intros H. unfold findSimilarJokesFallback.
  destruct (esRequest (es (SimilarMoreLikeThis line_text limit (mustNot exclude))))
    as [[status data]|] eqn:E; [| discriminate].
  cbn [bind snd].
  destruct (Js.get data "aggregations") as [aggs|] eqn:G; [| discriminate].
  apply JsFacts.get_getOpt in G. subst aggs. cbn [bind].
  intro J. rewrite (jokesOf_length _ _ _ J).
  exact (H _ line_text limit (mustNot exclude) status data (or_intror eq_refl) E).
Qed.

Lemma findSimilarJokes_length (es : store) (line_text : string) (limit : Z)
      (exclude : option string) (results : list similarJoke) :
  honoursTermsSize es ->
  findSimilarJokes es line_text limit exclude = Ret results ->
  List.length results <= Z.to_nat limit.
Proof.
  intros H.
  pose proof (fun r => fallback_length es line_text limit exclude r H) as F.
  unfold findSimilarJokes. cbv zeta.
  destruct (esRequest (es (SimilarSemantic line_text limit (mustNot exclude))))
    as [[status data]|] eqn:E; [| apply F].
  destruct (negb (status =? 200)%nat); [apply F |].
  destruct (Js.get data "aggregations") as [aggs|] eqn:G; [| apply F].
  apply JsFacts.get_getOpt in G. subst aggs.
  destruct (negb (Js.truthyOpt _)); [apply F |].
  destruct (jokesOf semanticJokeOf (Js.getOpt (Some data) "aggregations"))
    as [jokes|] eqn:J; cbn [tryCatch]; [| apply F].
  intro Q. injection Q as <-. rewrite (jokesOf_length _ _ _ J).
  exact (H _ line_text limit (mustNot exclude) status data (or_introl eq_refl) E).
Qed.

Lemma es_honoursTermsSize (semantic : bool) : honoursTermsSize (Demo.es semantic).
Proof.
  intros q text size must_not status data [-> | ->] H; cbn in H.
  - destruct semantic; [| discriminate]. injection H as _ <-.
    unfold bucketsOf. cbn. rewrite length_firstn. lia.
  - injection H as _ <-. unfold bucketsOf. cbn. rewrite length_firstn. lia.
Qed.

Lemma slice_count {A} (l : list A) (offset limit : Z) :
  (0 <= offset)%Z -> (0 <= limit)%Z ->
  Z.of_nat (List.length (Elasticsearch.slice offset (offset + limit) l)) =
  Z.min limit (Z.max 0 (Z.of_nat (List.length l) - offset)).
Proof.
  intros Ho Hl. rewrite HistoryFacts.slice_window by assumption.
  rewrite length_firstn, length_skipn. lia.
Qed.

End RouteFacts.

(** X13.  When the index does not exist -- every request gets a 404 whose
    body is a JSON error object -- the readers of the documents do not
    fail: [fetchDocsFromES] returns two empty lists and [null],
    [findSimilarJokes] no joke, after its fallback query, and
    [deleteBySetId] the count 0. *)
Theorem missing_index_reads_empty {R : JsRuntime} (c : cluster)
        (set_id line_id line_text : string) (limit : Z) (exclude : option string) :
  indexMissing c ->
  fetchDocsFromES c set_id line_id =
    Ret {| d_stage1 := []; d_stage2 := []; d_stage3 := None |} /\
  findSimilarJokes (searches c) line_text limit exclude = Ret [] /\
  deleteBySetId c set_id = Ret (JNum 0).
Proof.
  intro M. repeat split.
  - unfold fetchDocsFromES.
    destruct (M (SearchDocs set_id line_id)) as (error & -> & A & _).
    cbn. unfold hitsOf. cbn. now rewrite A.
  - unfold findSimilarJokes, findSimilarJokesFallback, searches. cbv zeta.
    destruct (M (Search (SimilarSemantic line_text limit (mustNot exclude))))
      as (error & -> & _ & _ & _).
    destruct (M (Search (SimilarMoreLikeThis line_text limit (mustNot exclude))))
      as (error' & -> & _ & A & _).
    cbn. now rewrite A.
  - unfold deleteBySetId.
    destruct (M (DeleteByQuery set_id)) as (error & -> & _ & _ & A).
    cbn. now rewrite A.
Qed.

Lemma missing_index_reads_empty_witness :
  indexMissing Stored.nowhere /\
  fetchDocsFromES Stored.nowhere "set-1" "l1" =
    Ret {| d_stage1 := []; d_stage2 := []; d_stage3 := None |} /\
  deleteBySetId Stored.nowhere "set-1" = Ret (JNum 0).
Proof.
  assert (M : indexMissing Stored.nowhere).
  { intro call. eexists. split; [reflexivity |]. repeat split. }
  split; [exact M |].
  destruct (missing_index_reads_empty (R := Demo.runtime) Stored.nowhere
              "set-1" "l1" "A line." 5 None M) as (F & _ & D).
  split; [exact F | exact D].
Defined.

(** X21.  The history of a missing index is empty rather than an error:
    when every request gets a 404 whose body is a JSON error object,
    [fetchHistory] returns no item and a total of 0 whatever the window
    asked for, and the history route answers with an empty page whose
    total is 0 and whose [hasMore] is set only for a negative offset. *)
Theorem missing_index_history_empty {R : JsRuntime} (c : cluster)
        (limit offset : Z) (limit' offset' : option Z) :
  indexMissing c ->
  fetchHistory (searches c) limit offset = Ret ([], 0) /\
  exists page,
    Routes.history (searches c) limit' offset' = Routes.Ok page /\
    Routes.p_items page = [] /\ Routes.p_total page = 0 /\
    Routes.p_hasMore page = (Routes.numberOr offset' 0 <? 0)%Z.
Proof.
  intro M.
  assert (G : forall l o, fetchHistory (searches c) l o = Ret ([], 0)).
  { intros l o. unfold fetchHistory, searches.
    destruct (M (Search (CompositeSetIds 1000))) as (error & -> & _ & A & _).
    cbn. unfold allItems. cbn. now rewrite A. }
  split; [apply G |].
  unfold Routes.history. rewrite G. eexists. split; [reflexivity |].
  cbn. repeat split. now rewrite Z.add_0_r.
Qed.

Lemma missing_index_history_empty_witness :
  indexMissing Stored.nowhere /\
  fetchHistory (R := Demo.runtime) (searches Stored.nowhere) 20 0 = Ret ([], 0).
Proof.
  assert (M : indexMissing Stored.nowhere).
  { intro call. eexists. split; [reflexivity |]. repeat split. }
  split; [exact M |].
  exact (proj1 (missing_index_history_empty (R := Demo.runtime) Stored.nowhere
                  20 0 None None M)).
Defined.

(** X14.  Paging through the history route.  For an offset that is not
    negative and a limit that is positive once the defaults are applied
    (a missing, unreadable or zero [limit] is 20, [offset] 0), the page
    holds the entries from [offset] on, at most [limit] of them, and
    [hasMore] is set exactly when entries remain after the page: when
    [offset + limit < total], the test by which the history page enables
    its "Next" button. *)
Theorem history_hasMore {R : JsRuntime} (es : store) (status : nat) (data : json)
        (all : list historyItem) (limit offset : option Z) :
  esRequest (es (CompositeSetIds 1000)) = Ret (status, data) ->
  allItems data = Ret (Some all) ->
  (0 <= Routes.numberOr offset 0)%Z ->
  (0 < Routes.numberOr limit 20)%Z ->
  exists page,
    Routes.history es limit offset = Routes.Ok page /\
    Routes.p_total page = List.length all /\
    Routes.p_items page =
      firstn (Z.to_nat (Routes.numberOr limit 20))
             (skipn (Z.to_nat (Routes.numberOr offset 0)) all) /\
    (Routes.p_hasMore page = true <->
     (Routes.numberOr offset 0 + Routes.numberOr limit 20 < Z.of_nat (List.length all))%Z).
Proof.
  intros E A Ho Hl. unfold Routes.history. cbv zeta.
  rewrite (HistoryFacts.fetchHistory_listing es status data all _ _ E A).
  eexists. split; [reflexivity |]. cbn [Routes.p_total Routes.p_items Routes.p_hasMore].
  split; [reflexivity |]. split.
  - apply HistoryFacts.slice_window; lia.
  - rewrite Z.ltb_lt, RouteFacts.slice_count by lia. lia.
Qed.

Lemma history_hasMore_witness :
  exists page,
    Routes.history (R := Demo.runtime) (Demo.es true) (Some 2%Z) (Some 2%Z) =
      Routes.Ok page /\
    Routes.p_total page = 5 /\
    Routes.p_items page = firstn 2 (skipn 2 Demo.history) /\
    Routes.p_hasMore page = true.
Proof.
  destruct (history_hasMore (R := Demo.runtime) (Demo.es true) 200 Demo.historyData
              Demo.history (Some 2%Z) (Some 2%Z) eq_refl eq_refl
              ltac:(cbn; lia) ltac:(cbn; lia))
    as (page & E & T & I & M).
  exists page. split; [exact E |]. split; [exact T |]. split; [exact I |].
  apply M. cbn. lia.
Defined.

(** X15.  The similar route never returns more than ten jokes, and no more
    than five when [limit] is missing, unreadable or zero, provided the
    store honours the size of a terms aggregation; [count] is the number of
    jokes returned. *)
Theorem similar_capped (es : store) (line_text : option string) (limit : option Z)
        (exclude_set_id : option string) (jokes : list similarJoke) (count : nat) :
  honoursTermsSize es ->
  Routes.similar es line_text limit exclude_set_id = Routes.Ok (jokes, count) ->
  count = List.length jokes /\
  count <= 10 /\
  (Routes.numberOr limit 5 = 5%Z -> count <= 5).
Proof.
  intros H. unfold Routes.similar.
  destruct line_text as [text|]; [| discriminate].
  destruct (String.eqb text ""); [discriminate |]. cbv zeta.
  destruct (findSimilarJokes es text _ _) as [found|] eqn:F; [| discriminate].
  intro Q. injection Q as <- <-.
  pose proof (RouteFacts.findSimilarJokes_length es text _ _ found H F) as L.
  split; [reflexivity |]. split; [lia |]. intro D. rewrite D in L. cbn in L. lia.
Qed.

Lemma similar_capped_witness :
  honoursTermsSize (Demo.es true) /\
  exists jokes,
    Routes.similar (Demo.es true) (Some "Line B") (Some 50%Z) None = Routes.Ok (jokes, 5) /\
    List.length jokes <= 10.
Proof.
  split; [apply RouteFacts.es_honoursTermsSize |].
  eexists. split; [reflexivity |].
  destruct (similar_capped (Demo.es true) (Some "Line B") (Some 50%Z) None _ 5
              (RouteFacts.es_honoursTermsSize true) eq_refl) as (C & T & _).
  rewrite <- C. exact T.
Defined.

(** X16.  The server never listens with the reviewer disabled.  [start]
    reaches [app.listen] exactly when the four variables are set and
    [ensureIndex] does not fail, and [reviewerEnabled] is then true: the
    variables [validateReviewerConfig] asks for are those without which
    [validateAgentConfig] has already made the process exit. *)
Theorem start_enables_reviewer (e : Startup.env) (c : cluster) :
  Startup.start e c <> Startup.Listening false /\
  (Startup.start e c = Startup.Listening true <->
   Startup.isSet (Startup.ES_URL e) = true /\
   Startup.isSet (Startup.ES_API_KEY e) = true /\
   Startup.isSet (Startup.KIBANA_URL e) = true /\
   Startup.isSet (Startup.KIBANA_API_KEY e) = true /\
   snd (ensureIndex c) = Ret tt).
Proof.
  unfold Startup.start, Startup.validateESConfig, Startup.validateAgentConfig,
    Startup.validateReviewerConfig.
  destruct (Startup.isSet (Startup.ES_URL e)), (Startup.isSet (Startup.ES_API_KEY e)),
    (Startup.isSet (Startup.KIBANA_URL e)), (Startup.isSet (Startup.KIBANA_API_KEY e));
    cbn; try (split; [discriminate | split; [discriminate | intros (? & ? & ? & ? & ?);
                                             discriminate]]).
  destruct (snd (ensureIndex c)) as [[]|]; cbn.
  - split; [discriminate |]. split; auto.
  - split; [discriminate |]. split; [discriminate | intros (_ & _ & _ & _ & H); discriminate].
Qed.

(** The server starts on a complete configuration and an existing index. *)
Example start_configured :
  Startup.start Stored.configured Stored.ready = Startup.Listening true /\
  fst (ensureIndex Stored.ready) = [HeadIndex; PutMapping].
Proof. split; reflexivity. Qed.


(** ** The wire *)

Module WireFacts.
Import JsString JsStringFacts Wire Client.
Local Open Scope list_scope.

(** *** Splitting a text that arrives in pieces *)

Lemma split_go_nonempty (sep : string) (k : nat) (s : string) : split_go sep k s <> [].
Proof.
  revert k. induction s as [|c s IH]; intro k; cbn [split_go]; [discriminate |].
  destruct k as [|k]; [| apply IH].
  destruct (prefix sep (String c s)); [discriminate |].
  destruct (split_go sep 0 s); discriminate.
Qed.

Lemma prefix_length (u s : string) : prefix u s = true -> String.length u <= String.length s.
Proof.
  revert s. induction u as [|a u IH]; intros [|b s]; cbn [String.length]; try lia.
  - discriminate.
  - rewrite prefix_cons. intro H. apply andb_true_iff in H as [_ H].
    specialize (IH s H). lia.
Qed.

Lemma prefix_app_short (u s t : string) :
  String.length u <= String.length s -> prefix u (s ++ t) = prefix u s.
Proof.
  revert s. induction u as [|a u IH]; intros [|b s]; cbn [String.length append]; try lia.
  - intros _. now rewrite !prefix_nil.
  - intros _. now rewrite !prefix_nil.
  - intro L. rewrite !prefix_cons. rewrite IH by lia. reflexivity.
Qed.

Lemma split_go_short (sep s : string) :
  String.length s < String.length sep -> split_go sep 0 s = [s].
Proof.
  induction s as [|c s IH]; [reflexivity |]. cbn [String.length]. intro L.
  rewrite split_go_cons.
  destruct (prefix sep (String c s)) eqn:P.
  - apply prefix_length in P. cbn [String.length] in P. lia.
  - rewrite IH by lia. reflexivity.
Qed.

Lemma split_go_single (sep s p : string) : split_go sep 0 s = [p] -> p = s.
Proof.
  revert p. induction s as [|c s IH]; intro p.
  - cbn. intro H. now injection H.
  - rewrite split_go_cons. destruct (prefix sep (String c s)).
    + intro H. injection H as _ H. now destruct (split_go_nonempty _ _ _ H).
    + destruct (split_go sep 0 s) as [|q [|]] eqn:E; intro H; try discriminate H.
      * now destruct (split_go_nonempty _ _ _ E).
      * injection H as <-. now rewrite (IH q eq_refl).
Qed.

Lemma removelast_cons {A} (x : A) (l : list A) :
  l <> [] -> removelast (x :: l) = x :: removelast l.
Proof. destruct l; [congruence | reflexivity]. Qed.

Lemma last_cons {A} (x d : A) (l : list A) : l <> [] -> last (x :: l) d = last l d.
Proof. destruct l; [congruence | reflexivity]. Qed.

Lemma removelast_app_r {A} (l l' : list A) :
  l' <> [] -> removelast (l ++ l') = l ++ removelast l'.
Proof. intro N. now apply removelast_app. Qed.

(** The pieces of a text to which more text is appended: those of the
    text, the last one apart, then the pieces of that last one with what
    was appended. *)
Lemma split_go_app (sep : string) (k : nat) (s t : string) :
  k <= String.length s ->
  split_go sep k (s ++ t) =
  removelast (split_go sep k s) ++ split_go sep 0 (last (split_go sep k s) "" ++ t).
Proof.
  revert k. induction s as [|c s IH]; intros k L.
  - cbn [String.length] in L. replace k with 0 by lia. reflexivity.
  - cbn [String.length] in L. change (String c s ++ t)%string with (String c (s ++ t)).
    destruct k as [|k].
    + rewrite !split_go_cons.
      destruct (prefix sep (String c s)) eqn:P.
      * pose proof (prefix_length _ _ P) as Ls. cbn [String.length] in Ls.
        change (String c (s ++ t)) with (String c s ++ t)%string.
        rewrite (prefix_app_l _ _ t P).
        rewrite removelast_cons, last_cons by apply split_go_nonempty.
        cbn [app]. f_equal. apply IH. lia.
      * destruct (prefix sep (String c (s ++ t))) eqn:P'.
        -- assert (Short : String.length (String c s) < String.length sep).
           { destruct (Nat.lt_ge_cases (String.length (String c s)) (String.length sep))
               as [|G]; [assumption |].
             change (String c (s ++ t)) with (String c s ++ t)%string in P'.
             rewrite (prefix_app_short _ _ t G) in P'. congruence. }
           assert (Short' : String.length s < String.length sep)
             by (cbn [String.length] in Short; lia).
           rewrite (split_go_short sep s Short'). cbn [removelast last app append].
           rewrite split_go_cons, P'. reflexivity.
        -- rewrite (IH 0) by lia.
           destruct (split_go sep 0 s) as [|p [|q ps]] eqn:E.
           ++ now destruct (split_go_nonempty _ _ _ E).
           ++ cbn [removelast last app append].
              pose proof (split_go_single _ _ _ E) as ->.
              rewrite split_go_cons, P'. reflexivity.
           ++ rewrite !removelast_cons, !last_cons by discriminate. reflexivity.
    + cbn [split_go]. apply IH. lia.
Qed.

Lemma split_app (sep s t : string) :
  split sep (s ++ t) = removelast (split sep s) ++ split sep (last (split sep s) "" ++ t).
Proof. apply split_go_app. lia. Qed.

(** The last piece holds no separator. *)
Lemma split_go_last (sep : string) (k : nat) (s : string) :
  split_go sep 0 (last (split_go sep k s) "") = [last (split_go sep k s) ""].
Proof.
  revert k. induction s as [|c s IH]; intro k; [reflexivity |].
  destruct k as [|k]; [| apply IH].
  rewrite split_go_cons. destruct (prefix sep (String c s)) eqn:P.
  - rewrite last_cons by apply split_go_nonempty. apply IH.
  - destruct (split_go sep 0 s) as [|p [|q ps]] eqn:E.
    + now destruct (split_go_nonempty _ _ _ E).
    + cbn [last]. pose proof (split_go_single _ _ _ E) as ->.
      rewrite split_go_cons, P, E. reflexivity.
    + rewrite last_cons by discriminate. specialize (IH 0). rewrite E in IH.
      rewrite last_cons in IH by discriminate. exact IH.
Qed.

Lemma append_empty (s : string) : (s ++ "")%string = s.
Proof. apply append_nil_r. Qed.

Section WithRuntime.
Context {R : JsRuntime} {C : JsCompare}.

Lemma handleGroups_app (lineText : string) (a b : list string) (p : page) :
  handleGroups lineText (a ++ b) p =
  match handleGroups lineText a p with
  | Continue p' => handleGroups lineText b p'
  | stop => stop
  end.
Proof.
  revert p. induction a as [|g a IH]; intro p; cbn [app handleGroups]; [reflexivity |].
  destruct (handleGroup lineText g p); [apply IH | reflexivity].
Qed.

(** The loop handles the groups of the whole text, in order: how the text
    is cut into chunks does not matter. *)
Lemma readLoop_received (lineText : string) (chunks : list string) (buffer : string)
      (p : page) :
  split blank buffer = [buffer] ->
  readLoop lineText chunks buffer p =
  handleGroups lineText (removelast (split blank (buffer ++ received chunks))) p.
Proof.
  revert buffer p. induction chunks as [|chunk rest IH]; intros buffer p B.
  - cbn [received fold_right readLoop]. now rewrite append_empty, B.
  - cbn [received fold_right readLoop]. fold (received rest).
    rewrite <- append_assoc, (split_app blank (buffer ++ chunk) (received rest)).
    rewrite removelast_app_r by apply split_go_nonempty.
    rewrite handleGroups_app.
    destruct (handleGroups lineText (removelast (split blank (buffer ++ chunk))) p)
      as [p'|]; [| reflexivity].
    apply IH. apply split_go_last.
Qed.


End WithRuntime.

(** *** The lines of one event *)

Lemma singleLine_app (s t : string) :
  singleLine (s ++ t) = singleLine s && singleLine t.
Proof. apply allChars_app. Qed.

(** A character of a line does not start a blank line. *)
Lemma no_blank_at (c : ascii) (s : string) :
  isLineTerminator c = false -> prefix blank (String c s) = false.
Proof.
  intro H. unfold blank. rewrite prefix_cons.
  destruct (Ascii.eqb LF c) eqn:E; [| reflexivity].
  apply Ascii.eqb_eq in E. subst c. discriminate H.
Qed.

Lemma split_line (line s : string) :
  singleLine line = true ->
  split_go blank 0 (line ++ s) =
  match split_go blank 0 s with
  | p :: ps => (line ++ p)%string :: ps
  | [] => [line]
  end.
Proof.
  induction line as [|c line IH]; intro H.
  - cbn [append]. destruct (split_go blank 0 s) eqn:E; [| reflexivity].
    now destruct (split_go_nonempty _ _ _ E).
  - cbn [singleLine allChars] in H. apply andb_true_iff in H as [Hc H].
    apply negb_true_iff in Hc.
    change (String c line ++ s)%string with (String c (line ++ s)).
    rewrite split_go_cons, (no_blank_at c _ Hc), (IH H).
    destruct (split_go blank 0 s); reflexivity.
Qed.

(** Two lines, a blank line, and more text: the first piece is the two
    lines. *)
Lemma split_two_lines (first second rest : string) :
  singleLine first = true -> singleLine second = true -> second <> "" ->
  split blank (first ++ newline ++ second ++ blank ++ rest) =
  (first ++ newline ++ second)%string :: split blank rest.
Proof.
  intros H1 H2 N. unfold split.
  rewrite (split_line first _ H1).
  unfold newline at 1. cbn [append].
  rewrite split_go_cons.
  assert (P : prefix blank (String LF (second ++ blank ++ rest)) = false).
  { unfold blank at 1. rewrite prefix_cons. cbn [andb Ascii.eqb LF Bool.eqb].
    destruct second as [|c second]; [congruence |].
    cbn [append singleLine allChars] in *. apply andb_true_iff in H2 as [Hc _].
    apply negb_true_iff in Hc. rewrite prefix_cons.
    destruct (Ascii.eqb LF c) eqn:E; [| reflexivity].
    apply Ascii.eqb_eq in E. subst c. discriminate Hc. }
  rewrite P, (split_line second _ H2).
  change (blank ++ rest)%string with (String LF (String LF rest)).
  rewrite split_go_cons.
  assert (Q : prefix blank (String LF (String LF rest)) = true)
    by (unfold blank; rewrite !prefix_cons, prefix_nil; reflexivity).
  rewrite Q. cbn [String.length blank Nat.sub split_go].
  rewrite append_nil_r. unfold newline. cbn [append]. reflexivity.
Qed.

Lemma lineRun_line (line rest : string) :
  singleLine line = true ->
  lineRun (line ++ newline ++ rest) = (line, (newline ++ rest)%string).
Proof.
  induction line as [|c line IH]; intro H; [reflexivity |].
  cbn [singleLine allChars] in H. apply andb_true_iff in H as [Hc H].
  apply negb_true_iff in Hc. cbn [append lineRun]. rewrite Hc.
  fold (append line (newline ++ rest)). now rewrite (IH H).
Qed.

Lemma lineRun_end (line : string) : singleLine line = true -> lineRun line = (line, "").
Proof.
  induction line as [|c line IH]; intro H; [reflexivity |].
  cbn [singleLine allChars] in H. apply andb_true_iff in H as [Hc H].
  apply negb_true_iff in Hc. cbn [lineRun]. rewrite Hc. now rewrite (IH H).
Qed.

Lemma dropPrefix_here (t s : string) : dropPrefix t (t ++ s) = Some s.
Proof.
  induction t as [|a t IH]; [now destruct s |].
  cbn [append dropPrefix]. now rewrite Ascii.eqb_refl.
Qed.

Lemma dropPrefix_prefix (t s r : string) : dropPrefix t s = Some r -> prefix t s = true.
Proof.
  revert s. induction t as [|a t IH]; intros [|b s]; cbn [dropPrefix]; try discriminate.
  - intros _. apply prefix_nil.
  - intros _. apply prefix_nil.
  - rewrite prefix_cons. destruct (Ascii.eqb a b); [apply IH | discriminate].
Qed.

(** "data: " first occurs where the data line starts. *)
Lemma matchData_after (before line : string) :
  includes "data: " (before ++ "data:") = false ->
  matchData (before ++ "data: " ++ line) = matchData ("data: " ++ line).
Proof.
  induction before as [|c before IH]; intro H; [reflexivity |].
  change (String c before ++ "data:")%string with (String c (before ++ "data:")) in H.
  cbn [includes] in H. apply orb_false_iff in H as [P H].
  change (String c before ++ "data: " ++ line)%string
    with (String c (before ++ "data: " ++ line)).
  cbn [matchData].
  destruct (dropPrefix "data: " (String c (before ++ "data: " ++ line))) as [r|] eqn:D;
    [| now apply IH].
  apply dropPrefix_prefix in D.
  assert (A : String c (before ++ "data: " ++ line) =
              (String c (before ++ "data:") ++ (" " ++ line))%string).
  { change (String c (before ++ "data:") ++ (" " ++ line))%string
      with (String c ((before ++ "data:") ++ (" " ++ line))).
    now rewrite append_assoc. }
  rewrite A, prefix_app_short in D; [congruence |].
  cbn [String.length]. rewrite SplitFacts.length_append. cbn. lia.
Qed.

Section Decoding.
Context {R : JsRuntime} {C : JsCompare}.

(** The group made of the two lines of an event reads back as the event. *)
Lemma handleGroup_body (lineText type : string) (data : json) (p : page) :
  faithful (type, data) ->
  handleGroup lineText (body type data) p = handleEvent lineText type data p.
Proof.
  intros (T & S & J). cbn [fst snd] in *.
  unfold plainType in T. apply andb_true_iff in T as [T D].
  apply andb_true_iff in T as [L Tr]. apply String.eqb_eq in Tr.
  apply negb_true_iff in D.
  unfold handleGroup, body.
  assert (E : matchEvent ("event: " ++ type ++ newline ++ "data: " ++ JSON_stringify data)
              = Some type).
  { change ("event: " ++ type ++ newline ++ "data: " ++ JSON_stringify data)%string
      with (String "e" ("vent: " ++ type ++ newline ++ "data: " ++ JSON_stringify data)).
    cbn [matchEvent].
    change (String "e" ("vent: " ++ type ++ newline ++ "data: " ++ JSON_stringify data))
      with ("event: " ++ (type ++ newline ++ "data: " ++ JSON_stringify data))%string.
    rewrite dropPrefix_here, (lineRun_line _ _ L).
    now rewrite prefix_here. }
  assert (M : matchData ("event: " ++ type ++ newline ++ "data: " ++ JSON_stringify data)
              = Some (JSON_stringify data)).
  { replace ("event: " ++ type ++ newline ++ "data: " ++ JSON_stringify data)%string
      with (("event: " ++ type ++ newline) ++ "data: " ++ JSON_stringify data)%string
      by (now rewrite !append_assoc).
    rewrite matchData_after.
    - change ("data: " ++ JSON_stringify data)%string
        with (String "d" ("ata: " ++ JSON_stringify data)).
      cbn [matchData].
      change (String "d" ("ata: " ++ JSON_stringify data))
        with ("data: " ++ JSON_stringify data)%string.
      now rewrite dropPrefix_here, (lineRun_end _ S).
    - now rewrite !append_assoc. }
  rewrite E, M, J, Tr. reflexivity.
Qed.

(** What was written splits into the groups of the events, and an empty
    rest. *)
Lemma split_written (events : list (string * json)) :
  Forall faithful events ->
  split blank (written events) = map (fun e => body (fst e) (snd e)) events ++ [""].
Proof.
  induction 1 as [|[type data] events (T & S & J) _ IH]; [reflexivity |].
  cbn [written map app fst snd] in *. unfold frame, body.
  unfold plainType in T. apply andb_true_iff in T as [T _].
  apply andb_true_iff in T as [L _].
  assert (A : ((("event: " ++ type ++ newline ++ "data: " ++ JSON_stringify data) ++
                blank) ++ written events)%string =
              (("event: " ++ type) ++ newline ++ ("data: " ++ JSON_stringify data) ++
               blank ++ written events)%string)
    by (now rewrite !append_assoc).
  rewrite A, split_two_lines.
  - rewrite IH. now rewrite !append_assoc.
  - now rewrite singleLine_app, L.
  - now rewrite singleLine_app, S.
  - discriminate.
Qed.

Lemma handleGroups_bodies (lineText : string) (events : list (string * json)) (p : page) :
  Forall faithful events ->
  handleGroups lineText (map (fun e => body (fst e) (snd e)) events) p =
  dispatch lineText events p.
Proof.
  intro F. revert p. induction F as [|[type data] events H _ IH]; intro p; [reflexivity |].
  cbn [map handleGroups dispatch fst snd]. rewrite (handleGroup_body _ _ _ _ H).
  destruct (handleEvent lineText type data p); [apply IH | reflexivity].
Qed.

(** *** An [error] event ends the reading *)

Lemma handleEvent_error (lineText : string) (data : json) (p : page) :
  exists cause, handleEvent lineText "error" data p = Stop p cause.
Proof.
  unfold handleEvent. cbn [String.eqb Ascii.eqb Bool.eqb].
  destruct (Js.get data "message"); eauto.
Qed.

Lemma dispatch_app (lineText : string) (a b : list (string * json)) (p : page) :
  dispatch lineText (a ++ b) p =
  match dispatch lineText a p with
  | Continue p' => dispatch lineText b p'
  | stop => stop
  end.
Proof.
  revert p. induction a as [|[type data] a IH]; intro p; cbn [app dispatch]; [reflexivity |].
  destruct (handleEvent lineText type data p); [apply IH | reflexivity].
Qed.

End Decoding.
End WireFacts.

Import Wire Client.

(** X17.  The page reads the same events however the response is cut into
    chunks: two sequences of chunks that make up the same text leave the
    page in the same state, with the same outcome. *)
Theorem readLoop_chunking {R : JsRuntime} {C : JsCompare}
        (lineText : string) (chunks chunks' : list string) (p : page) :
  received chunks = received chunks' ->
  readLoop lineText chunks "" p = readLoop lineText chunks' "" p.
Proof.
  intro E.
  rewrite !(WireFacts.readLoop_received lineText _ "" p eq_refl).
  now rewrite E.
Qed.

Lemma readLoop_chunking_witness :
  received Broadcast.chunks = written (R := Broadcast.runtime) Broadcast.events /\
  readLoop (R := Broadcast.runtime) (C := Client.compare) "A line." Broadcast.chunks ""
           connecting =
  readLoop (R := Broadcast.runtime) (C := Client.compare) "A line."
           [written (R := Broadcast.runtime) Broadcast.events] "" connecting.
Proof.
  split; [reflexivity |].
  apply (readLoop_chunking (R := Broadcast.runtime) (C := Client.compare)).
  reflexivity.
Defined.

(** X18.  What [sendEvent] writes, the page reads back.  When the events
    sent have plain types and data whose JSON text is on one line and parses
    back to the data, the page handles exactly these events, with these
    types and data, in the order sent, whatever the chunks in which the
    text arrives. *)
Theorem stream_read_back {R : JsRuntime} {C : JsCompare}
        (lineText : string) (events : list (string * json)) (chunks : list string)
        (p : page) :
  Forall faithful events ->
  received chunks = written events ->
  readLoop lineText chunks "" p = dispatch lineText events p.
Proof.
  intros F E.
  rewrite (WireFacts.readLoop_received lineText _ "" p eq_refl). cbn [append].
  rewrite E, (WireFacts.split_written events F).
  rewrite removelast_last. now apply WireFacts.handleGroups_bodies.
Qed.

Lemma stream_read_back_witness :
  Forall (faithful (R := Broadcast.runtime)) [("progress", Broadcast.progressData)] /\
  readLoop (R := Broadcast.runtime) (C := Client.compare) "A line."
           [ "event: prog";
             ("ress" ++ newline ++ "data: " ++
              Broadcast.textOf "message" "Synthesizing reviews..." ++ newline)%string;
             newline ] "" connecting =
  Continue (showNotification (Some (JStr "Synthesizing reviews...")) connecting).
Proof.
  assert (F : Forall (faithful (R := Broadcast.runtime))
                     [("progress", Broadcast.progressData)])
    by (repeat constructor).
  split; [exact F |].
  rewrite (stream_read_back (R := Broadcast.runtime) (C := Client.compare) "A line."
             [("progress", Broadcast.progressData)]
             [ "event: prog";
               ("ress" ++ newline ++ "data: " ++
                Broadcast.textOf "message" "Synthesizing reviews..." ++ newline)%string;
               newline ]
             connecting F eq_refl).
  reflexivity.
Defined.

(** X19.  An [error] event ends the reading.  When the events sent survive
    the wire and one of them is an [error] event, the page stops with an
    exception and handles nothing that was sent after it, a [done] event
    included; if the events before it raised nothing, the page is left as
    they made it and the exception is the one built from the message of
    the [error] event. *)
Theorem error_event_is_final {R : JsRuntime} {C : JsCompare}
        (lineText : string) (before after : list (string * json)) (data : json)
        (chunks : list string) (p : page) :
  Forall faithful (before ++ ("error", data) :: after)%list ->
  received chunks = written (before ++ ("error", data) :: after)%list ->
  (exists p' cause, readLoop lineText chunks "" p = Stop p' cause) /\
  (forall p0,
     dispatch lineText before p = Continue p0 ->
     readLoop lineText chunks "" p =
     Stop p0 (match Js.get data "message" with
              | Ret message => Reported message
              | Throw => TypeError
              end)).
Proof.
  intros F E.
  rewrite (WireFacts.readLoop_received lineText _ "" p eq_refl). cbn [append].
  rewrite E, (WireFacts.split_written _ F), removelast_last,
    (WireFacts.handleGroups_bodies _ _ _ F), WireFacts.dispatch_app.
  assert (H : forall p0, dispatch lineText (("error", data) :: after) p0 =
                         Stop p0 (match Js.get data "message" with
                                  | Ret message => Reported message
                                  | Throw => TypeError
                                  end)).
  { intro p0. cbn [dispatch]. unfold handleEvent. cbn [String.eqb Ascii.eqb Bool.eqb].
    now destruct (Js.get data "message"). }
  split.
  - destruct (dispatch lineText before p) as [p0|p0 cause]; [| eauto].
    rewrite H. eauto.
  - intros p0 D. rewrite D. apply H.
Qed.

Lemma error_event_is_final_witness :
  Forall (faithful (R := Broadcast.runtime)) Broadcast.events /\
  received Broadcast.chunks = written (R := Broadcast.runtime) Broadcast.events /\
  readLoop (R := Broadcast.runtime) (C := Client.compare) "A line." Broadcast.chunks ""
           connecting =
  Stop (showNotification (Some (JStr "Synthesizing reviews...")) connecting)
       (Reported
          (Some (JStr "Review generation failed, but perspectives are available."))).
Proof.
  assert (F : Forall (faithful (R := Broadcast.runtime)) Broadcast.events)
    by (repeat constructor).
  split; [exact F |]. split; [reflexivity |].
  exact (proj2 (error_event_is_final (R := Broadcast.runtime) (C := Client.compare)
                  "A line." [("progress", Broadcast.progressData)]
                  [("done", Broadcast.doneData)] Broadcast.errorData
                  Broadcast.chunks connecting F eq_refl)
               _ eq_refl).
Defined.

(** X20.  The page never submits a text the handler rejects: what
    [handleGenerate] sends, when it sends anything, is a trimmed text that
    is not empty, and [POST /api/analyze] answers it with a stream, not with
    a 400. *)
Theorem submission_accepted {R : JsRuntime} (lineText text : string) (w : world) :
  submission lineText = Some text ->
  accepted text = true /\
  exists events, analyze w (Some (JStr text)) = Stream events.
Proof.
  unfold submission. destruct (String.length (trim lineText) =? 0)%nat eqn:L;
    [discriminate |].
  intro H. injection H as <-.
  assert (A : accepted (trim lineText) = true).
  { unfold accepted. rewrite JsStringFacts.trim_idem, L, orb_false_r.
    destruct (trim lineText); [discriminate L | reflexivity]. }
  split; [exact A |].
  unfold accepted in A. apply negb_true_iff in A.
  unfold analyze. rewrite A. eauto.
Qed.

Lemma submission_accepted_witness :
  submission "  Why did the chicken cross the road?  " =
    Some "Why did the chicken cross the road?" /\
  accepted "Why did the chicken cross the road?" = true.
Proof.
  split; [reflexivity |].
  exact (proj1 (submission_accepted (R := Demo.runtime)
                  "  Why did the chicken cross the road?  "
                  "Why did the chicken cross the road?"
                  (Demo.world_with Demo.bulkOk) eq_refl)).
Defined.
